(* ===================================================================== *)
(* supergateway: the transport-bridge engine, embedded in Rocq            *)
(*                                                                       *)
(* Sources embedded here                                                 *)
(*   types.ts                                    (Module Types)          *)
(*   gateways/stdioToSse.ts                      (Module Sse)            *)
(*   gateways/stdioToStatefulStreamableHttp.ts   (Module Stateful)       *)
(*   gateways/stdioToStatelessStreamableHttp.ts  (Module Stateless)      *)
(*   gateways/stdioToWs.ts                       (Module Ws)             *)
(*   index.ts                                    (Module Cli)            *)
(* joinPath and the stdout listener, repeated in the gateways, are       *)
(* embedded once (Modules PathRouter and LineFramer).                    *)
(*                                                                       *)
(* The unit of modelling is the callback: what an Express route handler, *)
(* a transport callback or a child-process listener does to the state it *)
(* closes over.  Logging is left out.  Of Express the route matching is  *)
(* embedded (Module Express), of the MCP SDK isInitializeRequest; the    *)
(* middleware, body parsing and the SDK transports are the host's        *)
(* business, and where a handler depends on what they do, that behaviour *)
(* is a documented input of the model.                                   *)
(* ===================================================================== *)

From Stdlib Require Import ZArith List Bool Ascii String Lia.
From stdpp Require Import gmap strings list fin_maps.
Import ListNotations.

#[local] Set Warnings "-register-all".

Local Open Scope Z_scope.

(* --------------------------------------------------------------------- *)
(* JavaScript values shared by the adapters                              *)
(* --------------------------------------------------------------------- *)

(** A JSON value, as [JSON.parse] returns it and [JSON.stringify] prints
    it.  Objects keep their keys in insertion order. *)
Inductive JSON : Type :=
| JNull
| JBool (b : bool)
| JNum (z : Z)
| JStr (s : string)
| JArr (items : list JSON)
| JObj (fields : list (string * JSON)).

(** [o.k]: the first own field named [k]; [None] is [undefined]. *)
Fixpoint assoc (k : string) (fields : list (string * JSON)) : option JSON :=
  match fields with
  | [] => None
  | (k', v) :: rest => if String.eqb k k' then Some v else assoc k rest
  end.

Definition prop (k : string) (v : JSON) : option JSON :=
  match v with
  | JObj fields => assoc k fields
  | _ => None
  end.

(** Truthiness of a [string | undefined]. *)
Definition truthy_str (s : option string) : bool :=
  match s with
  | Some s => negb (String.eqb s "")
  | None => false
  end.

(** [s.startsWith(pre)]. *)
Fixpoint startsWith (pre s : string) : bool :=
  match pre, s with
  | EmptyString, _ => true
  | String a pre', String b s' => Ascii.eqb a b && startsWith pre' s'
  | String _ _, EmptyString => false
  end.

(** An HTTP response as the handlers build it: [res.status(n).send(text)],
    [res.status(n).json(value)] and [res.writeHead(n).end(JSON.stringify(value))]. *)
Inductive Body : Type :=
| BodyText (text : string)
| BodyJson (value : JSON).

Record Response : Type := mkResponse { status : Z; body : Body }.

(** The JSON-RPC error envelope the streamable-HTTP handlers answer with. *)
Definition jsonrpc_error (code : Z) (message : string) : JSON :=
  JObj [ ("jsonrpc", JStr "2.0");
         ("error", JObj [ ("code", JNum code); ("message", JStr message) ]);
         ("id", JNull) ]%string.

(** Whether a body is a JSON-RPC error envelope. *)
Definition is_jsonrpc_envelope (b : Body) : bool :=
  match b with
  | BodyJson v =>
      match prop "jsonrpc" v, prop "error" v with
      | Some (JStr _), Some (JObj _) => true
      | _, _ => false
      end
  | BodyText _ => false
  end.

(** [MultiStdioServerConfig] of types.ts. *)
Module Types.

Record MultiStdioServerConfig : Type := mkServer { path : string; stdioCmd : string }.

End Types.

Abbreviation MultiStdioServerConfig := Types.MultiStdioServerConfig.
Abbreviation mkServer := Types.mkServer.

(* --------------------------------------------------------------------- *)
(* Path router: joinPath (the same five lines in all four gateways)      *)
(* --------------------------------------------------------------------- *)

Module PathRouter.

Local Open Scope string_scope.

(** [s.replace(/\/$/, '')]: the only possible match of the pattern is a
    slash that is the last character. *)
Fixpoint replace_trailing_slash (s : string) : string :=
  match s with
  | EmptyString => EmptyString
  | String c EmptyString => if Ascii.eqb c "/" then EmptyString else s
  | String c rest => String c (replace_trailing_slash rest)
  end.

(** [s.startsWith('/')]. *)
Definition startsWith_slash (s : string) : bool :=
  match s with
  | String c _ => Ascii.eqb c "/"
  | EmptyString => false
  end.

(** [x || '/'] on strings. *)
Definition or_root (s : string) : string :=
  if String.eqb s "" then "/" else s.

(** joinPath, lines 48-52. *)
Definition joinPath (base suffix : string) : string :=
  let normalizedBase :=
    if String.eqb base "/" then "" else replace_trailing_slash base in
  let normalizedSuffix :=
    if startsWith_slash suffix then suffix else String "/" suffix in
  or_root (String.append normalizedBase normalizedSuffix).

(** The endpoint of a binding: [joinPath(server.path || '/', suffix)]. *)
Definition fullPath (server : MultiStdioServerConfig) (suffix : string) : string :=
  joinPath (or_root (Types.path server)) suffix.

(* ---- the router as the specification words it ---- *)

Definition rev_string (s : string) : string :=
  string_of_list_ascii (List.rev (list_ascii_of_string s)).

(** normalize: "/" becomes empty; otherwise one trailing slash, if there
    is one, is dropped. *)
Definition spec_normalize (p : string) : string :=
  if String.eqb p "/" then ""
  else match rev_string p with
       | String c r => if Ascii.eqb c "/" then rev_string r else p
       | EmptyString => p
       end.

(** ensureLeading: prepend a slash unless there is one already. *)
Definition spec_ensureLeading (s : string) : string :=
  if String.prefix "/" s then s else String.append "/" s.

Definition spec_fullPath (p s : string) : string :=
  let r := String.append (spec_normalize p) (spec_ensureLeading s) in
  match r with
  | EmptyString => "/"
  | _ => r
  end.

End PathRouter.

(* --------------------------------------------------------------------- *)
(* Line framer: the child.stdout 'data' listener shared by the gateways  *)
(* --------------------------------------------------------------------- *)

Module LineFramer.

(** A chunk is a [Buffer]: bytes as integers 0..255.  A JavaScript string
    is kept as its sequence of code points (splitting on line ends and
    trimming never look inside a surrogate pair). *)
Definition LF : Z := 10.
Definition CR : Z := 13.
Definition REPLACEMENT : Z := 0xFFFD.

(** State of the UTF-8 decoder between two bytes of one character:
    continuation bytes still needed, code point so far, and the bounds
    the next byte must respect. *)
Record Pending : Type :=
  mkPending { needed : Z; acc : Z; lower : Z; upper : Z }.

(** What a byte does when no character is in progress. *)
Definition lead (b : Z) : Z + Pending :=
  if (0 <=? b) && (b <=? 0x7F) then inl b
  else if (0xC2 <=? b) && (b <=? 0xDF) then
    inr (mkPending 1 (Z.land b 0x1F) 0x80 0xBF)
  else if (0xE0 <=? b) && (b <=? 0xEF) then
    inr (mkPending 2 (Z.land b 0xF)
           (if b =? 0xE0 then 0xA0 else 0x80) (if b =? 0xED then 0x9F else 0xBF))
  else if (0xF0 <=? b) && (b <=? 0xF4) then
    inr (mkPending 3 (Z.land b 0x7)
           (if b =? 0xF0 then 0x90 else 0x80) (if b =? 0xF4 then 0x8F else 0xBF))
  else inl REPLACEMENT.

(** [chunk.toString('utf8')]: Node decodes each Buffer on its own, with
    U+FFFD for every ill-formed or truncated sequence.  A character still
    in progress when the bytes run out is replaced as well. *)
Fixpoint utf8_decode (st : option Pending) (bs : list Z) : list Z :=
  match bs with
  | [] => match st with
          | None => []
          | Some _ => [REPLACEMENT]
          end
  | b :: rest =>
      let fresh :=
        match lead b with
        | inl cp => cp :: utf8_decode None rest
        | inr p => utf8_decode (Some p) rest
        end in
      match st with
      | None => fresh
      | Some p =>
          if (lower p <=? b) && (b <=? upper p) then
            let cp := Z.lor (Z.shiftl (acc p) 6) (Z.land b 0x3F) in
            if needed p =? 1 then cp :: utf8_decode None rest
            else utf8_decode (Some (mkPending (needed p - 1) cp 0x80 0xBF)) rest
          else REPLACEMENT :: fresh
      end
  end.

Definition toString_utf8 (chunk : list Z) : list Z := utf8_decode None chunk.

(** Prepend a character to the first fragment. *)
Definition push_front (c : Z) (frags : list (list Z)) : list (list Z) :=
  match frags with
  | f :: rest => (c :: f) :: rest
  | [] => [[c]]
  end.

(** [s.split(/\r?\n/)]: scanning from the left, a line feed, or a carriage
    return immediately followed by one, ends the current fragment.  The
    result always has a last fragment (possibly empty). *)
Fixpoint split_lines (s : list Z) : list (list Z) :=
  match s with
  | [] => [[]]
  | c :: rest =>
      if c =? LF then [] :: split_lines rest
      else match rest with
           | d :: rest' =>
               if (c =? CR) && (d =? LF) then [] :: split_lines rest'
               else push_front c (split_lines rest)
           | [] => push_front c (split_lines rest)
           end
  end.

(** White space as [String.prototype.trim] understands it. *)
Definition is_white_space (c : Z) : bool :=
  ((9 <=? c) && (c <=? 13)) || (c =? 32) || (c =? 0xA0) || (c =? 0x1680) ||
  ((0x2000 <=? c) && (c <=? 0x200A)) || (c =? 0x2028) || (c =? 0x2029) ||
  (c =? 0x202F) || (c =? 0x205F) || (c =? 0x3000) || (c =? 0xFEFF).

(** [!line.trim()]. *)
Definition blank (line : list Z) : bool := forallb is_white_space line.

(** One 'data' event up to the [forEach]: append the decoded chunk, split,
    pop the last fragment as the new buffer ([lines.pop() ?? '']), and
    skip the blank lines.  The result is the new buffer and the lines
    handed to [JSON.parse], in order. *)
Definition on_data (buffer : list Z) (chunk : list Z) : list Z * list (list Z) :=
  let buffer := buffer ++ toString_utf8 chunk in
  let lines := split_lines buffer in
  (List.last lines [], List.filter (fun line => negb (blank line)) (removelast lines)).

(** A sequence of 'data' events. *)
Fixpoint run (buffer : list Z) (chunks : list (list Z)) : list Z * list (list Z) :=
  match chunks with
  | [] => (buffer, [])
  | chunk :: more =>
      let '(buffer', lines) := on_data buffer chunk in
      let '(final, lines') := run buffer' more in
      (final, lines ++ lines')
  end.

(** The [try { JSON.parse(line) ... } catch { log }] around each line: the
    lines that parse become messages, the others are dropped. *)
Fixpoint parsed {Msg : Type} (JSON_parse : list Z -> option Msg)
    (lines : list (list Z)) : list Msg :=
  match lines with
  | [] => []
  | line :: rest =>
      match JSON_parse line with
      | Some jsonMsg => jsonMsg :: parsed JSON_parse rest
      | None => parsed JSON_parse rest
      end
  end.

(** Line separators a child may use. *)
Inductive Sep : Type := SepLF | SepCRLF.

Definition sep_text (s : Sep) : list Z :=
  match s with
  | SepLF => [LF]
  | SepCRLF => [CR; LF]
  end.

(** The text a child writes for messages [m_i] with separators [sep_i]. *)
Definition stream {Msg : Type} (serialize : Msg -> list Z)
    (out : list (Msg * Sep)) : list Z :=
  concat (map (fun '(m, s) => serialize m ++ sep_text s) out).

End LineFramer.

(* --------------------------------------------------------------------- *)
(* What the gateways use of the MCP SDK and of lib/                      *)
(* --------------------------------------------------------------------- *)

(** An optional field of a schema: absent, or present and passing. *)
Definition optional (check : JSON -> bool) (v : option JSON) : bool :=
  match v with
  | Some x => check x
  | None => true
  end.

Definition is_object (v : JSON) : bool :=
  match v with JObj _ => true | _ => false end.

Definition is_boolean (v : JSON) : bool :=
  match v with JBool _ => true | _ => false end.

(** A progress token: a string or an integer. *)
Definition progress_token (v : JSON) : bool :=
  match v with JStr _ | JNum _ => true | _ => false end.

(** [_meta] of the params of a request. *)
Definition request_meta (v : JSON) : bool :=
  is_object v && optional progress_token (prop "progressToken" v).

(** The capabilities of a client: [experimental], [sampling] and [roots]
    are objects where present, and [roots.listChanged] a boolean. *)
Definition client_capabilities (v : JSON) : bool :=
  is_object v &&
  optional is_object (prop "experimental" v) &&
  optional is_object (prop "sampling" v) &&
  optional (fun roots => is_object roots && optional is_boolean (prop "listChanged" roots))
           (prop "roots" v).

(** The description of an implementation: a name and a version. *)
Definition implementation (v : JSON) : bool :=
  match prop "name" v, prop "version" v with
  | Some (JStr _), Some (JStr _) => true
  | _, _ => false
  end.

(** [isInitializeRequest] of the SDK: whether the value passes the
    schema of an initialize request.  The SDK is not among the sources.
    These are the checks that schema makes in every 1.x release: the
    method is "initialize"; the params are an object with a string
    [protocolVersion], the client's [capabilities], a [clientInfo] and,
    where present, a well-formed [_meta]; unknown fields are let through.
    The schema says nothing of [id].  Single releases check more (the
    type of a [title] of the client, the shape of an [elicitation]
    capability); a value that carries such a field may be refused by a
    release where this function accepts it.  [plain_initialize] below
    marks the requests no release refuses. *)
Definition isInitializeRequest (value : JSON) : bool :=
  match prop "method" value, prop "params" value with
  | Some (JStr m), Some params =>
      String.eqb m "initialize" &&
      optional request_meta (prop "_meta" params) &&
      match prop "protocolVersion" params, prop "capabilities" params,
            prop "clientInfo" params with
      | Some (JStr _), Some capabilities, Some info =>
          client_capabilities capabilities && implementation info
      | _, _, _ => false
      end
  | _, _ => false
  end.

(** The keys of an object, and two tests on them. *)
Definition keys (v : JSON) : list string :=
  match v with
  | JObj fields => map fst fields
  | _ => []
  end.

Definition only_keys (allowed : list string) (v : JSON) : bool :=
  forallb (fun k => existsb (String.eqb k) allowed) (keys v).

Fixpoint distinct (ks : list string) : bool :=
  match ks with
  | [] => true
  | k :: rest => negb (existsb (String.eqb k) rest) && distinct rest
  end.

(** An object with each key once and no key outside [allowed]. *)
Definition object_of (allowed : list string) (v : JSON) : bool :=
  is_object v && distinct (keys v) && only_keys allowed v.

(** An initialize request made of the required parts and nothing a
    release of the schema could object to: the params hold only
    [protocolVersion], [capabilities] and [clientInfo]; the capabilities
    only [roots] (with at most a boolean [listChanged]) and empty
    [sampling] and [experimental] objects; the client info only [name]
    and [version]; no key is repeated. *)
Definition plain_initialize (value : JSON) : bool :=
  isInitializeRequest value && distinct (keys value) &&
  match prop "params" value with
  | Some params =>
      object_of ["protocolVersion"; "capabilities"; "clientInfo"]%string params &&
      optional (fun capabilities =>
                  object_of ["roots"; "sampling"; "experimental"]%string capabilities &&
                  optional (object_of ["listChanged"]%string) (prop "roots" capabilities) &&
                  optional (object_of []) (prop "sampling" capabilities) &&
                  optional (object_of []) (prop "experimental" capabilities))
               (prop "capabilities" params) &&
      optional (object_of ["name"; "version"]%string) (prop "clientInfo" params)
  | None => false
  end.

(** Truthiness of a [number | null]. *)
Definition truthy_num (n : option Z) : bool :=
  match n with
  | Some z => negb (z =? 0)
  | None => false
  end.

Module SessionAccessCounter.

(** Modelled from the spec: lib/sessionAccessCounter.ts is not among the
    sources.  Section 4.3: a reference counter per key with an idle timer
    per key.  [inc] increments and, on the step from 0 to 1, cancels an
    armed timer; [dec] decrements, never below 0, and on reaching 0 with
    a positive timeout arms the timer; [clear] cancels the timer and
    removes the entry, and invokes onExpire only if told to fire. *)
Record t : Type := mk {
  timeout : Z;
  counts : gmap string nat;
  timers : gset string
}.

Definition create (timeout : Z) : t := mk timeout ∅ ∅.

Definition count (key : string) (c : t) : nat := default 0%nat (counts c !! key).

Definition inc (key : string) (c : t) : t :=
  mk (timeout c) (<[key := S (count key c)]> (counts c))
     (if Nat.eqb (count key c) 0 then timers c ∖ {[key]} else timers c).

Definition dec (key : string) (c : t) : t :=
  let n := Nat.pred (count key c) in
  mk (timeout c) (<[key := n]> (counts c))
     (if Nat.eqb n 0 && (0 <? timeout c) then timers c ∪ {[key]} else timers c).

(** The second component lists the keys onExpire is to be invoked on. *)
Definition clear (key : string) (fire : bool) (c : t) : t * list string :=
  (mk (timeout c) (delete key (counts c)) (timers c ∖ {[key]}),
   if fire then [key] else []).

(** An armed timer goes off. *)
Definition expire (key : string) (c : t) : t * list string :=
  if bool_decide (key ∈ timers c)
  then (mk (timeout c) (counts c) (timers c ∖ {[key]}), [key])
  else (c, []).

End SessionAccessCounter.

(* --------------------------------------------------------------------- *)
(* Stateful Streamable-HTTP adapter: one binding                         *)
(* --------------------------------------------------------------------- *)

Module Stateful.

(** [sessionIdGenerator] of a transport. *)
Inductive Generator : Type :=
| GenRandomUUID      (* () => randomUUID() *)
| GenUndefined.

(** A [StreamableHTTPServerTransport] as far as the adapter touches it.
    [reported] and [sent] are ghost fields: whether the transport has
    delivered close or error, and the messages passed to [send]. *)
Record Transport : Type := mkTransport {
  sessionId : option string;
  sessionIdGenerator : Generator;
  reported : bool;
  sent : list JSON
}.

(** The child spawned for a transport: its command, whether kill() was
    called, and the messages written to its stdin, oldest first. *)
Record Child : Type := mkChild {
  command : string;
  killed : bool;
  stdin : list JSON
}.

(** The objects one initialising POST creates and wires together. *)
Record Conn : Type := mkConn { transport : Transport; child : Child }.

(** What the handlers of a binding close over.  The session table maps a
    session id to a transport object, here a reference into [heap];
    [transports] holds the table's own properties.  [expired] is ghost:
    the keys onExpire was invoked on. *)
Record State : Type := mkState {
  transports : gmap string nat;
  heap : list Conn;
  sessionCounter : option SessionAccessCounter.t;
  expired : list string
}.

(** The table is created as the object literal [{}] (line 141), so a
    lookup that finds no own property goes on to Object.prototype.  These
    are its property names; the value found there is a function, or for
    [__proto__] Object.prototype itself: truthy, and not a transport. *)
Definition inherited (key : string) : bool :=
  existsb (String.eqb key)
    [ "constructor"; "__proto__"; "hasOwnProperty"; "isPrototypeOf";
      "propertyIsEnumerable"; "toLocaleString"; "toString"; "valueOf";
      "__defineGetter__"; "__defineSetter__"; "__lookupGetter__";
      "__lookupSetter__" ]%string.

(** What [transports[key]] evaluates to. *)
Inductive Slot : Type :=
| Own (ref : nat)      (* a transport the adapter stored *)
| Inherited            (* a property of Object.prototype *)
| Missing.             (* undefined *)

Definition slot (key : string) (table : gmap string nat) : Slot :=
  match table !! key with
  | Some ref => Own ref
  | None => if inherited key then Inherited else Missing
  end.

(** Lines 141-160: an empty table, and a counter only when
    [sessionTimeout] is truthy. *)
Definition init (sessionTimeout : option Z) : State :=
  mkState ∅ []
    (if truthy_num sessionTimeout
     then Some (SessionAccessCounter.create (default 0 sessionTimeout))
     else None)
    [].

Definition set_transports (table : gmap string nat) (st : State) : State :=
  mkState table (heap st) (sessionCounter st) (expired st).

Definition update_conn (ref : nat) (f : Conn -> Conn) (st : State) : State :=
  mkState (transports st) (alter f ref (heap st)) (sessionCounter st) (expired st).

(** [sessionCounter?.inc(id, ...)] and [sessionCounter?.dec(id, ...)]. *)
Definition counter_inc (id : string) (st : State) : State :=
  mkState (transports st) (heap st)
    (SessionAccessCounter.inc id <$> sessionCounter st) (expired st).

Definition counter_dec (id : string) (st : State) : State :=
  mkState (transports st) (heap st)
    (SessionAccessCounter.dec id <$> sessionCounter st) (expired st).

(** [sessionCounter?.clear(id, fire, ...)]; the keys the counter fires on
    are appended to [expired]. *)
Definition counter_clear (id : string) (fire : bool) (st : State) : State :=
  match sessionCounter st with
  | Some c =>
      let '(c', fired) := SessionAccessCounter.clear id fire c in
      mkState (transports st) (heap st) (Some c') (expired st ++ fired)
  | None => st
  end.

(** [child.kill()]. *)
Definition kill (ref : nat) (st : State) : State :=
  update_conn ref
    (fun c => mkConn (transport c) (mkChild (command (child c)) true (stdin (child c)))) st.

(** transport.onclose, lines 242-255. *)
Definition onclose (ref : nat) (st : State) : State :=
  match heap st !! ref with
  | Some conn =>
      let st :=
        match sessionId (transport conn) with
        | Some id =>
            if truthy_str (Some id)
            then set_transports (delete id (transports (counter_clear id false st)))
                   (counter_clear id false st)
            else st
        | None => st
        end in
      kill ref st
  | None => st
  end.

(** transport.onerror, lines 257-271. *)
Definition onerror (ref : nat) (st : State) : State :=
  match heap st !! ref with
  | Some conn =>
      let st :=
        match sessionId (transport conn) with
        | Some id =>
            if truthy_str (Some id)
            then set_transports (delete id (transports (counter_clear id false st)))
                   (counter_clear id false st)
            else st
        | None => st
        end in
      kill ref st
  | None => st
  end.

Definition mark_reported (ref : nat) (st : State) : State :=
  update_conn ref
    (fun c => mkConn (mkTransport (sessionId (transport c)) (sessionIdGenerator (transport c))
                        true (sent (transport c))) (child c)) st.

(** The transport reports close (the SDK's [close()] ends by calling
    [onclose]) or error. *)
Definition transport_close (ref : nat) (st : State) : State :=
  onclose ref (mark_reported ref st).

Definition transport_error (ref : nat) (st : State) : State :=
  onerror ref (mark_reported ref st).

(** The onExpire callback given to the counter, lines 148-157.  For a
    key found on Object.prototype, [transport.close] is not a function:
    the callback throws before it reaches the delete. *)
Definition onExpire (id : string) (st : State) : State :=
  let st := mkState (transports st) (heap st) (sessionCounter st) (expired st ++ [id]) in
  match slot id (transports st) with
  | Own ref =>
      let st := transport_close ref st in
      set_transports (delete id (transports st)) st
  | Inherited => st
  | Missing => set_transports (delete id (transports st)) st
  end.

(** onsessioninitialized, lines 186-194.  [newSessionId] is what the
    transport's generator, [randomUUID()], returned. *)
Definition onsessioninitialized (ref : nat) (newSessionId : string) (st : State) : State :=
  counter_inc newSessionId (set_transports (<[newSessionId := ref]> (transports st)) st).

(** How a request leaves its handler. *)
Inductive PostOutcome : Type :=
| Reused (ref : nat)       (* handleRequest on the transport found in the table *)
| Created (ref : nat)      (* handleRequest on a transport made for this request *)
| Answered (r : Response)
| Thrown.                  (* what the table gave has no handleRequest: the call
                              throws a TypeError and the handler sends no answer *)

(** [sessionId && transports[sessionId]], the test of lines 168 and 314:
    the header and what the table holds for it, when the header is
    truthy. *)
Definition session_slot (sessionId : option string) (st : State) : option (string * Slot) :=
  if truthy_str sessionId
  then (fun id => (id, slot id (transports st))) <$> sessionId
  else None.

(** The POST handler up to [transport.handleRequest], lines 163-305. *)
Definition post (stdioCmd : string) (sessionId : option string) (body : JSON)
    (st : State) : PostOutcome * State :=
  match session_slot sessionId st with
  | Some (id, Own ref) => (Reused ref, counter_inc id st)
  | Some (id, Inherited) => (Thrown, counter_inc id st)
  | _ =>
      if negb (truthy_str sessionId) && isInitializeRequest body then
        let conn := mkConn (mkTransport None GenRandomUUID false [])
                           (mkChild stdioCmd false []) in
        (Created (length (heap st)),
         mkState (transports st) (heap st ++ [conn]) (sessionCounter st) (expired st))
      else
        (Answered (mkResponse 400
           (BodyJson (jsonrpc_error (-32000) "Bad Request: No valid session ID provided"))),
         st)
  end.

(** What the SDK does with the first request of a fresh transport when it
    accepts it: it asks the generator for an id, stores it in
    [transport.sessionId], and, the id being truthy, calls the
    onsessioninitialized callback. *)
Definition sdk_initialize (ref : nat) (generated : string) (st : State) : State :=
  let st :=
    update_conn ref
      (fun c => mkConn (mkTransport (Some generated) (sessionIdGenerator (transport c))
                          (reported (transport c)) (sent (transport c))) (child c)) st in
  if truthy_str (Some generated) then onsessioninitialized ref generated st else st.

(** handleSessionRequest (GET and DELETE) up to
    [transport.handleRequest], lines 309-343. *)
Definition handleSessionRequest (sessionId : option string) (st : State)
    : PostOutcome * State :=
  match session_slot sessionId st with
  | Some (id, Own ref) => (Reused ref, counter_inc id st)
  | Some (id, Inherited) => (Thrown, counter_inc id st)
  | _ => (Answered (mkResponse 400 (BodyText "Invalid or missing session ID")), st)
  end.

(** handleResponseEnd of handleSessionRequest, lines 325-336, the first
    time 'finish' or 'close' fires for the response of a request that
    passed the test: the count of the header's id goes down. *)
Definition handleSessionResponseEnd (sessionId : string) (st : State) : State :=
  counter_dec sessionId st.

(** handleResponseEnd of the POST handler, lines 287-299, the first time
    'finish' or 'close' fires for a response. *)
Definition handleResponseEnd (ref : nat) (st : State) : State :=
  match heap st !! ref with
  | Some conn =>
      match sessionId (transport conn) with
      | Some id => if truthy_str (Some id) then counter_dec id st else st
      | None => st
      end
  | None => st
  end.

(** transport.onmessage, lines 235-240, and the body of the stdout
    listener for one parsed line, lines 213-216. *)
Definition onmessage (ref : nat) (msg : JSON) (st : State) : State :=
  update_conn ref
    (fun c => mkConn (transport c)
                (mkChild (command (child c)) (killed (child c)) (stdin (child c) ++ [msg]))) st.

Definition child_message (ref : nat) (jsonMsg : JSON) (st : State) : State :=
  update_conn ref
    (fun c => mkConn (mkTransport (sessionId (transport c)) (sessionIdGenerator (transport c))
                        (reported (transport c)) (sent (transport c) ++ [jsonMsg]))
                (child c)) st.

(** What can happen to a binding.  [generated] is the id [randomUUID()]
    returns should the SDK initialise a session while it handles the
    request; [None] stands for the SDK answering without doing so. *)
Inductive Event : Type :=
| EvPost (sessionId : option string) (body : JSON) (generated : option string)
| EvGet (sessionId : option string)
| EvDelete (sessionId : option string)
| EvResponseEnd (ref : nat)
| EvSessionResponseEnd (sessionId : string)
| EvMessage (ref : nat) (msg : JSON)
| EvChildMessage (ref : nat) (jsonMsg : JSON)
| EvChildExit (ref : nat)
| EvClose (ref : nat)
| EvError (ref : nat)
| EvTimer (id : string).

Definition step (stdioCmd : string) (st : State) (ev : Event) : State :=
  match ev with
  | EvPost sessionId body generated =>
      match post stdioCmd sessionId body st with
      | (Created ref, st) =>
          match generated with
          | Some id => sdk_initialize ref id st
          | None => st
          end
      | (_, st) => st
      end
  | EvGet sessionId => snd (handleSessionRequest sessionId st)
  | EvDelete sessionId =>
      match handleSessionRequest sessionId st with
      | (Reused ref, st) => transport_close ref st
      | (_, st) => st
      end
  | EvResponseEnd ref => handleResponseEnd ref st
  | EvSessionResponseEnd sessionId => handleSessionResponseEnd sessionId st
  | EvMessage ref msg => onmessage ref msg st
  | EvChildMessage ref jsonMsg => child_message ref jsonMsg st
  | EvChildExit ref => transport_close ref st
  | EvClose ref => transport_close ref st
  | EvError ref => transport_error ref st
  | EvTimer id =>
      match sessionCounter st with
      | Some c =>
          let '(c', fired) := SessionAccessCounter.expire id c in
          fold_left (fun st id => onExpire id st) fired
            (mkState (transports st) (heap st) (Some c') (expired st))
      | None => st
      end
  end.

Definition run (stdioCmd : string) (sessionTimeout : option Z) (evs : list Event) : State :=
  fold_left (step stdioCmd) evs (init sessionTimeout).

(** A well-formed initialize request, used where a concrete body is needed. *)
Definition sample_initialize : JSON :=
  JObj [ ("jsonrpc", JStr "2.0"); ("id", JNum 1); ("method", JStr "initialize");
         ("params", JObj [ ("protocolVersion", JStr "2024-11-05");
                           ("capabilities", JObj []);
                           ("clientInfo", JObj [ ("name", JStr "client");
                                                 ("version", JStr "1.0") ]) ]) ]%string.

(** Every entry of the session table points to a live transport object
    that carries the entry's key as its session id and has reported
    neither close nor error. *)
Definition table_ok (st : State) : Prop :=
  forall id ref, transports st !! id = Some ref ->
    truthy_str (Some id) = true /\
    exists conn, heap st !! ref = Some conn /\
                 sessionId (transport conn) = Some id /\
                 reported (transport conn) = false.




(** Options shared by the single and the multi entry point. *)
Record Options : Type := mkOptions {
  port : Z;
  streamableHttpPath : string;
  corsOrigin : option (list string);
  healthEndpoints : list string;
  headers : list (string * string);
  sessionTimeout : option Z
}.

Record StdioToStatefulStreamableHttpArgs : Type :=
  mkArgs { stdioCmd : string; rest : Options }.

Record MultiStdioToStatefulStreamableHttpArgs : Type :=
  mkMultiArgs { servers : list MultiStdioServerConfig; options : Options }.

(** One binding: its endpoint, its command, and what its handlers close
    over. *)
Record Binding : Type := mkBinding {
  fullPath : string;
  bindingCmd : string;
  state : State
}.

(** multiStdioToStatefulStreamableHttp, lines 74-364. *)
Definition multiStdioToStatefulStreamableHttp
    (args : MultiStdioToStatefulStreamableHttpArgs) : Options * list Binding :=
  (options args,
   map (fun serverConfig =>
          mkBinding (PathRouter.fullPath serverConfig (streamableHttpPath (options args)))
                    (Types.stdioCmd serverConfig)
                    (init (sessionTimeout (options args))))
       (servers args)).

(** stdioToStatefulStreamableHttp, lines 54-72. *)
Definition stdioToStatefulStreamableHttp
    (args : StdioToStatefulStreamableHttpArgs) : Options * list Binding :=
  multiStdioToStatefulStreamableHttp (mkMultiArgs [mkServer "/" (stdioCmd args)] (rest args)).

End Stateful.

(* --------------------------------------------------------------------- *)
(* What the gateways use of Express                                      *)
(* --------------------------------------------------------------------- *)

Module Express.

(** Express is not among the sources.  This is its route matching with
    the settings the gateways leave at their defaults (case sensitive
    routing off, strict routing off), for a route path without pattern
    characters: the route answers the request paths that equal its path
    up to the case of ASCII letters and up to one trailing slash. *)
Definition lower (c : ascii) : ascii :=
  let n := nat_of_ascii c in
  if ((65 <=? n) && (n <=? 90))%nat then ascii_of_nat (n + 32) else c.

Fixpoint eqb_ci (a b : string) : bool :=
  match a, b with
  | EmptyString, EmptyString => true
  | String x a', String y b' => Ascii.eqb (lower x) (lower y) && eqb_ci a' b'
  | _, _ => false
  end.

Definition matches (route reqPath : string) : bool :=
  let base := PathRouter.replace_trailing_slash route in
  eqb_ci reqPath base || eqb_ci reqPath (String.append base "/").

(** The characters that stand for themselves in a route path: letters,
    digits, slash, hyphen, underscore and dot. *)
Definition plain_char (c : ascii) : bool :=
  let n := nat_of_ascii c in
  (((48 <=? n) && (n <=? 57)) || ((65 <=? n) && (n <=? 90)) ||
   ((97 <=? n) && (n <=? 122)) || (n =? 47) || (n =? 45) || (n =? 95) || (n =? 46))%nat.

Fixpoint plain (route : string) : bool :=
  match route with
  | EmptyString => true
  | String c rest => plain_char c && plain rest
  end.

End Express.

(* --------------------------------------------------------------------- *)
(* Stateless Streamable-HTTP adapter                                     *)
(* --------------------------------------------------------------------- *)

Module Stateless.

(** Truthiness of a JavaScript value held as JSON; [None] is [null] or
    [undefined]. *)
Definition truthy_json (v : option JSON) : bool :=
  match v with
  | None | Some JNull => false
  | Some (JBool b) => b
  | Some (JNum z) => negb (z =? 0)%Z
  | Some (JStr s) => negb (String.eqb s "")
  | Some (JArr _) | Some (JObj _) => true
  end.

(** [a === b] where [b] is a stored request id.  Two primitives are equal
    when they are the same primitive; an object or array read from a
    freshly parsed message is never identical to a stored value. *)
Definition strict_eq (a b : option JSON) : bool :=
  match a, b with
  | None, None => true
  | Some JNull, Some JNull => true
  | Some (JBool x), Some (JBool y) => Bool.eqb x y
  | Some (JNum x), Some (JNum y) => (x =? y)%Z
  | Some (JStr x), Some (JStr y) => String.eqb x y
  | _, _ => false
  end.

(** createInitializeRequest, lines 413-433; [version] is what
    [getVersion()] of lib/ returns. *)
Definition createInitializeRequest (version : string) (id : JSON)
    (protocolVersion : string) : JSON :=
  JObj [ ("jsonrpc", JStr "2.0");
         ("id", id);
         ("method", JStr "initialize");
         ("params",
          JObj [ ("protocolVersion", JStr protocolVersion);
                 ("capabilities",
                  JObj [ ("roots", JObj [ ("listChanged", JBool true) ]);
                         ("sampling", JObj []) ]);
                 ("clientInfo",
                  JObj [ ("name", JStr "supergateway");
                         ("version", JStr version) ]) ]) ].

(** createInitializedNotification, lines 436-439. *)
Definition createInitializedNotification : JSON :=
  JObj [ ("jsonrpc", JStr "2.0"); ("method", JStr "notifications/initialized") ].

(** What one POST closes over: the four variables of lines 550-553, and as
    ghost fields the messages written to the child's stdin, the messages
    passed to [transport.send], both oldest first, and whether the child
    was killed. *)
Record State : Type := mkState {
  isInitialized : bool;
  initializeRequestId : option JSON;
  isAutoInitializing : bool;
  pendingOriginalMessage : option JSON;
  stdin : list JSON;
  sent : list JSON;
  killed : bool
}.

Definition init : State := mkState false None false None [] [] false.

(** What a POST handler is built with: the binding's command, the
    protocol version of the arguments, and what [getVersion()] of lib/
    returns. *)
Record Config : Type := mkConfig {
  command : string;
  protocol : string;
  supergatewayVersion : string
}.

(** [`init_${Date.now()}_${Math.random().toString(36).substr(2, 9)}`];
    the two printed numbers come from the environment. *)
Definition auto_id (millis random : string) : string :=
  String.append "init_" (String.append millis (String.append "_" random)).

(** transport.onmessage, lines 624-665. *)
Definition onmessage (cfg : Config) (millis random : string) (msg : JSON)
    (st : State) : State :=
  if negb (isInitialized st) && negb (isInitializeRequest msg) then
    let id := JStr (auto_id millis random) in
    let initRequest := createInitializeRequest (supergatewayVersion cfg) id (protocol cfg) in
    mkState (isInitialized st) (Some id) true (Some msg)
      (stdin st ++ [initRequest]) (sent st) (killed st)
  else
    let st :=
      if isInitializeRequest msg && bool_decide (is_Some (prop "id" msg)) then
        mkState (isInitialized st) (prop "id" msg) false (pendingOriginalMessage st)
          (stdin st) (sent st) (killed st)
      else st in
    mkState (isInitialized st) (initializeRequestId st) (isAutoInitializing st)
      (pendingOriginalMessage st) (stdin st ++ [msg]) (sent st) (killed st).

(** [transport.send(jsonMsg)] at the end of the listener. *)
Definition send (jsonMsg : JSON) (st : State) : State :=
  mkState (isInitialized st) (initializeRequestId st) (isAutoInitializing st)
    (pendingOriginalMessage st) (stdin st) (sent st ++ [jsonMsg]) (killed st).

(** The stdout listener for one line that [JSON.parse] accepted, lines
    563-613.  Reading [.id] of [null] throws; the outer catch then logs
    the line and drops it. *)
Definition child_message (jsonMsg : JSON) (st : State) : State :=
  if truthy_json (initializeRequestId st) then
    match jsonMsg with
    | JNull => st
    | _ =>
        if strict_eq (prop "id" jsonMsg) (initializeRequestId st) then
          if isAutoInitializing st then
            let stdin1 := stdin st ++ [createInitializedNotification] in
            let stdin2 :=
              if truthy_json (pendingOriginalMessage st)
              then match pendingOriginalMessage st with
                   | Some m => stdin1 ++ [m]
                   | None => stdin1
                   end
              else stdin1 in
            let pending :=
              if truthy_json (pendingOriginalMessage st) then None
              else pendingOriginalMessage st in
            mkState true None false pending stdin2 (sent st) (killed st)
          else
            send jsonMsg
              (mkState true None (isAutoInitializing st) (pendingOriginalMessage st)
                 (stdin st) (sent st) (killed st))
        else send jsonMsg st
    end
  else send jsonMsg st.

(** transport.onclose and transport.onerror, lines 667-675; the child's
    'exit' listener closes the transport, which ends in onclose. *)
Definition onclose (st : State) : State :=
  mkState (isInitialized st) (initializeRequestId st) (isAutoInitializing st)
    (pendingOriginalMessage st) (stdin st) (sent st) true.

Definition onerror (st : State) : State :=
  mkState (isInitialized st) (initializeRequestId st) (isAutoInitializing st)
    (pendingOriginalMessage st) (stdin st) (sent st) true.

(** What happens during one POST. *)
Inductive Event : Type :=
| EvMessage (millis random : string) (msg : JSON)   (* transport.onmessage *)
| EvChildMessage (jsonMsg : JSON)                   (* a parsed stdout line *)
| EvChildExit
| EvClose
| EvError.

Definition step (cfg : Config) (st : State) (ev : Event) : State :=
  match ev with
  | EvMessage millis random msg => onmessage cfg millis random msg st
  | EvChildMessage jsonMsg => child_message jsonMsg st
  | EvChildExit => onclose st
  | EvClose => onclose st
  | EvError => onerror st
  end.

Definition run (cfg : Config) (evs : list Event) : State :=
  fold_left (step cfg) evs init.

(** A binding: the POSTs it has served, each with the transport and the
    child made for it (lines 532-541), newest last. *)
Record Binding : Type := mkBinding { posts : list (Config * State) }.

Inductive Method : Type := GET | POST | DELETE.

(** The three routes of a binding, lines 696-724.  A POST is answered by
    its own transport, hence no response here. *)
Definition handle (cfg : Config) (method : Method) (b : Binding)
    : option Response * Binding :=
  match method with
  | POST => (None, mkBinding (posts b ++ [(cfg, init)]))
  | GET =>
      (Some (mkResponse 405
         (BodyJson (JObj [ ("jsonrpc", JStr "2.0");
                           ("error", JObj [ ("code", JNum (-32000));
                                            ("message", JStr "Method not allowed.") ]);
                           ("id", JNull) ]))), b)
  | DELETE =>
      (Some (mkResponse 405
         (BodyJson (JObj [ ("jsonrpc", JStr "2.0");
                           ("error", JObj [ ("code", JNum (-32000));
                                            ("message", JStr "Method not allowed.") ]);
                           ("id", JNull) ]))), b)
  end.

(** A request other than initialize, and a child's answer to a request. *)
Definition request (id : Z) (method : string) : JSON :=
  JObj [ ("jsonrpc", JStr "2.0"); ("id", JNum id); ("method", JStr method) ].

Definition result_for (id : JSON) : JSON :=
  JObj [ ("jsonrpc", JStr "2.0"); ("id", id); ("result", JObj []) ].

(** A child message answers the tracked id. *)
Definition answers (id : JSON) (jsonMsg : JSON) : bool :=
  match jsonMsg with
  | JNull => false
  | _ => strict_eq (prop "id" jsonMsg) (Some id)
  end.

Definition not_null (v : JSON) : bool :=
  match v with
  | JNull => false
  | _ => true
  end.

(** Options shared by the single and the multi entry point. *)
Record Options : Type := mkOptions {
  port : Z;
  streamableHttpPath : string;
  corsOrigin : option (list string);
  healthEndpoints : list string;
  headers : list (string * string);
  protocolVersion : string
}.

Record StdioToStatelessStreamableHttpArgs : Type :=
  mkArgs { stdioCmd : string; rest : Options }.

Record MultiStdioToStatelessStreamableHttpArgs : Type :=
  mkMultiArgs { servers : list MultiStdioServerConfig; options : Options }.

(** One mounted binding: its endpoint, what its POST handler is built
    with, and the POSTs served so far. *)
Record Mounted : Type := mkMounted {
  fullPath : string;
  config : Config;
  served : Binding
}.

(** multiStdioToStatelessStreamableHttp, lines 467-739. *)
Definition multiStdioToStatelessStreamableHttp (version : string)
    (args : MultiStdioToStatelessStreamableHttpArgs) : Options * list Mounted :=
  (options args,
   map (fun server =>
          mkMounted (PathRouter.fullPath server (streamableHttpPath (options args)))
                    (mkConfig (Types.stdioCmd server) (protocolVersion (options args)) version)
                    (mkBinding []))
       (servers args)).

(** stdioToStatelessStreamableHttp, lines 447-465. *)
Definition stdioToStatelessStreamableHttp (version : string)
    (args : StdioToStatelessStreamableHttpArgs) : Options * list Mounted :=
  multiStdioToStatelessStreamableHttp version
    (mkMultiArgs [mkServer "/" (stdioCmd args)] (rest args)).

(** What answers a request of the stateless app. *)
Inductive Handler : Type :=
| Health                   (* res.send('ok'), lines 514-522 *)
| OfBinding (i : nat).     (* the route of the request's method at binding [i] *)

Definition method_eqb (a b : Method) : bool :=
  match a, b with
  | GET, GET | POST, POST | DELETE, DELETE => true
  | _, _ => false
  end.

(** The routes in the order multiStdioToStatelessStreamableHttp registers
    them: a GET route per health endpoint (lines 514-522), then POST, GET
    and DELETE for every server (lines 693-725). *)
Definition binding_routes (i : nat) (m : Mounted) : list (Method * string * Handler) :=
  [ (POST, fullPath m, OfBinding i);
    (GET, fullPath m, OfBinding i);
    (DELETE, fullPath m, OfBinding i) ].

Definition routes (healthEndpoints : list string) (bindings : list Mounted)
    : list (Method * string * Handler) :=
  map (fun ep => (GET, ep, Health)) healthEndpoints ++
  concat (imap binding_routes bindings).

(** Express hands a request to the first registered route of its method
    whose path matches; none of these handlers calls next. *)
Fixpoint dispatch (method : Method) (reqPath : string)
    (rs : list (Method * string * Handler)) : option Handler :=
  match rs with
  | [] => None
  | (m, p, h) :: rest =>
      if method_eqb method m && Express.matches p reqPath then Some h
      else dispatch method reqPath rest
  end.

(** How a request that reached the routes is answered. *)
Inductive Served : Type :=
| Answer (r : Response)
| ByTransport             (* a POST: its own transport answers *)
| NoRoute.                (* left to Express: 404 *)

(** One request to the app, after the middleware of lines 508-512 has let
    it through (express.json() refuses a request whose JSON body does not
    parse before any route is tried). *)
Definition serve (healthEndpoints : list string) (method : Method) (reqPath : string)
    (bindings : list Mounted) : Served * list Mounted :=
  match dispatch method reqPath (routes healthEndpoints bindings) with
  | Some Health => (Answer (mkResponse 200 (BodyText "ok")), bindings)
  | Some (OfBinding i) =>
      match bindings !! i with
      | Some m =>
          let '(r, b) := handle (config m) method (served m) in
          (match r with Some r => Answer r | None => ByTransport end,
           <[i := mkMounted (fullPath m) (config m) b]> bindings)
      | None => (NoRoute, bindings)
      end
  | None => (NoRoute, bindings)
  end.

End Stateless.

(* --------------------------------------------------------------------- *)
(* SSE adapter                                                           *)
(* --------------------------------------------------------------------- *)

Module Sse.

(** A [SessionInfo]: the SSE transport of one subscriber; [delivered] is
    ghost, the messages its [send] was given. *)
Record SessionInfo : Type := mkSession { delivered : list JSON }.

(** What the handlers of one binding close over: its session table and,
    as a ghost field, the messages written to the child's stdin. *)
Record Binding : Type := mkBinding {
  fullSsePath : string;
  fullMessagePath : string;
  command : string;
  sessions : gmap string SessionInfo;
  stdin : list JSON
}.

(** The bridge process: its bindings and, once [process.exit] was called,
    the exit code. *)
Record Process : Type := mkProcess {
  bindings : list Binding;
  exited : option Z
}.

(** [code ?? 1]. *)
Definition nullish_or_1 (code : option Z) : Z :=
  match code with
  | Some c => c
  | None => 1
  end.

(** The child's 'exit' listener, lines 156-161: [process.exit(code ?? 1)]. *)
Definition child_on_exit (code : option Z) (signal : option string) (p : Process) : Process :=
  mkProcess (bindings p) (Some (nullish_or_1 code)).

(** The GET handler from the point the transport has its session id,
    lines 189-192. *)
Definition get (sessionId : option string) (b : Binding) : Binding :=
  match sessionId with
  | Some id =>
      if truthy_str (Some id)
      then mkBinding (fullSsePath b) (fullMessagePath b) (command b)
             (<[id := mkSession []]> (sessions b)) (stdin b)
      else b
  | None => b
  end.

(** sseTransport.onmessage, lines 194-199. *)
Definition onmessage (msg : JSON) (b : Binding) : Binding :=
  mkBinding (fullSsePath b) (fullMessagePath b) (command b) (sessions b) (stdin b ++ [msg]).

(** sseTransport.onclose, sseTransport.onerror and the request's 'close'
    listener, lines 201-221: [delete sessions[sessionId]]. *)
Definition drop_session (sessionId : option string) (b : Binding) : Binding :=
  match sessionId with
  | Some id =>
      mkBinding (fullSsePath b) (fullMessagePath b) (command b)
        (delete id (sessions b)) (stdin b)
  | None => b
  end.

(** How the POST handler of the message endpoint ends. *)
Inductive PostOutcome : Type :=
| HandlePostMessage (id : string)    (* session.transport.handlePostMessage(req, res) *)
| Answered (r : Response).

(** The POST handler, lines 225-248; [sessionId] is [req.query.sessionId]. *)
Definition post (sessionId : option string) (b : Binding) : PostOutcome :=
  match sessionId with
  | Some id =>
      if truthy_str (Some id) then
        match sessions b !! id with
        | Some _ => HandlePostMessage id
        | None =>
            Answered (mkResponse 503
              (BodyText (String.append "No active SSE connection for session " id)))
        end
      else Answered (mkResponse 400 (BodyText "Missing sessionId parameter"))
  | None => Answered (mkResponse 400 (BodyText "Missing sessionId parameter"))
  end.

(** The stdout listener for one parsed line, lines 258-270: send to every
    session; a session whose [send] throws (those in [failing]) is
    deleted. *)
Definition child_message (jsonMsg : JSON) (failing : gset string) (b : Binding) : Binding :=
  mkBinding (fullSsePath b) (fullMessagePath b) (command b)
    (map_imap (fun id s =>
                 if bool_decide (id ∈ failing) then None
                 else Some (mkSession (delivered s ++ [jsonMsg])))
       (sessions b))
    (stdin b).

(** What can happen to the process; [i] is the index of the binding. *)
Inductive Event : Type :=
| EvGet (i : nat) (sessionId : option string)
| EvPost (i : nat) (sessionId : option string) (msg : JSON)
| EvSessionEnd (i : nat) (sessionId : option string)
| EvChildMessage (i : nat) (jsonMsg : JSON) (failing : gset string)
| EvChildExit (i : nat) (code : option Z) (signal : option string).

Definition on_binding (i : nat) (f : Binding -> Binding) (p : Process) : Process :=
  mkProcess (alter f i (bindings p)) (exited p).

(** A process that has exited handles nothing more. *)
Definition step (p : Process) (ev : Event) : Process :=
  match exited p with
  | Some _ => p
  | None =>
      match ev with
      | EvGet i sessionId => on_binding i (get sessionId) p
      | EvPost i sessionId msg =>
          on_binding i
            (fun b => match post sessionId b with
                      | HandlePostMessage _ => onmessage msg b
                      | Answered _ => b
                      end) p
      | EvSessionEnd i sessionId => on_binding i (drop_session sessionId) p
      | EvChildMessage i jsonMsg failing => on_binding i (child_message jsonMsg failing) p
      | EvChildExit i code signal =>
          match bindings p !! i with
          | Some _ => child_on_exit code signal p
          | None => p
          end
      end
  end.


(** Options shared by the single and the multi entry point. *)
Record Options : Type := mkOptions {
  port : Z;
  baseUrl : string;
  ssePath : string;
  messagePath : string;
  corsOrigin : option (list string);
  healthEndpoints : list string;
  headers : list (string * string)
}.

Record StdioToSseArgs : Type := mkArgs { stdioCmd : string; rest : Options }.

Record MultiStdioToSseArgs : Type :=
  mkMultiArgs { servers : list MultiStdioServerConfig; options : Options }.

(** multiStdioToSse, lines 71-303: one child, one session table and two
    routes per server. *)
Definition multiStdioToSse (args : MultiStdioToSseArgs) : Options * Process :=
  (options args,
   mkProcess
     (map (fun serverConfig =>
             mkBinding (PathRouter.fullPath serverConfig (ssePath (options args)))
                       (PathRouter.fullPath serverConfig (messagePath (options args)))
                       (Types.stdioCmd serverConfig) ∅ [])
          (servers args))
     None).

(** stdioToSse, lines 54-69. *)
Definition stdioToSse (args : StdioToSseArgs) : Options * Process :=
  multiStdioToSse (mkMultiArgs [mkServer "/" (stdioCmd args)] (rest args)).

End Sse.

(* --------------------------------------------------------------------- *)
(* WebSocket adapter                                                     *)
(* --------------------------------------------------------------------- *)

Module Ws.

(** One binding: its endpoint, its child (command, kill flag, stdin) and,
    as a ghost field, what was broadcast to its clients. *)
Record Binding : Type := mkBinding {
  fullMessagePath : string;
  command : string;
  killed : bool;
  stdin : list JSON;
  broadcast : list JSON
}.

Record App : Type := mkApp { bindings : list Binding; isReady : bool }.

(** wsTransport.onmessage, lines 190-194. *)
Definition onmessage (msg : JSON) (b : Binding) : Binding :=
  mkBinding (fullMessagePath b) (command b) (killed b) (stdin b ++ [msg]) (broadcast b).

(** [transport.send(jsonMsg, jsonMsg.id)] of the stdout listener, line
    163, on the transport it found.  Reading [.id] of [null] throws; the
    catch of line 166 then logs the line and nothing is sent. *)
Definition child_message (jsonMsg : JSON) (b : Binding) : Binding :=
  match jsonMsg with
  | JNull => b
  | _ =>
      mkBinding (fullMessagePath b) (command b) (killed b) (stdin b)
                (broadcast b ++ [jsonMsg])
  end.

(** The child's 'exit' listener only logs. *)
Definition child_on_exit (code : option Z) (signal : option string) (b : Binding) : Binding := b.

(** A health endpoint. *)
Definition health (app : App) : Response :=
  if existsb killed (bindings app)
  then mkResponse 500 (BodyText "Child process has been killed")
  else if negb (isReady app)
  then mkResponse 500 (BodyText "Server is not ready")
  else mkResponse 200 (BodyText "ok").

Record Options : Type := mkOptions {
  port : Z;
  messagePath : string;
  corsOrigin : option (list string);
  healthEndpoints : list string
}.

Record StdioToWsArgs : Type := mkArgs { stdioCmd : string; rest : Options }.

Record MultiStdioToWsArgs : Type :=
  mkMultiArgs { servers : list MultiStdioServerConfig; options : Options }.

(** multiStdioToWs up to [isReady = true]. *)
Definition multiStdioToWs (args : MultiStdioToWsArgs) : Options * App :=
  (options args,
   mkApp
     (map (fun serverConfig =>
             mkBinding (PathRouter.fullPath serverConfig (messagePath (options args)))
                       (Types.stdioCmd serverConfig) false [] [])
          (servers args))
     true).

(** stdioToWs, lines 37-55. *)
Definition stdioToWs (args : StdioToWsArgs) : Options * App :=
  multiStdioToWs (mkMultiArgs [mkServer "/" (stdioCmd args)] (rest args)).

End Ws.

(* --------------------------------------------------------------------- *)
(* index.ts: from the parsed command line to the gateway that is started *)
(* --------------------------------------------------------------------- *)

Module Cli.

(** What yargs hands to [main].  [corsOrigin] and [headers] stand for what
    lib/corsOrigin and lib/headers make of the --cors, --header and
    --oauth2Bearer options.  A number is kept as an integer. *)
Record Argv : Type := mkArgv {
  stdio : option (list string);
  sse : option string;
  streamableHttp : option string;
  multiServerConfig : option string;
  outputTransport : option string;
  port : Z;
  baseUrl : string;
  ssePath : string;
  messagePath : string;
  streamableHttpPath : string;
  corsOrigin : option (list string);
  healthEndpoint : list string;
  headers : list (string * string);
  stateful : bool;
  sessionTimeout : option Z;
  protocolVersion : string
}.

(** What reading and parsing the --multiServerConfig file gives. *)
Inductive ConfigFile : Type :=
| Unreadable
| NotJson
| Parsed (configJson : JSON).

(** How [main] ends: [process.exit(code)], or one gateway started. *)
Inductive Outcome : Type :=
| Exit (code : Z)
| StartedSse (app : Sse.Options * Sse.Process)
| StartedWs (app : Ws.Options * Ws.App)
| StartedStateful (app : Stateful.Options * list Stateful.Binding)
| StartedStateless (app : Stateless.Options * list Stateless.Mounted)
| StartedSseToStdio (url : string) (headers : list (string * string))
| StartedStreamableHttpToStdio (url : string) (headers : list (string * string)).

(** A string is its sequence of code units.  White space for [trim],
    among the units below 256. *)
Definition is_space (c : ascii) : bool :=
  let n := nat_of_ascii c in
  ((9 <=? n) && (n <=? 13))%nat || (n =? 32)%nat || (n =? 160)%nat.

Fixpoint trimStart (s : string) : string :=
  match s with
  | String c rest => if is_space c then trimStart rest else s
  | EmptyString => EmptyString
  end.

Definition trim (s : string) : string :=
  PathRouter.rev_string (trimStart (PathRouter.rev_string (trimStart s))).

(** [v.indexOf('=')], as the pair [(v.slice(0, i), v.slice(i + 1))];
    [None] is -1. *)
Fixpoint cut_at_equals (v : string) : option (string * string) :=
  match v with
  | EmptyString => None
  | String c rest =>
      if Ascii.eqb c "=" then Some (EmptyString, rest)
      else match cut_at_equals rest with
           | Some (name, cmd) => Some (String c name, cmd)
           | None => None
           end
  end.

(** [v.includes('=')]. *)
Definition includes_equals (v : string) : bool :=
  match cut_at_equals v with
  | Some _ => true
  | None => false
  end.

Definition with_leading_slash (p : string) : string :=
  if PathRouter.startsWith_slash p then p else String "/" p.

(** [typeof s.k === 'string' ? s.k : '']. *)
Definition string_field (k : string) (s : JSON) : string :=
  match prop k s with
  | Some (JStr v) => v
  | _ => ""
  end.

(** One entry of the config file, lines 219-243; [None] is
    [process.exit(1)]. *)
Definition config_server (s : JSON) : option MultiStdioServerConfig :=
  match s with
  | JObj _ | JArr _ =>
      let path := string_field "path" s in
      let stdioCmd := string_field "stdio" s in
      if String.eqb path "" || String.eqb stdioCmd "" then None
      else Some (mkServer (with_leading_slash path) stdioCmd)
  | _ => None
  end.

(** One --stdio value of the name=command form, lines 374-399. *)
Definition stdio_server (value : string) : option MultiStdioServerConfig :=
  match cut_at_equals value with
  | None => None
  | Some (before, after) =>
      let name := trim before in
      let cmd := trim after in
      if String.eqb name "" || String.eqb cmd "" then None
      else Some (mkServer (with_leading_slash name) cmd)
  end.

(** [xs.map(f)] where [f] may call [process.exit(1)]. *)
Fixpoint map_or_exit {A B : Type} (f : A -> option B) (xs : list A) : option (list B) :=
  match xs with
  | [] => Some []
  | x :: rest =>
      match f x with
      | None => None
      | Some y =>
          match map_or_exit f rest with
          | None => None
          | Some ys => Some (y :: ys)
          end
      end
  end.

Definition is_transport (argv : Argv) (name : string) : bool :=
  match outputTransport argv with
  | Some t => String.eqb t name
  | None => false
  end.

(** The multi-server dispatch, written twice in the source (lines 253-365
    for the config file, lines 401-512 for name=command) with different
    log texts only.  The session timeout goes through as it is. *)
Definition start_multi (version : string) (argv : Argv)
    (servers : list MultiStdioServerConfig) : Outcome :=
  if is_transport argv "streamableHttp" then
    if stateful argv then
      StartedStateful
        (Stateful.multiStdioToStatefulStreamableHttp
           (Stateful.mkMultiArgs servers
              (Stateful.mkOptions (port argv) (streamableHttpPath argv) (corsOrigin argv)
                 (healthEndpoint argv) (headers argv) (sessionTimeout argv))))
    else
      StartedStateless
        (Stateless.multiStdioToStatelessStreamableHttp version
           (Stateless.mkMultiArgs servers
              (Stateless.mkOptions (port argv) (streamableHttpPath argv) (corsOrigin argv)
                 (healthEndpoint argv) (headers argv) (protocolVersion argv))))
  else if is_transport argv "sse" then
    if stateful argv then Exit 1
    else
      StartedSse
        (Sse.multiStdioToSse
           (Sse.mkMultiArgs servers
              (Sse.mkOptions (port argv) (baseUrl argv) (ssePath argv) (messagePath argv)
                 (corsOrigin argv) (healthEndpoint argv) (headers argv))))
  else if is_transport argv "ws" then
    if stateful argv then Exit 1
    else
      StartedWs
        (Ws.multiStdioToWs
           (Ws.mkMultiArgs servers
              (Ws.mkOptions (port argv) (messagePath argv) (corsOrigin argv)
                 (healthEndpoint argv))))
  else Exit 1.

(** The single --stdio dispatch, lines 513-635. *)
Definition start_single (version : string) (argv : Argv) (stdioArg : string) : Outcome :=
  if is_transport argv "sse" then
    StartedSse
      (Sse.stdioToSse
         (Sse.mkArgs stdioArg
            (Sse.mkOptions (port argv) (baseUrl argv) (ssePath argv) (messagePath argv)
               (corsOrigin argv) (healthEndpoint argv) (headers argv))))
  else if is_transport argv "ws" then
    StartedWs
      (Ws.stdioToWs
         (Ws.mkArgs stdioArg
            (Ws.mkOptions (port argv) (messagePath argv) (corsOrigin argv)
               (healthEndpoint argv))))
  else if is_transport argv "streamableHttp" then
    if stateful argv then
      match sessionTimeout argv with
      | Some t =>
          if (t <=? 0)%Z then Exit 1
          else
            StartedStateful
              (Stateful.stdioToStatefulStreamableHttp
                 (Stateful.mkArgs stdioArg
                    (Stateful.mkOptions (port argv) (streamableHttpPath argv)
                       (corsOrigin argv) (healthEndpoint argv) (headers argv) (Some t))))
      | None =>
          StartedStateful
            (Stateful.stdioToStatefulStreamableHttp
               (Stateful.mkArgs stdioArg
                  (Stateful.mkOptions (port argv) (streamableHttpPath argv)
                     (corsOrigin argv) (healthEndpoint argv) (headers argv) None)))
      end
    else
      StartedStateless
        (Stateless.stdioToStatelessStreamableHttp version
           (Stateless.mkArgs stdioArg
              (Stateless.mkOptions (port argv) (streamableHttpPath argv) (corsOrigin argv)
                 (healthEndpoint argv) (headers argv) (protocolVersion argv))))
  else Exit 1.

(** main, lines 148-673.  [file] is what the config file yields if it is
    read; [version] is what [getVersion()] returns. *)
Definition main (version : string) (file : ConfigFile) (argv : Argv) : Outcome :=
  let hasStdio := bool_decide (is_Some (stdio argv)) in
  let hasSse := truthy_str (sse argv) in
  let hasStreamableHttp := truthy_str (streamableHttp argv) in
  let hasMultiServerConfig := truthy_str (multiServerConfig argv) in
  let activeCount :=
    length (List.filter (fun b : bool => b)
              [hasStdio; hasSse; hasStreamableHttp; hasMultiServerConfig]) in
  let stdioValues := default [] (stdio argv) in
  let isStdioMapCli :=
    negb (length stdioValues =? 0)%nat && forallb includes_equals stdioValues in
  if (activeCount =? 0)%nat then Exit 1
  else if (1 <? activeCount)%nat then Exit 1
  else if hasMultiServerConfig then
    if hasStdio || hasSse || hasStreamableHttp then Exit 1
    else
      match file with
      | Unreadable => Exit 1
      | NotJson => Exit 1
      | Parsed configJson =>
          match prop "servers" configJson with
          | Some (JArr entries) =>
              match map_or_exit config_server entries with
              | None => Exit 1
              | Some [] => Exit 1
              | Some servers => start_multi version argv servers
              end
          | _ => Exit 1
          end
      end
  else if isStdioMapCli then
    if hasSse || hasStreamableHttp then Exit 1
    else
      match map_or_exit stdio_server stdioValues with
      | None => Exit 1
      | Some servers => start_multi version argv servers
      end
  else if hasStdio then
    match stdioValues with
    | stdioArg :: _ =>
        if String.eqb stdioArg "" then Exit 1
        else start_single version argv stdioArg
    | [] => Exit 1
    end
  else if hasSse then
    if is_transport argv "stdio"
    then StartedSseToStdio (default "" (sse argv)) (headers argv)
    else Exit 1
  else if hasStreamableHttp then
    if is_transport argv "stdio"
    then StartedStreamableHttpToStdio (default "" (streamableHttp argv)) (headers argv)
    else Exit 1
  else Exit 1.

(** An invocation selects the stateful Streamable-HTTP adapter. *)
Definition selects_stateful (argv : Argv) : bool :=
  is_transport argv "streamableHttp" && stateful argv.

(** The command line [node index.js <inputs> --outputTransport
    streamableHttp --stateful --sessionTimeout <t>] with every other
    option at its default. *)
Definition stateful_argv (stdio : option (list string)) (multiServerConfig : option string)
    (t : Z) : Argv :=
  mkArgv stdio None None multiServerConfig (Some "streamableHttp")
    8000 "" "/sse" "/message" "/mcp" None [] [] true (Some t) "2024-11-05".

End Cli.

(* --------------------------------------------------------------------- *)
(* Observations on a stateful binding                                    *)
(* --------------------------------------------------------------------- *)

Module StatefulObs.

Import Stateful.

(** What was written to the stdin of the child of object [ref], and what
    its transport was given to send. *)
Definition stdin_of (ref : nat) (st : State) : option (list JSON) :=
  (fun c => stdin (child c)) <$> heap st !! ref.

Definition sent_of (ref : nat) (st : State) : option (list JSON) :=
  (fun c => sent (transport c)) <$> heap st !! ref.

(** The messages a trace delivers to [transport.onmessage] of [ref], and
    the parsed lines it delivers from the child of [ref]. *)
Fixpoint messages_to (ref : nat) (evs : list Event) : list JSON :=
  match evs with
  | [] => []
  | EvMessage r msg :: rest =>
      if Nat.eqb r ref then msg :: messages_to ref rest else messages_to ref rest
  | _ :: rest => messages_to ref rest
  end.

Fixpoint child_messages_of (ref : nat) (evs : list Event) : list JSON :=
  match evs with
  | [] => []
  | EvChildMessage r jsonMsg :: rest =>
      if Nat.eqb r ref then jsonMsg :: child_messages_of ref rest
      else child_messages_of ref rest
  | _ :: rest => child_messages_of ref rest
  end.

(** Object [ref] is still there and its two message logs are untouched. *)
Definition keeps_io (ref : nat) (st st' : State) : Prop :=
  forall c, heap st !! ref = Some c ->
    exists c', heap st' !! ref = Some c' /\
               stdin (child c') = stdin (child c) /\
               sent (transport c') = sent (transport c).

End StatefulObs.

(* --------------------------------------------------------------------- *)
(* Observations on a stateless POST                                      *)
(* --------------------------------------------------------------------- *)

Module StatelessObs.

Import Stateless.

(** The client messages and the child messages of a trace, in order. *)
Fixpoint client_messages (evs : list Event) : list JSON :=
  match evs with
  | [] => []
  | EvMessage _ _ msg :: rest => msg :: client_messages rest
  | _ :: rest => client_messages rest
  end.

Fixpoint child_messages (evs : list Event) : list JSON :=
  match evs with
  | [] => []
  | EvChildMessage jsonMsg :: rest => jsonMsg :: child_messages rest
  | _ :: rest => child_messages rest
  end.

(** No client message of the trace is an initialize request. *)
Definition no_initialize (evs : list Event) : Prop :=
  Forall (fun ev => match ev with
                    | EvMessage _ _ msg => isInitializeRequest msg = false
                    | _ => True
                    end) evs.

(** Where a line written to the child's stdin can come from: the client,
    the interposer's initialize request for some client message, or the
    initialized notification; and where a forwarded message comes from. *)
Definition from_client (evs : list Event) (x : JSON) : Prop :=
  exists millis random, In (EvMessage millis random x) evs.

Definition generated_for (cfg : Config) (evs : list Event) (x : JSON) : Prop :=
  exists millis random msg,
    In (EvMessage millis random msg) evs /\
    x = createInitializeRequest (supergatewayVersion cfg)
          (JStr (auto_id millis random)) (protocol cfg).

Definition written_ok (cfg : Config) (evs : list Event) (x : JSON) : Prop :=
  from_client evs x \/ generated_for cfg evs x \/ x = createInitializedNotification.

Definition from_child (evs : list Event) (y : JSON) : Prop :=
  In (EvChildMessage y) evs.

End StatelessObs.

(* --------------------------------------------------------------------- *)
(* SSE: a run of child messages at one binding                           *)
(* --------------------------------------------------------------------- *)

Module SseObs.

Import Sse.

(** A run of child messages at one binding, each with the sessions whose
    [send] throws for it. *)
Definition child_messages (out : list (JSON * gset string)) (b : Binding) : Binding :=
  fold_left (fun b e => child_message (fst e) (snd e) b) out b.

End SseObs.

(* --------------------------------------------------------------------- *)
(* WebSocket: where a child's message is broadcast, and cleanup          *)
(* --------------------------------------------------------------------- *)

Module WsObs.

Import Ws.



(** cleanup, lines 85-98: every child is killed. *)
Definition cleanup (app : App) : App :=
  mkApp (map (fun b => mkBinding (fullMessagePath b) (command b) true (stdin b) (broadcast b))
             (bindings app))
        (isReady app).

End WsObs.


(* --------------------------------------------------------------------- *)
(* index.ts: what an invocation asks for and what a started gateway has  *)
(* --------------------------------------------------------------------- *)

Module CliObs.

Import Cli.

(** [activeCount] of lines 153-158. *)
Definition active_inputs (argv : Argv) : nat :=
  length (List.filter (fun b : bool => b)
            [ bool_decide (is_Some (stdio argv)); truthy_str (sse argv);
              truthy_str (streamableHttp argv); truthy_str (multiServerConfig argv) ]).

(** The output transport of the gateway that was started. *)
Definition transport_of (o : Outcome) : option string :=
  match o with
  | Exit _ => None
  | StartedSse _ => Some "sse"
  | StartedWs _ => Some "ws"
  | StartedStateful _ | StartedStateless _ => Some "streamableHttp"
  | StartedSseToStdio _ _ | StartedStreamableHttpToStdio _ _ => Some "stdio"
  end.

(** The endpoints a started gateway registers for its children, each with
    the command of the child behind it, in the order of registration. *)
Definition mounted (o : Outcome) : list (string * string) :=
  match o with
  | StartedSse (_, p) =>
      flat_map (fun b => [ (Sse.fullSsePath b, Sse.command b);
                           (Sse.fullMessagePath b, Sse.command b) ])
               (Sse.bindings p)
  | StartedWs (_, app) =>
      map (fun b => (Ws.fullMessagePath b, Ws.command b)) (Ws.bindings app)
  | StartedStateful (_, bindings) =>
      map (fun b => (Stateful.fullPath b, Stateful.bindingCmd b)) bindings
  | StartedStateless (_, bindings) =>
      map (fun m => (Stateless.fullPath m, Stateless.command (Stateless.config m))) bindings
  | _ => []
  end.

(** A list of servers as the gateways expect it from [main]. *)
Definition well_formed (servers : list MultiStdioServerConfig) : Prop :=
  servers <> [] /\
  Forall (fun s => PathRouter.startsWith_slash (Types.path s) = true /\
                   Types.stdioCmd s <> EmptyString) servers.

(** What [main] guarantees of an endpoint and the command behind it. *)
Definition endpoint_ok (e : string * string) : Prop :=
  PathRouter.startsWith_slash (fst e) = true /\ snd e <> EmptyString.

(** [v.includes('=')] on the characters of [v]. *)
Fixpoint has_equals (v : string) : bool :=
  match v with
  | EmptyString => false
  | String c rest => Ascii.eqb c "=" || has_equals rest
  end.

End CliObs.
(* ===================================================================== *)
(* Proofs                                                                *)
(* ===================================================================== *)

Section PathRouterFacts.

Import PathRouter.
Local Open Scope string_scope.

Lemma replace_trailing_slash_cons2 (c d : ascii) (r : string) :
  replace_trailing_slash (String c (String d r)) =
  String c (replace_trailing_slash (String d r)).
Proof. reflexivity. Qed.

Lemma append_snoc_nonempty (s : string) (c : ascii) :
  exists d r, String.append s (String c "") = String d r.
Proof. destruct s as [|d s]; [exists c, ""|exists d, (String.append s (String c ""))]; reflexivity. Qed.

Lemma replace_trailing_slash_snoc_slash (s : string) :
  replace_trailing_slash (String.append s "/") = s.
Proof.
  induction s as [|c s IH]; [reflexivity|].
  change (replace_trailing_slash (String c (String.append s "/")) = String c s).
  destruct (append_snoc_nonempty s "/") as (d & r & E).
  rewrite E in *. rewrite replace_trailing_slash_cons2, IH. reflexivity.
Qed.

Lemma replace_trailing_slash_snoc_other (s : string) (c : ascii) :
  Ascii.eqb c "/" = false ->
  replace_trailing_slash (String.append s (String c "")) = String.append s (String c "").
Proof.
  intros Hc. induction s as [|d s IH].
  - change (replace_trailing_slash (String c "") = String c "").
    cbn [replace_trailing_slash]. rewrite Hc. reflexivity.
  - change (replace_trailing_slash (String d (String.append s (String c ""))) =
            String d (String.append s (String c ""))).
    destruct (append_snoc_nonempty s c) as (e & r & E).
    rewrite E in *. rewrite replace_trailing_slash_cons2, IH. reflexivity.
Qed.

Lemma string_of_list_ascii_snoc (l : list ascii) (c : ascii) :
  string_of_list_ascii (l ++ [c]) = String.append (string_of_list_ascii l) (String c "").
Proof. induction l as [|d l IH]; cbn; [reflexivity|]. rewrite IH. reflexivity. Qed.

Lemma rev_string_cons_inv (s r : string) (c : ascii) :
  rev_string s = String c r -> s = String.append (rev_string r) (String c "").
Proof.
  unfold rev_string. intros H.
  apply (f_equal list_ascii_of_string) in H.
  rewrite list_ascii_of_string_of_list_ascii in H. cbn in H.
  apply (f_equal (@List.rev ascii)) in H. rewrite List.rev_involutive in H. cbn in H.
  rewrite <- string_of_list_ascii_snoc, <- H.
  symmetry. apply string_of_list_ascii_of_string.
Qed.

Lemma rev_string_empty_inv (s : string) : rev_string s = "" -> s = "".
Proof.
  unfold rev_string. intros H.
  apply (f_equal list_ascii_of_string) in H.
  rewrite list_ascii_of_string_of_list_ascii in H. cbn in H.
  destruct s as [|c s]; [reflexivity|]. cbn in H.
  destruct (List.rev (list_ascii_of_string s)); discriminate.
Qed.

(** The regular-expression replace of the source and the reversal-based
    normalisation of the specification strip the same slash. *)
Lemma normalize_agrees (p : string) :
  (if String.eqb p "/" then "" else replace_trailing_slash p) = spec_normalize p.
Proof.
  unfold spec_normalize. destruct (String.eqb p "/"); [reflexivity|].
  destruct (rev_string p) as [|c r] eqn:E.
  - apply rev_string_empty_inv in E. subst. reflexivity.
  - apply rev_string_cons_inv in E. subst p.
    destruct (Ascii.eqb c "/") eqn:Hc.
    + apply Ascii.eqb_eq in Hc. subst c. apply replace_trailing_slash_snoc_slash.
    + apply replace_trailing_slash_snoc_other. exact Hc.
Qed.

Lemma ensureLeading_agrees (s : string) :
  (if startsWith_slash s then s else String "/" s) = spec_ensureLeading s.
Proof.
  destruct s as [|c s]; [reflexivity|].
  unfold spec_ensureLeading, startsWith_slash.
  change (String.prefix "/" (String c s))
    with (if ascii_dec "/" c then String.prefix "" s else false).
  destruct (ascii_dec "/" c) as [<-|Hne].
  - rewrite Ascii.eqb_refl. destruct s; reflexivity.
  - destruct (Ascii.eqb c "/") eqn:Hc; [|reflexivity].
    apply Ascii.eqb_eq in Hc. congruence.
Qed.

Lemma or_root_match (r : string) :
  or_root r = match r with EmptyString => "/" | _ => r end.
Proof. destruct r; reflexivity. Qed.

(** The suffix always contributes a leading slash, so the fallback of
    [joinPath] never fires. *)
Lemma joinPath_starts_with_slash (base suffix : string) :
  exists rest, joinPath base suffix = String.append (spec_normalize base) (String "/" rest).
Proof.
  unfold joinPath. rewrite normalize_agrees.
  exists (if startsWith_slash suffix then match suffix with String _ r => r | _ => "" end else suffix).
  assert (E : (if startsWith_slash suffix then suffix else String "/" suffix) =
              String "/" (if startsWith_slash suffix then match suffix with String _ r => r | _ => "" end else suffix)).
  { destruct suffix as [|c s]; [reflexivity|]. cbn.
    destruct (Ascii.eqb c "/") eqn:Hc; [|reflexivity].
    apply Ascii.eqb_eq in Hc. subst. reflexivity. }
  rewrite E. rewrite or_root_match.
  destruct (spec_normalize base); reflexivity.
Qed.

(** C5 - Path composition.  For every prefix P and suffix S, joinPath P S
    is normalize(P) followed by ensureLeading(S), where normalize maps "/"
    to the empty string and otherwise strips exactly one trailing slash,
    ensureLeading prepends a slash when S lacks one, and an empty result
    is replaced by "/".  The same holds for the endpoint a binding is
    mounted at, where an empty prefix is first read as "/". *)
Theorem C5_joinPath_composition (P S : string) :
  joinPath P S = spec_fullPath P S /\
  fullPath (mkServer P "cmd") S = spec_fullPath P S.
Proof.
  assert (J : forall p, joinPath p S = spec_fullPath p S).
  { intros p. unfold joinPath, spec_fullPath.
    rewrite normalize_agrees, ensureLeading_agrees. apply or_root_match. }
  split; [apply J|].
  unfold fullPath. cbn [Types.path]. rewrite J.
  unfold or_root. destruct (String.eqb P "") eqn:E; [|reflexivity].
  apply String.eqb_eq in E. subst P. reflexivity.
Qed.

End PathRouterFacts.

Section LineFramerFacts.

Import LineFramer.

Lemma split_lines_nonempty (s : list Z) : split_lines s <> [].
Proof.
  destruct s as [|c rest]; cbn [split_lines]; [discriminate|].
  destruct (c =? LF); [discriminate|].
  destruct rest as [|d rest'].
  - cbn. discriminate.
  - destruct ((c =? CR) && (d =? LF)); [discriminate|].
    unfold push_front. destruct (split_lines (d :: rest')); discriminate.
Qed.

Lemma split_lines_cons2 (x y : Z) (l : list Z) :
  split_lines (x :: y :: l) =
  if x =? LF then [] :: split_lines (y :: l)
  else if (x =? CR) && (y =? LF) then [] :: split_lines l
  else push_front x (split_lines (y :: l)).
Proof. reflexivity. Qed.

Lemma list_two_step_ind {A : Type} (P : list A -> Prop) :
  P [] -> (forall x, P [x]) ->
  (forall x y l, P l -> P (y :: l) -> P (x :: y :: l)) ->
  forall l, P l.
Proof.
  intros H0 H1 H2 l.
  enough (H : P l /\ forall x, P (x :: l)) by apply H.
  induction l as [|y l [IHa IHb]]; split; auto.
Qed.

Lemma removelast_push_front (c : Z) (frags : list (list Z)) :
  frags <> [] ->
  removelast (push_front c frags) =
  match removelast frags with
  | [] => []
  | fs => push_front c fs
  end.
Proof.
  destruct frags as [|f [|g rest]]; [congruence| reflexivity |]. intros _.
  cbn. reflexivity.
Qed.

Lemma last_push_front (c : Z) (frags : list (list Z)) :
  frags <> [] ->
  List.last (push_front c frags) [] =
  match removelast frags with
  | [] => c :: List.last frags []
  | _ => List.last frags []
  end.
Proof.
  destruct frags as [|f [|g rest]]; [congruence| reflexivity |]. intros _.
  cbn. reflexivity.
Qed.

(** A string without a line feed is a single fragment. *)
Lemma split_lines_no_LF (s : list Z) :
  Forall (fun c => c <> LF) s -> split_lines s = [s].
Proof.
  induction s as [|x|x y l IHl IHyl] using list_two_step_ind; intros H.
  - reflexivity.
  - inversion H as [|? ? Hx _]; subst. cbn.
    destruct (x =? LF) eqn:E; [apply Z.eqb_eq in E; contradiction|reflexivity].
  - inversion H as [|? ? Hx H']; subst. inversion H' as [|? ? Hy _]; subst.
    rewrite split_lines_cons2.
    destruct (x =? LF) eqn:E; [apply Z.eqb_eq in E; contradiction|].
    destruct (y =? LF) eqn:E'; [apply Z.eqb_eq in E'; contradiction|].
    rewrite andb_false_r, (IHyl H'). reflexivity.
Qed.

Lemma split_lines_single (s f : list Z) :
  split_lines s = [f] -> f = s /\ Forall (fun c => c <> LF) s.
Proof.
  revert f.
  induction s as [|x|x y l IHl IHyl] using list_two_step_ind; intros f H.
  - cbn in H. inversion H. split; constructor.
  - cbn in H. destruct (x =? LF) eqn:E; [discriminate|].
    inversion H. split; [reflexivity|]. constructor; [|constructor].
    intros ->. discriminate.
  - rewrite split_lines_cons2 in H.
    destruct (x =? LF) eqn:E.
    { pose proof (split_lines_nonempty (y :: l)).
      destruct (split_lines (y :: l)); [contradiction|discriminate]. }
    destruct ((x =? CR) && (y =? LF)) eqn:E'.
    { pose proof (split_lines_nonempty l).
      destruct (split_lines l); [contradiction|discriminate]. }
    pose proof (split_lines_nonempty (y :: l)) as NE.
    destruct (split_lines (y :: l)) as [|g [|g' more]] eqn:S;
      [contradiction| |discriminate H].
    destruct (IHyl g eq_refl) as [Hg Hall]. subst g.
    inversion H; subst f.
    split; [reflexivity|]. constructor; [|exact Hall].
    intros ->. discriminate.
Qed.

(** Unfolding away from a separator. *)
Lemma split_lines_cons_plain (x : Z) (s : list Z) :
  x <> LF -> (x = CR -> match s with d :: _ => d <> LF | [] => True end) ->
  split_lines (x :: s) = push_front x (split_lines s).
Proof.
  intros Hx Hcr. cbn [split_lines].
  destruct (x =? LF) eqn:E; [apply Z.eqb_eq in E; contradiction|].
  destruct s as [|d s']; [reflexivity|].
  destruct ((x =? CR) && (d =? LF)) eqn:E'; [|reflexivity].
  apply andb_true_iff in E' as [E1 E2].
  apply Z.eqb_eq in E1, E2. specialize (Hcr E1). contradiction.
Qed.

(** Splitting an append: the complete fragments of the first part stand,
    and only its last fragment is joined to what follows. *)
Lemma split_lines_app (a b : list Z) :
  split_lines (a ++ b) =
  removelast (split_lines a) ++ split_lines (List.last (split_lines a) [] ++ b).
Proof.
  induction a as [|x|x y l IHl IHyl] using list_two_step_ind.
  - reflexivity.
  - cbn [split_lines]. destruct (x =? LF) eqn:E.
    + cbn. rewrite E. reflexivity.
    + reflexivity.
  - change ((x :: y :: l) ++ b) with (x :: y :: (l ++ b)).
    rewrite !split_lines_cons2.
    change (y :: (l ++ b)) with ((y :: l) ++ b).
    destruct (x =? LF) eqn:E.
    { rewrite IHyl.
      pose proof (split_lines_nonempty (y :: l)) as NE.
      destruct (split_lines (y :: l)) as [|g more]; [contradiction|]. reflexivity. }
    destruct ((x =? CR) && (y =? LF)) eqn:E'.
    { rewrite IHl.
      pose proof (split_lines_nonempty l) as NE.
      destruct (split_lines l) as [|g more]; [contradiction|]. reflexivity. }
    rewrite IHyl.
    pose proof (split_lines_nonempty (y :: l)) as NE.
    rewrite removelast_push_front, last_push_front by exact NE.
    destruct (split_lines (y :: l)) as [|g [|g' more]] eqn:S; [contradiction| |].
    + cbn [removelast List.last app].
      destruct (split_lines_single _ _ S) as [-> _].
      symmetry. apply (split_lines_cons_plain x ((y :: l) ++ b)).
      * intros ->. discriminate.
      * intros ->. cbn. intros ->. discriminate.
    + reflexivity.
Qed.

(** The buffer kept between two events never holds a line feed. *)
Lemma last_split_lines_no_LF (s : list Z) :
  Forall (fun c => c <> LF) (List.last (split_lines s) []).
Proof.
  induction s as [|x|x y l IHl IHyl] using list_two_step_ind.
  - constructor.
  - cbn. destruct (x =? LF) eqn:E; cbn; [constructor|].
    constructor; [|constructor]. intros ->. discriminate.
  - rewrite split_lines_cons2.
    pose proof (split_lines_nonempty (y :: l)) as NE.
    pose proof (split_lines_nonempty l) as NE'.
    destruct (x =? LF) eqn:E.
    { destruct (split_lines (y :: l)); [contradiction|exact IHyl]. }
    destruct ((x =? CR) && (y =? LF)) eqn:E'.
    { destruct (split_lines l); [contradiction|exact IHl]. }
    rewrite last_push_front by exact NE.
    destruct (split_lines (y :: l)) as [|g [|g' more]]; [contradiction| |exact IHyl].
    cbn in *. constructor; [|exact IHyl]. intros ->. discriminate.
Qed.

Lemma last_app_nonempty {A : Type} (l1 l2 : list A) (d : A) :
  l2 <> [] -> List.last (l1 ++ l2) d = List.last l2 d.
Proof.
  intros NE. induction l1 as [|x l1 IH]; [reflexivity|].
  cbn [app List.last]. destruct (l1 ++ l2) eqn:E; [|exact IH].
  apply app_eq_nil in E as [_ ->]. contradiction.
Qed.

(** Chunking is invisible to the framer once the chunks are decoded: the
    lines it hands on are the complete fragments of the whole text, and
    its buffer is the unfinished last fragment. *)
Lemma run_whole (chunks : list (list Z)) (buffer : list Z) :
  Forall (fun c => c <> LF) buffer ->
  let text := buffer ++ concat (map toString_utf8 chunks) in
  run buffer chunks =
  (List.last (split_lines text) [],
   List.filter (fun line => negb (blank line)) (removelast (split_lines text))).
Proof.
  revert buffer. induction chunks as [|chunk more IH]; intros buffer Hb; cbn zeta.
  - cbn [map concat run]. rewrite app_nil_r, (split_lines_no_LF _ Hb). reflexivity.
  - cbn [map concat run]. unfold on_data.
    rewrite (IH _ (last_split_lines_no_LF _)). cbn zeta.
    rewrite (app_assoc buffer), (split_lines_app (buffer ++ toString_utf8 chunk)).
    set (done := removelast (split_lines (buffer ++ toString_utf8 chunk))).
    set (rest := split_lines _).
    assert (NE : rest <> []) by apply split_lines_nonempty.
    rewrite (last_app_nonempty _ _ _ NE), (List.removelast_app _ NE), List.filter_app.
    reflexivity.
Qed.

(** Bytes below 0x80 decode to themselves, wherever the chunk ends. *)
Lemma toString_utf8_ascii (chunk : list Z) :
  Forall (fun b => 0 <= b <= 127) chunk -> toString_utf8 chunk = chunk.
Proof.
  unfold toString_utf8. induction chunk as [|b rest IH]; intros H; [reflexivity|].
  inversion H as [|? ? Hb Hrest]; subst. cbn [utf8_decode]. unfold lead.
  replace ((0 <=? b) && (b <=? 127)) with true
    by (symmetry; apply andb_true_iff; split; apply Z.leb_le; lia).
  rewrite (IH Hrest). reflexivity.
Qed.

Section RoundTrip.

Context {Msg : Type}.
Variable serialize : Msg -> list Z.
Variable JSON_parse : list Z -> option Msg.

(** What the round trip needs of the JSON codec: parsing inverts
    serialising, and a serialised message is one non-blank line (as
    [JSON.stringify] without indentation prints it). *)
Hypothesis parse_serialize : forall m, JSON_parse (serialize m) = Some m.
Hypothesis serialize_one_line :
  forall m, Forall (fun c => c <> LF /\ c <> CR) (serialize m).
Hypothesis serialize_not_blank : forall m, blank (serialize m) = false.

Lemma split_lines_message (t : list Z) (s : Sep) (rest : list Z) :
  Forall (fun c => c <> LF /\ c <> CR) t ->
  split_lines (t ++ sep_text s ++ rest) = t :: split_lines rest.
Proof.
  induction t as [|c t IH]; intros H.
  - destruct s; [reflexivity|]. cbn [app sep_text]. apply split_lines_cons2.
  - inversion H as [|? ? [Hlf Hcr] Ht]; subst.
    cbn [app]. rewrite split_lines_cons_plain; [|exact Hlf|intros E; contradiction].
    rewrite (IH Ht). reflexivity.
Qed.

Lemma split_lines_stream (out : list (Msg * Sep)) (rest : list Z) :
  split_lines (stream serialize out ++ rest) =
  map (fun e => serialize (fst e)) out ++ split_lines rest.
Proof.
  induction out as [|[m s] out IH]; [reflexivity|].
  unfold stream in *. cbn [map concat].
  rewrite <- !app_assoc, split_lines_message by apply serialize_one_line.
  rewrite IH. reflexivity.
Qed.

Lemma filter_serialized (out : list (Msg * Sep)) :
  List.filter (fun line => negb (blank line)) (map (fun e => serialize (fst e)) out) =
  map (fun e => serialize (fst e)) out.
Proof.
  induction out as [|[m s] out IH]; [reflexivity|].
  cbn. rewrite serialize_not_blank. cbn. rewrite IH. reflexivity.
Qed.

Lemma parsed_serialized (out : list (Msg * Sep)) :
  parsed JSON_parse (map (fun e => serialize (fst e)) out) = map fst out.
Proof.
  induction out as [|[m s] out IH]; [reflexivity|].
  cbn. rewrite parse_serialize, IH. reflexivity.
Qed.

(** Round trip on decoded text: whenever the chunks decode, one by one,
    to the text of messages [m_i] each followed by a line end, plus an
    unterminated fragment, the framer hands on exactly the [m_i] in
    order and keeps the fragment in its buffer. *)
Lemma framer_round_trip_text
    (out : list (Msg * Sep)) (fragment : list Z) (chunks : list (list Z)) :
  Forall (fun c => c <> LF) fragment ->
  concat (map toString_utf8 chunks) = stream serialize out ++ fragment ->
  fst (run [] chunks) = fragment /\
  parsed JSON_parse (snd (run [] chunks)) = map fst out.
Proof.
  intros Hfrag Htext.
  rewrite (run_whole chunks []) by constructor. cbn zeta. cbn [app fst snd].
  rewrite Htext, split_lines_stream, (split_lines_no_LF _ Hfrag).
  rewrite last_app_nonempty by discriminate.
  rewrite List.removelast_app by discriminate. cbn [removelast List.last].
  rewrite app_nil_r, filter_serialized, parsed_serialized. auto.
Qed.

(** The same for raw bytes, as long as every byte is ASCII: then any
    chunking of the byte stream will do. *)
Lemma framer_round_trip_ascii
    (out : list (Msg * Sep)) (fragment : list Z) (chunks : list (list Z)) :
  Forall (Forall (fun b => 0 <= b <= 127)) chunks ->
  Forall (fun c => c <> LF) fragment ->
  concat chunks = stream serialize out ++ fragment ->
  fst (run [] chunks) = fragment /\
  parsed JSON_parse (snd (run [] chunks)) = map fst out.
Proof.
  intros Hascii Hfrag Hbytes.
  apply framer_round_trip_text; [exact Hfrag|].
  rewrite <- Hbytes. clear Hbytes.
  induction Hascii as [|chunk more Hc _ IH]; [reflexivity|].
  cbn [map concat]. rewrite (toString_utf8_ascii _ Hc), IH. reflexivity.
Qed.

End RoundTrip.

(** The hypotheses of the round trip are met, e.g. by a codec with the
    single message [{}], here sent twice, cut in the middle of a CR LF
    pair and followed by an unfinished third copy. *)
Example framer_round_trip_instance :
  let serialize := fun _ : unit => [123; 125] in
  let JSON_parse := fun line => if decide (line = [123; 125]) then Some tt else None in
  let chunks := [[123]; [125; 13]; [10; 123; 125; 10; 123]] in
  fst (run [] chunks) = [123] /\
  parsed JSON_parse (snd (run [] chunks)) = [tt; tt].
Proof.
  cbv zeta.
  apply (framer_round_trip_ascii (fun _ : unit => [123; 125])
           (fun line => if decide (line = [123; 125]) then Some tt else None))
    with (out := [(tt, SepCRLF); (tt, SepLF)]).
  - intros m. destruct m. reflexivity.
  - intros _. repeat constructor; discriminate.
  - intros _. reflexivity.
  - repeat constructor; lia.
  - repeat constructor. discriminate.
  - reflexivity.
Qed.

(** No line that is empty after trimming is ever handed on. *)
Lemma run_lines_not_blank (chunks : list (list Z)) (buffer : list Z) :
  Forall (fun line => blank line = false) (snd (run buffer chunks)).
Proof.
  revert buffer. induction chunks as [|chunk more IH]; intros buffer; [constructor|].
  cbn [run]. unfold on_data.
  specialize (IH (List.last (split_lines (buffer ++ toString_utf8 chunk)) [])).
  destruct (run _ more) as [final lines']. cbn [snd] in *.
  apply Forall_app. split; [|exact IH].
  apply List.Forall_forall. intros line Hin.
  apply List.filter_In in Hin as [_ Hnb].
  destruct (blank line); [discriminate|reflexivity].
Qed.

(** A chunk that holds only line ends hands on nothing. *)
Lemma blank_lines_ignored : run [] [[10; 13; 10; 32; 10]] = ([], []).
Proof. reflexivity. Qed.

(** C4 - Line-framer round trip, at a chunking the code gets wrong.  The
    claim promises the parsed messages back for every chunking of the
    byte stream.  Take the one message {"a":"e-acute"} followed by a line
    feed, whose e-acute is the two bytes C3 A9.  Delivered in one chunk,
    the framer hands JSON.parse the original line.  Delivered in two
    chunks cut between C3 and A9, each chunk is decoded on its own, both
    halves of the character become U+FFFD, and the line handed to
    JSON.parse (which accepts it) carries two replacement characters
    where the message had one e-acute. *)
Theorem C4_character_split_across_chunks :
  let whole := [0x7B; 0x22; 0x61; 0x22; 0x3A; 0x22; 0xC3; 0xA9; 0x22; 0x7D; 0x0A] in
  let chunk1 := [0x7B; 0x22; 0x61; 0x22; 0x3A; 0x22; 0xC3] in
  let chunk2 := [0xA9; 0x22; 0x7D; 0x0A] in
  chunk1 ++ chunk2 = whole /\
  run [] [whole] = ([], [[123; 34; 97; 34; 58; 34; 233; 34; 125]]) /\
  run [] [chunk1; chunk2] = ([], [[123; 34; 97; 34; 58; 34; 65533; 65533; 34; 125]]) /\
  snd (run [] [chunk1; chunk2]) <> snd (run [] [whole]).
Proof. repeat split. vm_compute. discriminate. Qed.

End LineFramerFacts.

Section StatefulFacts.

Import Stateful.

Lemma table_ok_same (st st' : State) :
  transports st' = transports st -> heap st' = heap st -> table_ok st -> table_ok st'.
Proof. unfold table_ok. intros -> ->. auto. Qed.

Lemma table_ok_init (sessionTimeout : option Z) : table_ok (init sessionTimeout).
Proof. intros id ref H. cbn in H. rewrite lookup_empty in H. discriminate. Qed.

Lemma table_ok_counter_inc id st : table_ok st -> table_ok (counter_inc id st).
Proof. apply table_ok_same; reflexivity. Qed.

Lemma table_ok_counter_dec id st : table_ok st -> table_ok (counter_dec id st).
Proof. apply table_ok_same; reflexivity. Qed.

Lemma counter_clear_core id fire st :
  transports (counter_clear id fire st) = transports st /\
  heap (counter_clear id fire st) = heap st.
Proof. unfold counter_clear. destruct (sessionCounter st); auto. Qed.

(** Changing an object without touching its session id or its reported
    flag keeps the table sound. *)
Lemma table_ok_update_conn ref f st :
  (forall c, sessionId (transport (f c)) = sessionId (transport c) /\
             reported (transport (f c)) = reported (transport c)) ->
  table_ok st -> table_ok (update_conn ref f st).
Proof.
  intros Hf Hok id r H. cbn in H. destruct (Hok id r H) as (Hid & conn & Hc & Hs & Hr).
  split; [exact Hid|]. cbn [update_conn heap].
  destruct (decide (ref = r)) as [->|Hne].
  - exists (f conn). rewrite list_lookup_alter_eq, Hc. cbn.
    destruct (Hf conn) as [-> ->]. auto.
  - exists conn. rewrite list_lookup_alter_ne by exact Hne. auto.
Qed.

Lemma table_ok_delete id st :
  table_ok st -> table_ok (set_transports (delete id (transports st)) st).
Proof.
  intros Hok id' r H. cbn in H.
  apply lookup_delete_Some in H as [_ H]. exact (Hok id' r H).
Qed.

(** The shared body of onclose and onerror, run on a transport that has
    just been marked as reported. *)
Lemma onerror_is_onclose ref st : onerror ref st = onclose ref st.
Proof. reflexivity. Qed.

Lemma onclose_transports ref st :
  transports (onclose ref st) =
  match heap st !! ref with
  | Some conn =>
      match sessionId (transport conn) with
      | Some id => if truthy_str (Some id) then delete id (transports st) else transports st
      | None => transports st
      end
  | None => transports st
  end.
Proof.
  unfold onclose. destruct (heap st !! ref) as [conn|]; [|reflexivity].
  destruct (sessionId (transport conn)) as [id|]; [|reflexivity].
  destruct (truthy_str (Some id)); [|reflexivity].
  cbn. destruct (counter_clear_core id false st) as [-> _]. reflexivity.
Qed.

Lemma onclose_heap ref st (r : nat) :
  r <> ref -> heap (onclose ref st) !! r = heap st !! r.
Proof.
  intros Hne. unfold onclose. destruct (heap st !! ref) as [conn|]; [|reflexivity].
  unfold kill. cbn [update_conn heap]. rewrite list_lookup_alter_ne by congruence.
  destruct (sessionId (transport conn)) as [id|]; [|reflexivity].
  destruct (truthy_str (Some id)); [|reflexivity].
  cbn. destruct (counter_clear_core id false st) as [_ ->]. reflexivity.
Qed.

Lemma mark_reported_lookup ref st :
  heap (mark_reported ref st) !! ref =
  (fun c => mkConn (mkTransport (sessionId (transport c)) (sessionIdGenerator (transport c))
                      true (sent (transport c))) (child c)) <$> heap st !! ref.
Proof. cbn. apply list_lookup_alter_eq. Qed.

Lemma table_ok_transport_close ref st :
  table_ok st -> table_ok (transport_close ref st).
Proof.
  intros Hok id r H. unfold transport_close in *.
  rewrite onclose_transports, mark_reported_lookup in H.
  change (transports (mark_reported ref st)) with (transports st) in H.
  assert (Hmine : transports st !! id = Some r -> r = ref ->
            exists conn, heap st !! ref = Some conn /\
              sessionId (transport conn) = Some id /\ truthy_str (Some id) = true).
  { intros E ->. destruct (Hok id ref E) as (Hid & c & Hc & Hs & Hr). eauto. }
  assert (Hin : transports st !! id = Some r /\ r <> ref).
  { destruct (heap st !! ref) as [conn|] eqn:Href;
      cbn [fmap option_fmap option_map transport sessionId] in H.
    - destruct (sessionId (transport conn)) as [id0|] eqn:Hsid.
      + destruct (truthy_str (Some id0)) eqn:Ht.
        * apply lookup_delete_Some in H as [Hne H]. split; [exact H|].
          intros E. destruct (Hmine H E) as (c & Hc & Hs & _). congruence.
        * split; [exact H|]. intros E.
          destruct (Hmine H E) as (c & Hc & Hs & Hid). congruence.
      + split; [exact H|]. intros E.
        destruct (Hmine H E) as (c & Hc & Hs & _). congruence.
    - split; [exact H|]. intros E.
      destruct (Hmine H E) as (c & Hc & _). congruence. }
  destruct Hin as [Hin Hne].
  destruct (Hok id r Hin) as (Hid & c & Hc & Hs & Hr).
  split; [exact Hid|]. exists c.
  rewrite onclose_heap by exact Hne. cbn [mark_reported update_conn heap].
  rewrite list_lookup_alter_ne by congruence. auto.
Qed.

Lemma table_ok_transport_error ref st :
  table_ok st -> table_ok (transport_error ref st).
Proof. apply table_ok_transport_close. Qed.

Lemma table_ok_onExpire id st : table_ok st -> table_ok (onExpire id st).
Proof.
  intros Hok. unfold onExpire. cbv zeta.
  set (st1 := mkState _ _ _ _).
  assert (H1 : table_ok st1) by (revert Hok; apply table_ok_same; reflexivity).
  destruct (slot id (transports st1)) as [ref| |].
  - apply table_ok_delete, table_ok_transport_close, H1.
  - exact H1.
  - apply table_ok_delete, H1.
Qed.

(** The objects a POST creates, and the session the SDK may initialise
    on them, keep the table sound. *)
Lemma table_ok_created cmd generated st :
  table_ok st ->
  table_ok
    (let st1 := mkState (transports st)
                  (heap st ++ [mkConn (mkTransport None GenRandomUUID false [])
                                      (mkChild cmd false [])])
                  (sessionCounter st) (expired st) in
     match generated with
     | Some id => sdk_initialize (length (heap st)) id st1
     | None => st1
     end).
Proof.
  intros Hok. cbv zeta.
  set (fresh := mkConn _ _). set (st1 := mkState _ _ _ _).
  assert (Hold : forall id r, transports st !! id = Some r ->
            truthy_str (Some id) = true /\ (r < length (heap st))%nat /\
            exists c, heap st !! r = Some c /\
                      sessionId (transport c) = Some id /\ reported (transport c) = false).
  { intros id r H. destruct (Hok id r H) as (Hid & c & Hc & Hs & Hr).
    split; [exact Hid|]. split; [eapply lookup_lt_Some, Hc|]. eauto. }
  destruct generated as [new|].
  2:{ intros id r H. subst st1. cbn in H.
      destruct (Hold id r H) as (Hid & Hlt & c & Hc & Hs & Hr).
      split; [exact Hid|]. exists c. cbn. rewrite lookup_app_l by exact Hlt. auto. }
  unfold sdk_initialize.
  set (st2 := update_conn _ _ st1).
  assert (Hfresh : heap st2 !! length (heap st) =
            Some (mkConn (mkTransport (Some new) GenRandomUUID false []) (child fresh))).
  { subst st2 st1. cbn [update_conn heap]. rewrite list_lookup_alter_eq.
    rewrite lookup_app_r by lia. rewrite Nat.sub_diag. reflexivity. }
  assert (Hkeep : forall r, (r < length (heap st))%nat -> heap st2 !! r = heap st !! r).
  { intros r Hlt. subst st2 st1. cbn [update_conn heap].
    rewrite list_lookup_alter_ne by lia. apply lookup_app_l, Hlt. }
  destruct (truthy_str (Some new)) eqn:Hnew.
  - intros id r H. unfold onsessioninitialized in H. cbn in H.
    destruct (decide (new = id)) as [->|Hne].
    + rewrite lookup_insert_eq in H. inversion H; subst r.
      split; [exact Hnew|]. eexists. split; [exact Hfresh|]. auto.
    + rewrite lookup_insert_ne in H by exact Hne.
      destruct (Hold id r H) as (Hid & Hlt & c & Hc & Hs & Hr).
      split; [exact Hid|]. exists c.
      change (heap (onsessioninitialized (length (heap st)) new st2)) with (heap st2).
      rewrite (Hkeep r Hlt). auto.
  - intros id r H. cbn in H.
    destruct (Hold id r H) as (Hid & Hlt & c & Hc & Hs & Hr).
    split; [exact Hid|]. exists c. rewrite (Hkeep r Hlt). auto.
Qed.

Lemma table_ok_post cmd hdr body generated st :
  table_ok st -> table_ok (step cmd st (EvPost hdr body generated)).
Proof.
  intros Hok. cbn [step]. unfold post.
  destruct (session_slot hdr st) as [[id [ref| |]]|];
    try (apply table_ok_counter_inc, Hok);
    (destruct (negb (truthy_str hdr) && isInitializeRequest body); [|exact Hok]);
    apply (table_ok_created cmd generated st Hok).
Qed.

Lemma table_ok_handleSessionRequest hdr st :
  table_ok st -> table_ok (snd (handleSessionRequest hdr st)).
Proof.
  intros Hok. unfold handleSessionRequest.
  destruct (session_slot hdr st) as [[id [ref| |]]|];
    try exact Hok; apply table_ok_counter_inc, Hok.
Qed.

Lemma table_ok_step cmd st ev : table_ok st -> table_ok (step cmd st ev).
Proof.
  intros Hok. destruct ev as [sid body gen|sid|sid|ref|sid|ref msg|ref msg|ref|ref|ref|id].
  - apply table_ok_post, Hok.
  - apply table_ok_handleSessionRequest, Hok.
  - cbn [step]. pose proof (table_ok_handleSessionRequest sid st Hok) as H.
    destruct (handleSessionRequest sid st) as [[r|r|r|] st']; cbn in H; auto.
    apply table_ok_transport_close, H.
  - cbn [step]. unfold handleResponseEnd.
    destruct (heap st !! ref) as [conn|]; [|exact Hok].
    destruct (sessionId (transport conn)) as [id|]; [|exact Hok].
    destruct (truthy_str (Some id)); [|exact Hok]. apply table_ok_counter_dec, Hok.
  - apply table_ok_counter_dec, Hok.
  - apply table_ok_update_conn; [|exact Hok]. intros c. split; reflexivity.
  - apply table_ok_update_conn; [|exact Hok]. intros c. split; reflexivity.
  - apply table_ok_transport_close, Hok.
  - apply table_ok_transport_close, Hok.
  - apply table_ok_transport_error, Hok.
  - cbn [step]. destruct (sessionCounter st) as [c|]; [|exact Hok].
    unfold SessionAccessCounter.expire.
    destruct (bool_decide (id ∈ SessionAccessCounter.timers c)); cbn [fold_left].
    + apply table_ok_onExpire. revert Hok. apply table_ok_same; reflexivity.
    + revert Hok. apply table_ok_same; reflexivity.
Qed.

Lemma table_ok_run cmd sessionTimeout evs : table_ok (run cmd sessionTimeout evs).
Proof.
  unfold run. generalize (table_ok_init sessionTimeout).
  generalize (init sessionTimeout). induction evs as [|ev evs IH]; intros st Hok.
  - exact Hok.
  - cbn [fold_left]. apply IH, table_ok_step, Hok.
Qed.



(** The test on the header, by cases. *)
Lemma session_slot_truthy (id : string) (st : State) :
  id <> "" -> session_slot (Some id) st = Some (id, slot id (transports st)).
Proof.
  intros Hne. unfold session_slot, truthy_str.
  apply String.eqb_neq in Hne. rewrite Hne. reflexivity.
Qed.





Lemma slot_missing (id : string) (table : gmap string nat) :
  table !! id = None -> inherited id = false -> slot id table = Missing.
Proof. unfold slot. intros -> ->. reflexivity. Qed.



(** The cases of C2 on concrete requests: an initialize request without
    header creates transport 0, which the callback registers; a request
    carrying that session id reuses it; a request carrying an unknown id
    is refused; a request carrying the name of an inherited property
    throws. *)
Example post_admission_cases :
  let cmd := "node server.js" in
  let st0 := init (Some 250) in
  let st1 := snd (post cmd None sample_initialize st0) in
  let st2 := sdk_initialize 0 "3f2a" st1 in
  fst (post cmd None sample_initialize st0) = Created 0 /\
  transports st1 = ∅ /\
  transports st2 !! "3f2a" = Some 0%nat /\
  fst (post cmd (Some "3f2a") (JObj []) st2) = Reused 0 /\
  (SessionAccessCounter.count "3f2a" <$> sessionCounter st2) = Some 1%nat /\
  (SessionAccessCounter.count "3f2a" <$>
     sessionCounter (snd (post cmd (Some "3f2a") (JObj []) st2))) = Some 2%nat /\
  status <$> (match fst (post cmd (Some "ffff") (JObj []) st2) with
              | Answered r => Some r
              | _ => None
              end) = Some 400 /\
  fst (post cmd (Some "constructor") (JObj []) st2) = Thrown /\
  (SessionAccessCounter.count "constructor" <$>
     sessionCounter (snd (post cmd (Some "constructor") (JObj []) st2))) = Some 1%nat /\
  transports (snd (post cmd (Some "constructor") (JObj []) st2)) = transports st2.
Proof. cbn zeta. repeat split; vm_compute; reflexivity. Qed.

(** What onclose does for a registered transport. *)
Lemma transport_close_effect (id : string) (ref : nat) (st : State) :
  table_ok st -> transports st !! id = Some ref ->
  let st' := transport_close ref st in
  transports st' !! id = None /\
  (forall c, sessionCounter st' = Some c ->
     SessionAccessCounter.counts c !! id = None /\
     id ∉ SessionAccessCounter.timers c) /\
  expired st' = expired st /\
  (exists conn', heap st' !! ref = Some conn' /\
     killed (child conn') = true /\ reported (transport conn') = true).
Proof.
  intros Hok Hin. destruct (Hok id ref Hin) as (Hid & conn & Hc & Hs & Hr).
  cbn zeta. unfold transport_close, onclose.
  rewrite mark_reported_lookup, Hc. cbn [fmap option_fmap option_map transport sessionId].
  rewrite Hs, Hid.
  set (st1 := mark_reported ref st).
  assert (Hh : heap (counter_clear id false st1) !! ref =
               Some (mkConn (mkTransport (Some id) (sessionIdGenerator (transport conn))
                               true (sent (transport conn))) (child conn))).
  { destruct (counter_clear_core id false st1) as [_ ->]. subst st1.
    rewrite mark_reported_lookup, Hc. cbn. rewrite Hs. reflexivity. }
  unfold kill. cbn [update_conn set_transports transports heap sessionCounter expired].
  split; [|split; [|split]].
  - apply lookup_delete_eq.
  - unfold counter_clear. subst st1. cbn [mark_reported update_conn sessionCounter].
    destruct (sessionCounter st) as [c0|] eqn:Ec; cbn; intros c1 E; [|congruence].
    assert (c1 = fst (SessionAccessCounter.clear id false c0)) as -> by (cbn in *; congruence).
    cbn. split; [apply lookup_delete_eq|].
    rewrite elem_of_difference, elem_of_singleton. tauto.
  - unfold counter_clear. subst st1. cbn [mark_reported update_conn sessionCounter expired].
    destruct (sessionCounter st) as [c0|] eqn:Ec; cbn; [apply app_nil_r|reflexivity].
  - eexists. rewrite list_lookup_alter_eq, Hh. cbn. auto.
Qed.

(** C3 - Transport close and error in the stateful adapter.  In every
    state the binding can reach, an entry of the session table points to a
    transport that has reported neither close nor error; and when that
    transport reports close or error, the handler clears the session's
    access-counter entry (count and timer) without any onExpire call,
    removes the session's entry from the table, and kills the child. *)
Theorem C3_transport_end_cleanup (stdioCmd : string) (sessionTimeout : option Z)
    (evs : list Event) (id : string) (ref : nat) :
  let st := run stdioCmd sessionTimeout evs in
  transports st !! id = Some ref ->
  (exists conn, heap st !! ref = Some conn /\ reported (transport conn) = false) /\
  forall st', st' = transport_close ref st \/ st' = transport_error ref st ->
    transports st' !! id = None /\
    (forall c, sessionCounter st' = Some c ->
       SessionAccessCounter.counts c !! id = None /\
       id ∉ SessionAccessCounter.timers c) /\
    expired st' = expired st /\
    (exists conn', heap st' !! ref = Some conn' /\
       killed (child conn') = true /\ reported (transport conn') = true).
Proof.
  intros st Hin. pose proof (table_ok_run stdioCmd sessionTimeout evs) as Hok.
  fold st in Hok. split.
  - destruct (Hok id ref Hin) as (_ & conn & Hc & _ & Hr). eauto.
  - intros st' [-> | ->]; apply (transport_close_effect id ref st Hok Hin).
Qed.

Lemma C3_transport_end_cleanup_witness :
  let st := run "node server.js" (Some 250)
              [EvPost None sample_initialize (Some "0b7e6d2c-session")] in
  (exists conn, heap st !! 0%nat = Some conn /\ reported (transport conn) = false) /\
  forall st', st' = transport_close 0 st \/ st' = transport_error 0 st ->
    transports st' !! "0b7e6d2c-session" = None /\
    (forall c, sessionCounter st' = Some c ->
       SessionAccessCounter.counts c !! "0b7e6d2c-session" = None /\
       "0b7e6d2c-session" ∉ SessionAccessCounter.timers c) /\
    expired st' = expired st /\
    (exists conn', heap st' !! 0%nat = Some conn' /\
       killed (child conn') = true /\ reported (transport conn') = true).
Proof.
  apply (C3_transport_end_cleanup "node server.js" (Some 250)
           [EvPost None sample_initialize (Some "0b7e6d2c-session")]
           "0b7e6d2c-session" 0%nat).
  vm_compute. reflexivity.
Defined.

End StatefulFacts.

Section StatelessFacts.

Import Stateless.

Lemma auto_id_prefix (millis random : string) :
  startsWith "init_" (auto_id millis random) = true.
Proof. reflexivity. Qed.

Lemma auto_id_truthy (millis random : string) :
  truthy_json (Some (JStr (auto_id millis random))) = true.
Proof. reflexivity. Qed.

Lemma run_app (cfg : Config) (evs evs' : list Event) :
  run cfg (evs ++ evs') = fold_left (step cfg) evs' (run cfg evs).
Proof. apply fold_left_app. Qed.

(** While the auto-generated id is tracked, child messages that do not
    answer it are forwarded (a bare null is dropped) and nothing else
    changes. *)
Lemma child_messages_before_answer (cfg : Config) (id : JSON) (before : list JSON)
    (st : State) :
  initializeRequestId st = Some id -> truthy_json (Some id) = true ->
  Forall (fun x => answers id x = false) before ->
  fold_left (step cfg) (map EvChildMessage before) st =
  mkState (isInitialized st) (initializeRequestId st) (isAutoInitializing st)
    (pendingOriginalMessage st) (stdin st)
    (sent st ++ List.filter not_null before) (killed st).
Proof.
  intros Hid Ht Hb. revert st Hid.
  induction Hb as [|x before Hx _ IH]; intros st Hid.
  - cbn. rewrite app_nil_r. destruct st; reflexivity.
  - cbn [map fold_left step].
    assert (E : child_message x st = if not_null x then send x st else st).
    { unfold child_message. rewrite Hid, Ht.
      destruct x; try reflexivity; cbn [not_null]; unfold answers in Hx; rewrite Hx;
        reflexivity. }
    rewrite E. destruct (not_null x) eqn:Hn.
    + rewrite IH by exact Hid. cbn [send isInitialized initializeRequestId
        isAutoInitializing pendingOriginalMessage stdin sent killed List.filter].
      rewrite Hn, <- app_assoc. reflexivity.
    + rewrite IH by exact Hid. cbn [List.filter]. rewrite Hn. reflexivity.
Qed.

(** Once no id is tracked, every child message is forwarded. *)
Lemma child_messages_untracked (cfg : Config) (after : list JSON) (st : State) :
  initializeRequestId st = None ->
  fold_left (step cfg) (map EvChildMessage after) st =
  mkState (isInitialized st) None (isAutoInitializing st)
    (pendingOriginalMessage st) (stdin st) (sent st ++ after) (killed st).
Proof.
  revert st. induction after as [|x after IH]; intros st Hid.
  - cbn. rewrite app_nil_r. destruct st; cbn in *; subst; reflexivity.
  - cbn [map fold_left step]. unfold child_message. rewrite Hid. cbn [truthy_json].
    rewrite IH by exact Hid. cbn. rewrite <- app_assoc. reflexivity.
Qed.

(** The handshake as the interposer is meant to run it: one message that
    is not an initialize request, then child output.  The child's stdin
    receives the generated initialize request, whose id starts with
    "init_"; when the child answers that id, the initialized notification
    and the original message follow, and the answer is the one child
    message (besides bare nulls) that is not forwarded. *)
Lemma auto_initialize_handshake (cfg : Config) (millis random : string)
    (m : JSON) (before : list JSON) (r : JSON) (after : list JSON) :
  isInitializeRequest m = false ->
  truthy_json (Some m) = true ->
  let id := JStr (auto_id millis random) in
  Forall (fun x => answers id x = false) before ->
  answers id r = true ->
  let st := run cfg (EvMessage millis random m ::
                     map EvChildMessage (before ++ r :: after)) in
  stdin st = [createInitializeRequest (supergatewayVersion cfg) id (protocol cfg);
              createInitializedNotification; m] /\
  sent st = List.filter not_null before ++ after /\
  isInitialized st = true.
Proof.
  intros Hm Hobj id Hbefore Hr st. subst st.
  change (EvMessage millis random m :: map EvChildMessage (before ++ r :: after))
    with ([EvMessage millis random m] ++ map EvChildMessage (before ++ r :: after)).
  rewrite run_app, map_app, fold_left_app.
  assert (E0 : run cfg [EvMessage millis random m] =
               mkState false (Some id) true (Some m)
                 [createInitializeRequest (supergatewayVersion cfg) id (protocol cfg)] [] false).
  { unfold run. cbn [fold_left step]. unfold onmessage. cbn [init isInitialized negb].
    rewrite Hm. reflexivity. }
  rewrite E0.
  rewrite (child_messages_before_answer cfg id before);
    [|reflexivity|apply auto_id_truthy|exact Hbefore].
  cbn [isInitialized initializeRequestId isAutoInitializing pendingOriginalMessage
       stdin sent killed app map fold_left step].
  assert (E1 : forall s,
             child_message r (mkState false (Some id) true (Some m)
               [createInitializeRequest (supergatewayVersion cfg) id (protocol cfg)] s false) =
             mkState true None false None
               [createInitializeRequest (supergatewayVersion cfg) id (protocol cfg);
                createInitializedNotification; m] s false).
  { intros s. unfold child_message.
    cbn [initializeRequestId isAutoInitializing pendingOriginalMessage stdin sent killed].
    change (truthy_json (Some id)) with true. cbv iota.
    unfold answers in Hr. destruct r; try discriminate Hr; rewrite Hr, Hobj; reflexivity. }
  rewrite E1, child_messages_untracked by reflexivity.
  cbn. auto.
Qed.

(** Until the child answers the generated id, its stdin holds the
    initialize request alone. *)
Lemma auto_initialize_waits (cfg : Config) (millis random : string)
    (m : JSON) (before : list JSON) :
  isInitializeRequest m = false ->
  let id := JStr (auto_id millis random) in
  Forall (fun x => answers id x = false) before ->
  let st := run cfg (EvMessage millis random m :: map EvChildMessage before) in
  stdin st = [createInitializeRequest (supergatewayVersion cfg) id (protocol cfg)] /\
  sent st = List.filter not_null before.
Proof.
  intros Hm id Hbefore st. subst st.
  change (EvMessage millis random m :: map EvChildMessage before)
    with ([EvMessage millis random m] ++ map EvChildMessage before).
  rewrite run_app.
  assert (E0 : run cfg [EvMessage millis random m] =
               mkState false (Some id) true (Some m)
                 [createInitializeRequest (supergatewayVersion cfg) id (protocol cfg)] [] false).
  { unfold run. cbn [fold_left step]. unfold onmessage. cbn [init isInitialized negb].
    rewrite Hm. reflexivity. }
  rewrite E0.
  rewrite (child_messages_before_answer cfg id before);
    [|reflexivity|apply auto_id_truthy|exact Hbefore].
  cbn. auto.
Qed.

(** C1 - Stateless auto-initialize, at a POST the interposer gets wrong.
    The claim promises, for every POST whose first message m is not an
    initialize request, the stdin sequence initialize (id init_...),
    notifications/initialized, m with nothing between, and the answer to
    the generated initialize kept from the client.  Let the POST carry two
    requests, m1 and m2 (a JSON-RPC batch: the transport calls onmessage
    once per message).  The second call finds isInitialized still false,
    overwrites the pending message and the tracked id, and writes a second
    initialize request.  The child's answer to the first generated id no
    longer matches and is forwarded to the client; after the answer to the
    second, the notification and m2 are written; m1 never reaches the
    child. *)
Theorem C1_second_message_before_init_response :
  let cfg := mkConfig "node server.js" "2024-11-05" "3.4.0" in
  let m1 := request 1 "tools/list" in
  let m2 := request 2 "resources/list" in
  let id1 := JStr (auto_id "1730000000000" "k3j9x0q2a") in
  let id2 := JStr (auto_id "1730000000000" "p8w1z5r7c") in
  let st := run cfg [ EvMessage "1730000000000" "k3j9x0q2a" m1;
                      EvMessage "1730000000000" "p8w1z5r7c" m2;
                      EvChildMessage (result_for id1);
                      EvChildMessage (result_for id2) ] in
  isInitializeRequest m1 = false /\
  stdin st = [ createInitializeRequest "3.4.0" id1 "2024-11-05";
               createInitializeRequest "3.4.0" id2 "2024-11-05";
               createInitializedNotification;
               m2 ] /\
  sent st = [ result_for id1 ] /\
  ~ In m1 (stdin st).
Proof.
  cbn zeta. split; [reflexivity|]. split; [reflexivity|]. split; [reflexivity|].
  vm_compute. intros [H|[H|[H|[H|[]]]]]; discriminate H.
Qed.

(** The same POST with m1 alone runs as claimed. *)
Example auto_initialize_single_message :
  let cfg := mkConfig "node server.js" "2024-11-05" "3.4.0" in
  let m1 := request 1 "tools/list" in
  let id1 := JStr (auto_id "1730000000000" "k3j9x0q2a") in
  let st := run cfg (EvMessage "1730000000000" "k3j9x0q2a" m1 ::
                     map EvChildMessage ([] ++ result_for id1 :: [result_for (JNum 1)])) in
  stdin st = [ createInitializeRequest "3.4.0" id1 "2024-11-05";
               createInitializedNotification; m1 ] /\
  sent st = [ result_for (JNum 1) ] /\
  isInitialized st = true.
Proof.
  cbv zeta.
  apply (auto_initialize_handshake (mkConfig "node server.js" "2024-11-05" "3.4.0")
           "1730000000000" "k3j9x0q2a" (request 1 "tools/list") []
           (result_for (JStr (auto_id "1730000000000" "k3j9x0q2a")))
           [result_for (JNum 1)]).
  - reflexivity.
  - reflexivity.
  - constructor.
  - reflexivity.
Qed.

(* ---- the routes of the stateless app ---- *)

Lemma dispatch_app (method : Method) (reqPath : string)
    (rs rs' : list (Method * string * Handler)) :
  dispatch method reqPath (rs ++ rs') =
  match dispatch method reqPath rs with
  | Some h => Some h
  | None => dispatch method reqPath rs'
  end.
Proof.
  induction rs as [|[[m p] h] rs IH]; [reflexivity|].
  cbn [app dispatch]. destruct (method_eqb method m && Express.matches p reqPath); auto.
Qed.

Lemma dispatch_health (method : Method) (reqPath : string) (eps : list string) :
  dispatch method reqPath (map (fun ep => (GET, ep, Health)) eps) =
  if method_eqb method GET && existsb (fun ep => Express.matches ep reqPath) eps
  then Some Health else None.
Proof.
  induction eps as [|ep eps IH].
  - cbn. rewrite andb_false_r. reflexivity.
  - cbn [map dispatch existsb]. rewrite IH. destruct (method_eqb method GET); [|reflexivity].
    cbn [andb]. destruct (Express.matches ep reqPath); reflexivity.
Qed.

(** A request path that matches the path of a binding reaches the routes
    of a binding: of the first one whose path it matches. *)
Lemma dispatch_bindings (method : Method) (reqPath : string) (bindings : list Mounted) :
  forall (k i : nat) (m : Mounted),
    bindings !! i = Some m -> Express.matches (fullPath m) reqPath = true ->
    exists j b, bindings !! j = Some b /\ Express.matches (fullPath b) reqPath = true /\
      dispatch method reqPath (concat (imap (fun n => binding_routes (k + n)) bindings))
      = Some (OfBinding (k + j)).
Proof.
  induction bindings as [|b0 bs IH]; intros k i m Hi Hm; [discriminate Hi|].
  rewrite imap_cons. cbn [concat binding_routes app dispatch].
  destruct (Express.matches (fullPath b0) reqPath) eqn:E.
  - exists 0%nat, b0. split; [reflexivity|]. split; [exact E|]. destruct method; reflexivity.
  - rewrite !andb_false_r.
    destruct i as [|i]; [cbn in Hi; congruence|].
    destruct (IH (S k) i m Hi Hm) as (j & b & Hj & Hb & Hd).
    exists (S j), b. split; [exact Hj|]. split; [exact Hb|].
    rewrite (imap_ext _ (fun n => binding_routes (S k + n))).
    + rewrite Hd. f_equal. f_equal. lia.
    + intros n x _. cbn. f_equal. lia.
Qed.

Lemma mounted_eta (b : Mounted) : mkMounted (fullPath b) (config b) (served b) = b.
Proof. destruct b. reflexivity. Qed.

(** C6, as stated, fails.  With [--healthEndpoint /mcp] the binding's
    path /mcp is also the path of a health route, which is registered
    first: a GET to it is answered 200 "ok", not 405. *)
Lemma C6_health_endpoint_counterexample :
  let args := mkMultiArgs [mkServer "/" "node server.js"]
                (mkOptions 8000 "/mcp" None ["/mcp"] [] "2024-11-05") in
  let app := multiStdioToStatelessStreamableHttp "3.4.0" args in
  map fullPath (snd app) = ["/mcp"] /\
  serve (healthEndpoints (fst app)) GET "/mcp" (snd app)
    = (Answer (mkResponse 200 (BodyText "ok")), snd app) /\
  ~ (forall eps bindings i m reqPath,
       bindings !! i = Some m -> Express.matches (fullPath m) reqPath = true ->
       exists r, serve eps GET reqPath bindings = (Answer r, bindings) /\ status r = 405).
Proof.
  cbn zeta. split; [reflexivity|]. split; [reflexivity|].
  intros H.
  destruct (H ["/mcp"]
              (snd (multiStdioToStatelessStreamableHttp "3.4.0"
                      (mkMultiArgs [mkServer "/" "node server.js"]
                         (mkOptions 8000 "/mcp" None ["/mcp"] [] "2024-11-05"))))
              0%nat
              (mkMounted "/mcp" (mkConfig "node server.js" "2024-11-05" "3.4.0") (mkBinding []))
              "/mcp" eq_refl eq_refl) as (r & E & Hr).
  vm_compute in E. injection E as <-. discriminate Hr.
Qed.

(** C6 (amended) - GET and DELETE in the stateless adapter.  Let the
    health endpoints and the paths of the bindings be free of pattern
    characters, and let a request that reached the routes have a path
    that matches the path of a binding.  A DELETE is answered 405 with
    the JSON-RPC error code -32000, message "Method not allowed.", id
    null.  So is a GET, unless its path also matches a health endpoint:
    the health routes are registered first, and the GET is then answered
    200 "ok".  Either way the bindings are left as they were: no
    transport and no child is made, which only a POST does, at the first
    binding whose path the request matches. *)
Theorem C6_stateless_get_delete_405 (healthEndpoints : list string)
    (bindings : list Mounted) (i : nat) (m : Mounted) (reqPath : string) :
  forallb Express.plain healthEndpoints = true ->
  forallb (fun b => Express.plain (fullPath b)) bindings = true ->
  bindings !! i = Some m ->
  Express.matches (fullPath m) reqPath = true ->
  let rejection :=
    mkResponse 405
      (BodyJson (JObj [ ("jsonrpc", JStr "2.0");
                        ("error", JObj [ ("code", JNum (-32000));
                                         ("message", JStr "Method not allowed.") ]);
                        ("id", JNull) ]%string)) in
  serve healthEndpoints DELETE reqPath bindings = (Answer rejection, bindings) /\
  serve healthEndpoints GET reqPath bindings =
    (if existsb (fun ep => Express.matches ep reqPath) healthEndpoints
     then Answer (mkResponse 200 (BodyText "ok")) else Answer rejection,
     bindings) /\
  is_jsonrpc_envelope (body rejection) = true /\
  exists j b,
    bindings !! j = Some b /\ Express.matches (fullPath b) reqPath = true /\
    serve healthEndpoints POST reqPath bindings =
      (ByTransport,
       <[j := mkMounted (fullPath b) (config b)
                (mkBinding (posts (served b) ++ [(config b, init)]))]> bindings).
Proof.
  intros _ _ Hi Hm. cbn zeta.
  assert (Hfirst : forall method, exists j b,
            bindings !! j = Some b /\ Express.matches (fullPath b) reqPath = true /\
            dispatch method reqPath (concat (imap binding_routes bindings))
            = Some (OfBinding j)).
  { intros method. exact (dispatch_bindings method reqPath bindings 0 i m Hi Hm). }
  unfold serve, routes. rewrite !dispatch_app, !dispatch_health. cbn [method_eqb andb].
  split; [|split; [|split]].
  - destruct (Hfirst DELETE) as (j & b & Hj & _ & ->). rewrite Hj. cbn.
    rewrite mounted_eta, list_insert_id by exact Hj. reflexivity.
  - destruct (existsb _ healthEndpoints); [reflexivity|].
    destruct (Hfirst GET) as (j & b & Hj & _ & ->). rewrite Hj. cbn.
    rewrite mounted_eta, list_insert_id by exact Hj. reflexivity.
  - reflexivity.
  - destruct (Hfirst POST) as (j & b & Hj & Hb & ->). exists j, b.
    split; [exact Hj|]. split; [exact Hb|]. rewrite Hj. reflexivity.
Qed.

Lemma C6_stateless_get_delete_405_witness :
  let rejection :=
    mkResponse 405
      (BodyJson (JObj [ ("jsonrpc", JStr "2.0");
                        ("error", JObj [ ("code", JNum (-32000));
                                         ("message", JStr "Method not allowed.") ]);
                        ("id", JNull) ]%string)) in
  let eps := ["/healthz"; "/git/mcp"]%string in
  let bindings :=
    snd (multiStdioToStatelessStreamableHttp "3.4.0"
           (mkMultiArgs [mkServer "/git" "node git.js"; mkServer "/docker" "node docker.js"]
              (mkOptions 8000 "/mcp" None eps [] "2024-11-05"))) in
  serve eps DELETE "/Docker/MCP/" bindings = (Answer rejection, bindings) /\
  serve eps GET "/Docker/MCP/" bindings =
    (if existsb (fun ep => Express.matches ep "/Docker/MCP/") eps
     then Answer (mkResponse 200 (BodyText "ok")) else Answer rejection,
     bindings) /\
  is_jsonrpc_envelope (body rejection) = true /\
  exists j b,
    bindings !! j = Some b /\ Express.matches (fullPath b) "/Docker/MCP/" = true /\
    serve eps POST "/Docker/MCP/" bindings =
      (ByTransport,
       <[j := mkMounted (fullPath b) (config b)
                (mkBinding (posts (served b) ++ [(config b, init)]))]> bindings).
Proof.
  apply (C6_stateless_get_delete_405 ["/healthz"; "/git/mcp"]%string
           (snd (multiStdioToStatelessStreamableHttp "3.4.0"
                   (mkMultiArgs [mkServer "/git" "node git.js";
                                 mkServer "/docker" "node docker.js"]
                      (mkOptions 8000 "/mcp" None ["/healthz"; "/git/mcp"]%string []
                         "2024-11-05"))))
           1%nat
           (mkMounted "/docker/mcp" (mkConfig "node docker.js" "2024-11-05" "3.4.0")
              (mkBinding []))
           "/Docker/MCP/").
  - reflexivity.
  - reflexivity.
  - reflexivity.
  - reflexivity.
Defined.

End StatelessFacts.

Section SseFacts.

Import Sse.




(** With a session in the table the request goes to its transport. *)
Example post_with_session :
  post (Some "7c1d") (get (Some "7c1d") (mkBinding "/sse" "/message" "node server.js" ∅ []))
  = HandlePostMessage "7c1d".
Proof. vm_compute. reflexivity. Qed.

Lemma step_exited (p : Process) (ev : Event) (c : Z) :
  exited p = Some c -> step p ev = p.
Proof. intros E. unfold step. rewrite E. reflexivity. Qed.

Lemma run_exited (p : Process) (evs : list Event) (c : Z) :
  exited p = Some c -> fold_left step evs p = p.
Proof.
  intros E. induction evs as [|ev evs IH]; [reflexivity|].
  cbn [fold_left]. rewrite (step_exited p ev c E). exact IH.
Qed.

(** C7 - Child exit in SSE mode.  While the bridge runs, the exit of any
    binding's child with code c makes the bridge call process.exit with c
    when c is not null and with 1 when it is; after that the bridge
    handles no further event. *)
Theorem C7_sse_child_exit_terminates (p : Process) (i : nat)
    (code : option Z) (signal : option string) :
  exited p = None -> is_Some (bindings p !! i) ->
  let p' := step p (EvChildExit i code signal) in
  exited p' = Some (match code with Some c => c | None => 1 end) /\
  forall evs, fold_left step evs p' = p'.
Proof.
  intros Hrun [b Hb]. cbn zeta.
  assert (E : step p (EvChildExit i code signal) = child_on_exit code signal p).
  { unfold step. rewrite Hrun, Hb. reflexivity. }
  rewrite E. split; [reflexivity|].
  intros evs. apply (run_exited _ evs (nullish_or_1 code)). reflexivity.
Qed.

Lemma C7_sse_child_exit_terminates_witness :
  let p := snd (multiStdioToSse
                  (mkMultiArgs [mkServer "/git" "git-mcp"; mkServer "/docker" "docker-mcp"]
                     (mkOptions 8000 "" "/sse" "/message" None [] []))) in
  let p' := step p (EvChildExit 1 None (Some "SIGKILL")) in
  exited p' = Some 1 /\ forall evs, fold_left step evs p' = p'.
Proof.
  apply (C7_sse_child_exit_terminates
           (snd (multiStdioToSse
                   (mkMultiArgs [mkServer "/git" "git-mcp"; mkServer "/docker" "docker-mcp"]
                      (mkOptions 8000 "" "/sse" "/message" None [] []))))
           1%nat None (Some "SIGKILL")).
  - reflexivity.
  - eexists. reflexivity.
Defined.

(** An exit code of 0 is passed on as 0: [??] replaces null only. *)
Example child_exit_code_zero :
  exited (child_on_exit (Some 0) None (mkProcess [] None)) = Some 0.
Proof. reflexivity. Qed.

End SseFacts.

Section EntryPointFacts.

(** C10 - Single-binding entry points.  Each of stdioToSse, stdioToWs,
    stdioToStatefulStreamableHttp and stdioToStatelessStreamableHttp is
    its multi-server entry point applied to the remaining arguments and
    the one-element server list [{path: "/", stdioCmd}]; the one binding
    this sets up is mounted at the bare endpoint paths. *)
Theorem C10_single_is_multi_at_root
    (sse : Sse.StdioToSseArgs) (ws : Ws.StdioToWsArgs)
    (stateful : Stateful.StdioToStatefulStreamableHttpArgs)
    (stateless : Stateless.StdioToStatelessStreamableHttpArgs)
    (version : string) :
  (Sse.stdioToSse sse =
   Sse.multiStdioToSse (Sse.mkMultiArgs [mkServer "/" (Sse.stdioCmd sse)] (Sse.rest sse)) /\
   map Sse.fullSsePath (Sse.bindings (snd (Sse.stdioToSse sse))) =
     [PathRouter.spec_ensureLeading (Sse.ssePath (Sse.rest sse))] /\
   map Sse.fullMessagePath (Sse.bindings (snd (Sse.stdioToSse sse))) =
     [PathRouter.spec_ensureLeading (Sse.messagePath (Sse.rest sse))]) /\
  (Ws.stdioToWs ws =
   Ws.multiStdioToWs (Ws.mkMultiArgs [mkServer "/" (Ws.stdioCmd ws)] (Ws.rest ws)) /\
   map Ws.fullMessagePath (Ws.bindings (snd (Ws.stdioToWs ws))) =
     [PathRouter.spec_ensureLeading (Ws.messagePath (Ws.rest ws))]) /\
  (Stateful.stdioToStatefulStreamableHttp stateful =
   Stateful.multiStdioToStatefulStreamableHttp
     (Stateful.mkMultiArgs [mkServer "/" (Stateful.stdioCmd stateful)]
        (Stateful.rest stateful)) /\
   map Stateful.fullPath (snd (Stateful.stdioToStatefulStreamableHttp stateful)) =
     [PathRouter.spec_ensureLeading (Stateful.streamableHttpPath (Stateful.rest stateful))]) /\
  (Stateless.stdioToStatelessStreamableHttp version stateless =
   Stateless.multiStdioToStatelessStreamableHttp version
     (Stateless.mkMultiArgs [mkServer "/" (Stateless.stdioCmd stateless)]
        (Stateless.rest stateless)) /\
   map Stateless.fullPath (snd (Stateless.stdioToStatelessStreamableHttp version stateless)) =
     [PathRouter.spec_ensureLeading (Stateless.streamableHttpPath (Stateless.rest stateless))]).
Proof.
  assert (R : forall cmd suffix,
            PathRouter.fullPath (mkServer "/" cmd) suffix =
            PathRouter.spec_ensureLeading suffix).
  { intros cmd suffix. rewrite <- ensureLeading_agrees.
    unfold PathRouter.fullPath, PathRouter.joinPath. cbn [Types.path].
    change (PathRouter.or_root "/") with "/".
    change (String.eqb "/" "/") with true. cbv iota.
    change (String.append "" ?s) with s.
    destruct suffix as [|c s]; [reflexivity|].
    cbn [PathRouter.startsWith_slash]. destruct (Ascii.eqb c "/"); reflexivity. }
  repeat split; cbn; f_equal; apply R.
Qed.

End EntryPointFacts.

Section CliFacts.

Import Cli.

Lemma is_transport_streamableHttp (argv : Argv) :
  is_transport argv "streamableHttp" = true ->
  is_transport argv "sse" = false /\ is_transport argv "ws" = false.
Proof.
  unfold is_transport. destruct (outputTransport argv) as [t|]; [|discriminate].
  intros E. apply String.eqb_eq in E. subst t. split; reflexivity.
Qed.

(** The single --stdio form checks the session timeout before it starts
    the stateful gateway. *)
Lemma single_stdio_timeout_validated (version : string) (argv : Argv)
    (stdioArg : string) (t : Z) :
  selects_stateful argv = true -> sessionTimeout argv = Some t -> (t <= 0)%Z ->
  start_single version argv stdioArg = Exit 1.
Proof.
  unfold selects_stateful. intros Hsel Ht Hle.
  apply andb_true_iff in Hsel as [Htr Hst].
  destruct (is_transport_streamableHttp argv Htr) as [Hsse Hws].
  unfold start_single. rewrite Hsse, Hws, Htr, Hst, Ht.
  replace (t <=? 0)%Z with true by (symmetry; apply Z.leb_le; exact Hle).
  reflexivity.
Qed.

(** The multi-server forms hand any session timeout to the gateway. *)
Lemma multi_server_timeout_passed_through (version : string) (argv : Argv)
    (servers : list MultiStdioServerConfig) :
  selects_stateful argv = true ->
  start_multi version argv servers =
  StartedStateful
    (Stateful.multiStdioToStatefulStreamableHttp
       (Stateful.mkMultiArgs servers
          (Stateful.mkOptions (port argv) (streamableHttpPath argv) (corsOrigin argv)
             (healthEndpoint argv) (headers argv) (sessionTimeout argv)))).
Proof.
  unfold selects_stateful. intros Hsel.
  apply andb_true_iff in Hsel as [Htr Hst].
  unfold start_multi. rewrite Htr, Hst. reflexivity.
Qed.

(** C8 - Session timeout validation, at invocations the code lets
    through.  The claim has every stateful Streamable-HTTP invocation
    with --sessionTimeout at most 0 rejected at startup with exit code 1,
    the multi-server ones included.  With --sessionTimeout 0, both
    [--stdio git=... --stdio docker=...] and [--multiServerConfig file]
    start the stateful gateway: the timeout is handed over unchecked, and
    the gateway, finding it falsy, builds no session counter at all.  The
    single [--stdio command] form with the same options does exit 1. *)
Theorem C8_multi_server_timeout_not_validated :
  let version := "3.4.0" in
  let by_name :=
    stateful_argv (Some ["git=node server.js"; "docker=node server.js"]) None 0 in
  let by_file := stateful_argv None (Some "servers.json") 0 in
  let file :=
    Parsed (JObj [ ("servers",
                    JArr [ JObj [ ("path", JStr "/git"); ("stdio", JStr "node server.js") ];
                           JObj [ ("path", JStr "docker"); ("stdio", JStr "node server.js") ] ]) ]) in
  let started :=
    StartedStateful
      (Stateful.multiStdioToStatefulStreamableHttp
         (Stateful.mkMultiArgs
            [ mkServer "/git" "node server.js"; mkServer "/docker" "node server.js" ]
            (Stateful.mkOptions 8000 "/mcp" None [] [] (Some 0)))) in
  selects_stateful by_name = true /\
  selects_stateful by_file = true /\
  sessionTimeout by_name = Some 0 /\
  sessionTimeout by_file = Some 0 /\
  main version Unreadable by_name = started /\
  main version file by_file = started /\
  started <> Exit 1 /\
  match started with
  | StartedStateful (_, bindings) =>
      map (fun b => (Stateful.fullPath b, Stateful.sessionCounter (Stateful.state b))) bindings
      = [ ("/git/mcp", None); ("/docker/mcp", None) ]
  | _ => False
  end /\
  main version Unreadable (stateful_argv (Some ["node server.js"]) None 0) = Exit 1.
Proof.
  cbn zeta. repeat (split; [vm_compute; reflexivity || discriminate|]).
  vm_compute. reflexivity.
Qed.

End CliFacts.

Section StatefulTraceFacts.

Import Stateful StatefulObs.

Lemma keeps_io_refl ref st : keeps_io ref st st.
Proof. intros c Hc. eauto. Qed.

Lemma keeps_io_trans ref st1 st2 st3 :
  keeps_io ref st1 st2 -> keeps_io ref st2 st3 -> keeps_io ref st1 st3.
Proof.
  intros H12 H23 c Hc. destruct (H12 c Hc) as (c2 & Hc2 & Ha & Hb).
  destruct (H23 c2 Hc2) as (c3 & Hc3 & Ha' & Hb'). exists c3. split; [exact Hc3|].
  split; congruence.
Qed.

Lemma keeps_io_same_heap ref st st' : heap st' = heap st -> keeps_io ref st st'.
Proof. intros E c Hc. rewrite E. eauto. Qed.

Lemma keeps_io_update_conn ref r f st :
  (forall c, stdin (child (f c)) = stdin (child c) /\
             sent (transport (f c)) = sent (transport c)) ->
  keeps_io ref st (update_conn r f st).
Proof.
  intros Hf c Hc. cbn [update_conn heap].
  destruct (decide (r = ref)) as [->|Hne].
  - exists (f c). rewrite list_lookup_alter_eq, Hc. cbn. destruct (Hf c). auto.
  - exists c. rewrite list_lookup_alter_ne by exact Hne. auto.
Qed.

Lemma keeps_io_counter_clear ref id fire st : keeps_io ref st (counter_clear id fire st).
Proof. apply keeps_io_same_heap. apply counter_clear_core. Qed.

Lemma keeps_io_kill ref r st : keeps_io ref st (kill r st).
Proof. apply keeps_io_update_conn. intros c. split; reflexivity. Qed.

Lemma keeps_io_mark_reported ref r st : keeps_io ref st (mark_reported r st).
Proof. apply keeps_io_update_conn. intros c. split; reflexivity. Qed.

Lemma keeps_io_onclose ref r st : keeps_io ref st (onclose r st).
Proof.
  unfold onclose. destruct (heap st !! r) as [conn|]; [|apply keeps_io_refl].
  eapply keeps_io_trans; [|apply keeps_io_kill].
  destruct (sessionId (transport conn)) as [id|]; [|apply keeps_io_refl].
  destruct (truthy_str (Some id)); [|apply keeps_io_refl].
  apply keeps_io_same_heap. cbn. apply counter_clear_core.
Qed.

Lemma keeps_io_transport_close ref r st : keeps_io ref st (transport_close r st).
Proof.
  unfold transport_close.
  eapply keeps_io_trans; [apply keeps_io_mark_reported|apply keeps_io_onclose].
Qed.

Lemma keeps_io_onExpire ref id st : keeps_io ref st (onExpire id st).
Proof.
  unfold onExpire.
  set (st1 := mkState _ _ _ _).
  assert (H1 : keeps_io ref st st1) by (apply keeps_io_same_heap; reflexivity).
  cbv zeta. eapply keeps_io_trans; [exact H1|].
  destruct (slot id (transports st1)) as [r| |].
  - eapply keeps_io_trans; [apply keeps_io_transport_close|].
    apply keeps_io_same_heap. reflexivity.
  - apply keeps_io_refl.
  - apply keeps_io_same_heap. reflexivity.
Qed.

Lemma keeps_io_sdk_initialize ref r new st : keeps_io ref st (sdk_initialize r new st).
Proof.
  unfold sdk_initialize. set (st2 := update_conn _ _ st).
  assert (H2 : keeps_io ref st st2).
  { apply keeps_io_update_conn. intros c. split; reflexivity. }
  destruct (truthy_str (Some new)); [|exact H2].
  eapply keeps_io_trans; [exact H2|]. apply keeps_io_same_heap. reflexivity.
Qed.

Lemma keeps_io_post ref cmd hdr body generated st :
  keeps_io ref st (step cmd st (EvPost hdr body generated)).
Proof.
  cbn [step]. unfold post.
  destruct (session_slot hdr st) as [[id [r| |]]|];
    try (apply keeps_io_same_heap; reflexivity);
    (destruct (negb (truthy_str hdr) && isInitializeRequest body); [|apply keeps_io_refl]);
    set (st1 := mkState _ _ _ _);
    (assert (H1 : keeps_io ref st st1);
     [intros c Hc; exists c; subst st1; cbn [heap];
      rewrite lookup_app_l by (eapply lookup_lt_Some, Hc); auto|]);
    (destruct generated as [new|]; [|exact H1]);
    (eapply keeps_io_trans; [exact H1|]); apply keeps_io_sdk_initialize.
Qed.

Lemma keeps_io_handleSessionRequest ref hdr st :
  keeps_io ref st (snd (handleSessionRequest hdr st)).
Proof.
  unfold handleSessionRequest.
  destruct (session_slot hdr st) as [[id [r| |]]|];
    try apply keeps_io_refl; apply keeps_io_same_heap; reflexivity.
Qed.

(** Every event other than a message for [ref] leaves both logs alone. *)
Lemma keeps_io_step ref cmd st ev :
  match ev with
  | EvMessage r _ | EvChildMessage r _ => r <> ref
  | _ => True
  end ->
  keeps_io ref st (step cmd st ev).
Proof.
  intros Hev. destruct ev as [sid body gen|sid|sid|r|sid|r msg|r msg|r|r|r|id].
  - apply keeps_io_post.
  - apply keeps_io_handleSessionRequest.
  - cbn [step]. pose proof (keeps_io_handleSessionRequest ref sid st) as H.
    destruct (handleSessionRequest sid st) as [[r|r|r|] st']; cbn [snd] in H; auto.
    eapply keeps_io_trans; [exact H|apply keeps_io_transport_close].
  - cbn [step]. unfold handleResponseEnd.
    destruct (heap st !! r) as [conn|]; [|apply keeps_io_refl].
    destruct (sessionId (transport conn)) as [id|]; [|apply keeps_io_refl].
    destruct (truthy_str (Some id)); [|apply keeps_io_refl].
    apply keeps_io_same_heap. reflexivity.
  - apply keeps_io_same_heap. reflexivity.
  - cbn [step]. intros c Hc. exists c. unfold onmessage. cbn [update_conn heap].
    rewrite list_lookup_alter_ne by exact Hev. auto.
  - cbn [step]. intros c Hc. exists c. unfold child_message. cbn [update_conn heap].
    rewrite list_lookup_alter_ne by exact Hev. auto.
  - apply keeps_io_transport_close.
  - apply keeps_io_transport_close.
  - apply keeps_io_transport_close.
  - cbn [step]. destruct (sessionCounter st) as [c0|]; [|apply keeps_io_refl].
    unfold SessionAccessCounter.expire.
    destruct (bool_decide (id ∈ SessionAccessCounter.timers c0)); cbn [fold_left].
    + eapply keeps_io_trans; [|apply keeps_io_onExpire].
      apply keeps_io_same_heap. reflexivity.
    + apply keeps_io_same_heap. reflexivity.
Qed.

(** X1 - Ordering in the stateful adapter.  Once the objects of a session
    exist, the child's stdin holds, after any further events, what it held
    before followed by exactly the messages its transport's onmessage was
    given, in the order they came; and the transport was given to send
    exactly the child's parsed lines, in order.  No other event (POSTs,
    GET/DELETE, response ends, close, error, child exit, timers, traffic
    of other sessions) writes to either. *)
Theorem X1_stateful_messages_in_order (stdioCmd : string) (st : State)
    (evs : list Event) (ref : nat) (conn : Conn) :
  heap st !! ref = Some conn ->
  let st' := fold_left (step stdioCmd) evs st in
  stdin_of ref st' = Some (stdin (child conn) ++ messages_to ref evs) /\
  sent_of ref st' = Some (sent (transport conn) ++ child_messages_of ref evs).
Proof.
  revert st conn. induction evs as [|ev evs IH]; intros st conn Hc; cbn zeta.
  - cbn. unfold stdin_of, sent_of. rewrite Hc. cbn. rewrite !app_nil_r. auto.
  - cbn [fold_left].
    assert (Hstep : exists c', heap (step stdioCmd st ev) !! ref = Some c' /\
              stdin (child c') ++ messages_to ref evs =
                stdin (child conn) ++ messages_to ref (ev :: evs) /\
              sent (transport c') ++ child_messages_of ref evs =
                sent (transport conn) ++ child_messages_of ref (ev :: evs)).
    { destruct ev as [sid body gen|sid|sid|r|sid|r msg|r msg|r|r|r|id];
        try (edestruct (keeps_io_step ref stdioCmd st) as (c' & Hc' & Ha & Hb);
             [|exact Hc|exists c'; split; [exact Hc'|]; cbn [messages_to child_messages_of];
                        rewrite Ha, Hb; auto]; exact I).
      - destruct (Nat.eqb_spec r ref) as [->|Hne].
        + cbn [step]. unfold onmessage. cbn [update_conn heap].
          eexists. rewrite list_lookup_alter_eq, Hc. split; [reflexivity|].
          cbn. rewrite Nat.eqb_refl, <- app_assoc. auto.
        + edestruct (keeps_io_step ref stdioCmd st (EvMessage r msg)) as (c' & Hc' & Ha & Hb);
            [exact Hne|exact Hc|].
          exists c'. split; [exact Hc'|]. cbn [messages_to child_messages_of].
          apply Nat.eqb_neq in Hne. rewrite Hne, Ha, Hb. auto.
      - destruct (Nat.eqb_spec r ref) as [->|Hne].
        + cbn [step]. unfold child_message. cbn [update_conn heap].
          eexists. rewrite list_lookup_alter_eq, Hc. split; [reflexivity|].
          cbn. rewrite Nat.eqb_refl, <- app_assoc. auto.
        + edestruct (keeps_io_step ref stdioCmd st (EvChildMessage r msg))
            as (c' & Hc' & Ha & Hb); [exact Hne|exact Hc|].
          exists c'. split; [exact Hc'|]. cbn [messages_to child_messages_of].
          apply Nat.eqb_neq in Hne. rewrite Hne, Ha, Hb. auto. }
    destruct Hstep as (c' & Hc' & Ha & Hb).
    destruct (IH _ _ Hc') as [IHa IHb]. rewrite IHa, IHb, Ha, Hb. auto.
Qed.

Lemma X1_stateful_messages_in_order_witness :
  let st := run "node server.js" None [EvPost None sample_initialize (Some "s-1")] in
  let evs := [ EvMessage 0 (JStr "a"); EvChildMessage 0 (JStr "x"); EvClose 0;
               EvMessage 1 (JStr "other"); EvMessage 0 (JStr "b") ] in
  let st' := fold_left (step "node server.js") evs st in
  stdin_of 0 st' = Some ([] ++ messages_to 0 evs) /\
  sent_of 0 st' = Some ([] ++ child_messages_of 0 evs).
Proof.
  apply (X1_stateful_messages_in_order "node server.js"
           (run "node server.js" None [EvPost None sample_initialize (Some "s-1")])
           [ EvMessage 0 (JStr "a"); EvChildMessage 0 (JStr "x"); EvClose 0;
             EvMessage 1 (JStr "other"); EvMessage 0 (JStr "b") ]
           0%nat
           (mkConn (mkTransport (Some "s-1") GenRandomUUID false [])
                   (mkChild "node server.js" false []))).
  vm_compute. reflexivity.
Defined.

(* ---- no session timeout, no expiry ---- *)

Lemma quiet_counter_clear id fire st :
  sessionCounter st = None -> counter_clear id fire st = st.
Proof. intros E. unfold counter_clear. rewrite E. reflexivity. Qed.

Lemma quiet_onclose r st :
  sessionCounter st = None ->
  sessionCounter (onclose r st) = None /\ expired (onclose r st) = expired st.
Proof.
  intros E. unfold onclose. destruct (heap st !! r) as [conn|]; [|auto].
  destruct (sessionId (transport conn)) as [id|]; [|cbn; auto].
  destruct (truthy_str (Some id)); [|cbn; auto].
  rewrite (quiet_counter_clear id false st E). cbn. auto.
Qed.

Lemma quiet_transport_close r st :
  sessionCounter st = None ->
  sessionCounter (transport_close r st) = None /\
  expired (transport_close r st) = expired st.
Proof. intros E. unfold transport_close. apply (quiet_onclose r (mark_reported r st)), E. Qed.

Lemma quiet_step cmd st ev :
  sessionCounter st = None ->
  sessionCounter (step cmd st ev) = None /\ expired (step cmd st ev) = expired st.
Proof.
  intros E. destruct ev as [sid body gen|sid|sid|r|sid|r msg|r msg|r|r|r|id]; cbn [step].
  - unfold post. destruct (session_slot sid st) as [[id [r| |]]|];
      try (cbn; rewrite E; auto; fail);
      (destruct (negb (truthy_str sid) && isInitializeRequest body); [|auto]);
      (destruct gen as [new|]; [|cbn; auto]);
      unfold sdk_initialize; destruct (truthy_str (Some new)); cbn; rewrite E; auto.
  - unfold handleSessionRequest.
    destruct (session_slot sid st) as [[id [r| |]]|]; cbn; try rewrite E; auto.
  - unfold handleSessionRequest.
    destruct (session_slot sid st) as [[id [r| |]]|]; try (cbn; try rewrite E; auto; fail).
    destruct (quiet_transport_close r (counter_inc id st)) as [H1 H2];
      [cbn; rewrite E; reflexivity|]. auto.
  - unfold handleResponseEnd. destruct (heap st !! r) as [conn|]; [|auto].
    destruct (sessionId (transport conn)) as [id|]; [|auto].
    destruct (truthy_str (Some id)); [|auto]. cbn. rewrite E. auto.
  - cbn. rewrite E. auto.
  - cbn. auto.
  - cbn. auto.
  - apply quiet_transport_close, E.
  - apply quiet_transport_close, E.
  - apply (quiet_transport_close r st E).
  - rewrite E. auto.
Qed.

(** X2 - No timeout, no expiry.  When sessionTimeout is null or 0 the
    binding is built without a session counter, and then, whatever
    happens to it, no counter appears and onExpire is never invoked:
    sessions end only by transport close or error. *)
Theorem X2_no_timeout_no_expiry (stdioCmd : string) (sessionTimeout : option Z)
    (evs : list Event) :
  truthy_num sessionTimeout = false ->
  sessionCounter (run stdioCmd sessionTimeout evs) = None /\
  expired (run stdioCmd sessionTimeout evs) = [].
Proof.
  intros Hoff. unfold run.
  assert (H0 : sessionCounter (init sessionTimeout) = None /\
               expired (init sessionTimeout) = []).
  { unfold init. rewrite Hoff. auto. }
  revert H0. generalize (init sessionTimeout).
  induction evs as [|ev evs IH]; intros st [Hc He]; [auto|].
  cbn [fold_left]. apply IH.
  destruct (quiet_step stdioCmd st ev Hc) as [H1 H2]. split; congruence.
Qed.

Lemma X2_no_timeout_no_expiry_witness :
  let evs := [ EvPost None sample_initialize (Some "s-1"); EvResponseEnd 0;
               EvTimer "s-1"; EvDelete (Some "s-1") ] in
  sessionCounter (run "node server.js" (Some 0) evs) = None /\
  expired (run "node server.js" (Some 0) evs) = [].
Proof.
  apply (X2_no_timeout_no_expiry "node server.js" (Some 0)
           [ EvPost None sample_initialize (Some "s-1"); EvResponseEnd 0;
             EvTimer "s-1"; EvDelete (Some "s-1") ]).
  reflexivity.
Defined.

(** X3 - After expiry.  Once onExpire has run for a session id that is not
    the name of a property every object inherits (no id the adapter
    issues is), the binding's handlers refuse a request that carries this
    id: the POST handler with 400 and the JSON-RPC error -32000 "Bad
    Request: No valid session ID provided", even when the body is an
    initialize request, handleSessionRequest (GET and DELETE) with 400
    and the text "Invalid or missing session ID". *)
Theorem X3_expired_session_is_refused (stdioCmd id : string) (body : JSON) (st : State) :
  id <> "" -> inherited id = false ->
  let st' := onExpire id st in
  transports st' !! id = None /\
  post stdioCmd (Some id) body st' =
    (Answered (mkResponse 400
       (BodyJson (JObj [ ("jsonrpc", JStr "2.0");
                         ("error", JObj [ ("code", JNum (-32000));
                                          ("message", JStr "Bad Request: No valid session ID provided") ]);
                         ("id", JNull) ]%string))), st') /\
  handleSessionRequest (Some id) st' =
    (Answered (mkResponse 400 (BodyText "Invalid or missing session ID")), st').
Proof.
  intros Hne Hinh. cbn zeta.
  assert (Hgone : transports (onExpire id st) !! id = None).
  { unfold onExpire. cbv zeta. unfold slot. cbn [transports].
    destruct (transports st !! id) as [ref|].
    - cbn [set_transports transports]. apply lookup_delete_eq.
    - rewrite Hinh. cbn [set_transports transports]. apply lookup_delete_eq. }
  split; [exact Hgone|].
  split.
  - unfold post. rewrite (session_slot_truthy id _ Hne), (slot_missing id _ Hgone Hinh).
    unfold truthy_str. apply String.eqb_neq in Hne. rewrite Hne. reflexivity.
  - unfold handleSessionRequest.
    rewrite (session_slot_truthy id _ Hne), (slot_missing id _ Hgone Hinh). reflexivity.
Qed.

Lemma X3_expired_session_is_refused_witness :
  let st := run "node server.js" (Some 250)
              [EvPost None sample_initialize (Some "s-1"); EvResponseEnd 0] in
  let st' := onExpire "s-1" st in
  transports st' !! "s-1" = None /\
  post "node server.js" (Some "s-1") sample_initialize st' =
    (Answered (mkResponse 400
       (BodyJson (JObj [ ("jsonrpc", JStr "2.0");
                         ("error", JObj [ ("code", JNum (-32000));
                                          ("message", JStr "Bad Request: No valid session ID provided") ]);
                         ("id", JNull) ]%string))), st') /\
  handleSessionRequest (Some "s-1") st' =
    (Answered (mkResponse 400 (BodyText "Invalid or missing session ID")), st').
Proof.
  apply (X3_expired_session_is_refused "node server.js" "s-1" sample_initialize
           (run "node server.js" (Some 250)
              [EvPost None sample_initialize (Some "s-1"); EvResponseEnd 0])).
  - discriminate.
  - reflexivity.
Defined.

(* ---- kill and report go together ---- *)

Lemma onclose_heap_eq r st :
  heap (onclose r st) =
  match heap st !! r with
  | Some _ => alter (fun c => mkConn (transport c)
                                (mkChild (command (child c)) true (stdin (child c))))
                r (heap st)
  | None => heap st
  end.
Proof.
  unfold onclose. destruct (heap st !! r) as [conn|]; [|reflexivity].
  unfold kill. cbn [update_conn heap]. f_equal.
  destruct (sessionId (transport conn)) as [id|]; [|reflexivity].
  destruct (truthy_str (Some id)); [|reflexivity].
  cbn. apply counter_clear_core.
Qed.

Lemma flags_transport_close r st :
  Forall (fun c => killed (child c) = reported (transport c)) (heap st) ->
  Forall (fun c => killed (child c) = reported (transport c)) (heap (transport_close r st)).
Proof.
  intros H. unfold transport_close. rewrite onclose_heap_eq.
  cbn [mark_reported update_conn heap]. rewrite list_lookup_alter_eq.
  destruct (heap st !! r) as [c|] eqn:Hc; cbn [fmap option_fmap option_map].
  - rewrite list_alter_alter_eq. apply Forall_alter; [exact H|].
    intros x _ _. reflexivity.
  - apply Forall_alter; [exact H|]. intros x Hx. congruence.
Qed.

Lemma flags_step cmd st ev :
  Forall (fun c => killed (child c) = reported (transport c)) (heap st) ->
  Forall (fun c => killed (child c) = reported (transport c)) (heap (step cmd st ev)).
Proof.
  intros H. destruct ev as [sid body gen|sid|sid|r|sid|r msg|r msg|r|r|r|id]; cbn [step].
  - assert (H1 : Forall (fun c => killed (child c) = reported (transport c))
                   (heap st ++ [mkConn (mkTransport None GenRandomUUID false [])
                                       (mkChild cmd false [])])).
    { apply Forall_app. split; [exact H|]. repeat constructor. }
    assert (H2 : forall new l,
              Forall (fun c => killed (child c) = reported (transport c)) l ->
              Forall (fun c => killed (child c) = reported (transport c))
                (alter (fun c => mkConn (mkTransport (Some new) (sessionIdGenerator (transport c))
                                           (reported (transport c)) (sent (transport c)))
                                   (child c)) (length (heap st)) l)).
    { intros new l Hl. apply Forall_alter; [exact Hl|]. intros x _ Hx. exact Hx. }
    unfold post. destruct (session_slot sid st) as [[id [r| |]]|]; try exact H;
      (destruct (negb (truthy_str sid) && isInitializeRequest body); [|exact H]);
      (destruct gen as [new|]; [|exact H1]);
      unfold sdk_initialize;
      destruct (truthy_str (Some new)); cbn [heap update_conn onsessioninitialized
        counter_inc set_transports]; apply H2, H1.
  - unfold handleSessionRequest.
    destruct (session_slot sid st) as [[id [r| |]]|]; exact H.
  - unfold handleSessionRequest.
    destruct (session_slot sid st) as [[id [r| |]]|]; try exact H.
    apply flags_transport_close. exact H.
  - unfold handleResponseEnd. destruct (heap st !! r) as [conn|]; [|exact H].
    destruct (sessionId (transport conn)) as [id|]; [|exact H].
    destruct (truthy_str (Some id)); exact H.
  - exact H.
  - cbn. apply Forall_alter; [exact H|]. intros x _ Hx. exact Hx.
  - cbn. apply Forall_alter; [exact H|]. intros x _ Hx. exact Hx.
  - apply flags_transport_close, H.
  - apply flags_transport_close, H.
  - apply (flags_transport_close r st H).
  - destruct (sessionCounter st) as [c0|]; [|exact H].
    unfold SessionAccessCounter.expire.
    destruct (bool_decide (id ∈ SessionAccessCounter.timers c0)); cbn [fold_left]; [|exact H].
    unfold onExpire. cbv zeta.
    match goal with |- context [slot id ?t] => destruct (slot id t) as [r| |] end;
      cbn [transports heap set_transports]; try exact H.
    apply (flags_transport_close r). exact H.
Qed.

(** X4 - Kill and report go together.  In every state a binding can reach,
    child.kill() has been called on a session's child exactly when its
    transport has delivered close or error (child exit, DELETE and expiry
    all end in the transport's close): no child is killed while its
    transport is live, and none outlives its transport. *)
Theorem X4_child_killed_iff_transport_ended (stdioCmd : string)
    (sessionTimeout : option Z) (evs : list Event) (ref : nat) (conn : Conn) :
  heap (run stdioCmd sessionTimeout evs) !! ref = Some conn ->
  killed (child conn) = reported (transport conn).
Proof.
  assert (H : Forall (fun c => killed (child c) = reported (transport c))
                (heap (run stdioCmd sessionTimeout evs))).
  { unfold run.
    assert (H0 : Forall (fun c => killed (child c) = reported (transport c))
                   (heap (init sessionTimeout))) by constructor.
    revert H0. generalize (init sessionTimeout).
    induction evs as [|ev evs IH]; intros st H0; [exact H0|].
    cbn [fold_left]. apply IH, flags_step, H0. }
  intros Hc. exact (proj1 (Forall_lookup _ _) H ref conn Hc).
Qed.

Lemma X4_child_killed_iff_transport_ended_witness :
  killed (child (mkConn (mkTransport (Some "s-1") GenRandomUUID true [])
                        (mkChild "node server.js" true []))) =
  reported (transport (mkConn (mkTransport (Some "s-1") GenRandomUUID true [])
                              (mkChild "node server.js" true []))).
Proof.
  apply (X4_child_killed_iff_transport_ended "node server.js" (Some 250)
           [EvPost None sample_initialize (Some "s-1"); EvChildExit 0] 0%nat).
  vm_compute. reflexivity.
Defined.

(** X5 - One session id per transport.  In every state a binding can
    reach, the transport stored under a session id carries that id in
    transport.sessionId; hence no transport object is registered under
    two ids. *)
Theorem X5_one_session_id_per_transport (stdioCmd : string)
    (sessionTimeout : option Z) (evs : list Event) (id1 id2 : string) (ref : nat) :
  let st := run stdioCmd sessionTimeout evs in
  transports st !! id1 = Some ref -> transports st !! id2 = Some ref ->
  id1 = id2 /\
  exists conn, heap st !! ref = Some conn /\ sessionId (transport conn) = Some id1.
Proof.
  intros st H1 H2. pose proof (table_ok_run stdioCmd sessionTimeout evs) as Hok.
  fold st in Hok.
  destruct (Hok id1 ref H1) as (_ & c1 & Hc1 & Hs1 & _).
  destruct (Hok id2 ref H2) as (_ & c2 & Hc2 & Hs2 & _).
  split; [congruence|eauto].
Qed.

Lemma X5_one_session_id_per_transport_witness :
  let st := run "node server.js" None
              [ EvPost None sample_initialize (Some "s-1");
                EvPost None sample_initialize (Some "s-2") ] in
  "s-2" = "s-2" /\
  exists conn, heap st !! 1%nat = Some conn /\ sessionId (transport conn) = Some "s-2".
Proof.
  apply (X5_one_session_id_per_transport "node server.js" None
           [ EvPost None sample_initialize (Some "s-1");
             EvPost None sample_initialize (Some "s-2") ] "s-2" "s-2" 1%nat);
    vm_compute; reflexivity.
Defined.

End StatefulTraceFacts.

Section StatelessTraceFacts.

Import Stateless StatelessObs.

(** X6 - A client that initializes by itself.  When the first message of a
    POST is a well-formed initialize request (the required parts and
    nothing the SDK's schema could object to) with a truthy id, it is
    written to the child as it is and no initialize request is
    generated; child output that does not answer the id is forwarded,
    the answer is forwarded too, the POST then counts as initialized, and
    everything the child says afterwards is forwarded. *)
Theorem X6_client_initialize_passes_through (cfg : Config) (millis random : string)
    (m id : JSON) (before : list JSON) (r : JSON) (after : list JSON) :
  plain_initialize m = true ->
  prop "id" m = Some id ->
  truthy_json (Some id) = true ->
  Forall (fun x => answers id x = false) before ->
  answers id r = true ->
  let st := run cfg (EvMessage millis random m ::
                     map EvChildMessage (before ++ r :: after)) in
  stdin st = [m] /\
  sent st = List.filter not_null before ++ r :: after /\
  isInitialized st = true /\
  initializeRequestId st = None.
Proof.
  intros Hplain Hid Ht Hbefore Hr st. subst st.
  assert (Hm : isInitializeRequest m = true).
  { unfold plain_initialize in Hplain.
    destruct (isInitializeRequest m); [reflexivity|discriminate Hplain]. }
  change (EvMessage millis random m :: map EvChildMessage (before ++ r :: after))
    with ([EvMessage millis random m] ++ map EvChildMessage (before ++ r :: after)).
  rewrite run_app, map_app, fold_left_app.
  assert (E0 : run cfg [EvMessage millis random m] =
               mkState false (Some id) false None [m] [] false).
  { unfold run. cbn [fold_left step]. unfold onmessage. cbn [init isInitialized negb].
    rewrite Hm, Hid. cbn. reflexivity. }
  rewrite E0.
  rewrite (child_messages_before_answer cfg id before); [|reflexivity|exact Ht|exact Hbefore].
  cbn [isInitialized initializeRequestId isAutoInitializing pendingOriginalMessage
       stdin sent killed app map fold_left step].
  assert (E1 : forall s,
             child_message r (mkState false (Some id) false None [m] s false) =
             mkState true None false None [m] (s ++ [r]) false).
  { intros s. unfold child_message.
    cbn [initializeRequestId isAutoInitializing pendingOriginalMessage stdin sent killed].
    rewrite Ht. unfold answers in Hr.
    destruct r; try discriminate Hr; rewrite Hr; reflexivity. }
  rewrite E1, child_messages_untracked by reflexivity.
  cbn. rewrite <- app_assoc. auto.
Qed.

Lemma X6_client_initialize_passes_through_witness :
  let cfg := mkConfig "node server.js" "2024-11-05" "3.4.0" in
  let st := run cfg (EvMessage "1730000000000" "k3j9x0q2a" Stateful.sample_initialize ::
                     map EvChildMessage
                       ([JStr "log line"] ++ result_for (JNum 1) :: [JStr "later"])) in
  stdin st = [Stateful.sample_initialize] /\
  sent st = List.filter not_null [JStr "log line"] ++ result_for (JNum 1) :: [JStr "later"] /\
  isInitialized st = true /\
  initializeRequestId st = None.
Proof.
  apply (X6_client_initialize_passes_through
           (mkConfig "node server.js" "2024-11-05" "3.4.0")
           "1730000000000" "k3j9x0q2a" Stateful.sample_initialize (JNum 1)
           [JStr "log line"] (result_for (JNum 1)) [JStr "later"]).
  - reflexivity.
  - reflexivity.
  - reflexivity.
  - repeat constructor.
  - reflexivity.
Defined.

Lemma transparent_step (cfg : Config) (st : State) (ev : Event) :
  isInitialized st = true -> initializeRequestId st = None ->
  match ev with
  | EvMessage _ _ msg => isInitializeRequest msg = false
  | _ => True
  end ->
  let st' := step cfg st ev in
  isInitialized st' = true /\ initializeRequestId st' = None /\
  stdin st' = stdin st ++ client_messages [ev] /\
  sent st' = sent st ++ child_messages [ev].
Proof.
  intros Hi Hid Hev. destruct ev as [millis random msg|jsonMsg| | |]; cbn zeta; cbn [step].
  - unfold onmessage. rewrite Hi, Hev. cbn. rewrite app_nil_r. auto.
  - unfold child_message. rewrite Hid. cbn. rewrite app_nil_r. auto.
  - cbn. rewrite !app_nil_r. auto.
  - cbn. rewrite !app_nil_r. auto.
  - cbn. rewrite !app_nil_r. auto.
Qed.

Lemma client_messages_cons (ev : Event) (evs : list Event) :
  client_messages (ev :: evs) = client_messages [ev] ++ client_messages evs.
Proof. destruct ev; reflexivity. Qed.

Lemma child_messages_cons (ev : Event) (evs : list Event) :
  child_messages (ev :: evs) = child_messages [ev] ++ child_messages evs.
Proof. destruct ev; reflexivity. Qed.

(** X7 - Transparent once initialized.  After the handshake (isInitialized
    set, no id tracked any more), and as long as the client sends no
    initialize request, the interposer is a plain pipe: every client
    message is written to the child's stdin and every child message is
    forwarded, each side in its order, nothing added and nothing held
    back. *)
Theorem X7_transparent_once_initialized (cfg : Config) (st : State) (evs : list Event) :
  isInitialized st = true -> initializeRequestId st = None -> no_initialize evs ->
  let st' := fold_left (step cfg) evs st in
  stdin st' = stdin st ++ client_messages evs /\
  sent st' = sent st ++ child_messages evs /\
  isInitialized st' = true.
Proof.
  intros Hi Hid Hno. revert st Hi Hid.
  induction Hno as [|ev evs Hev _ IH]; intros st Hi Hid; cbn zeta.
  - cbn. rewrite !app_nil_r. auto.
  - cbn [fold_left].
    destruct (transparent_step cfg st ev Hi Hid Hev) as (Hi' & Hid' & Ha & Hb).
    destruct (IH _ Hi' Hid') as (IHa & IHb & IHc).
    rewrite IHa, IHb, Ha, Hb, <- !app_assoc.
    rewrite <- client_messages_cons, <- child_messages_cons. auto.
Qed.

Lemma X7_transparent_once_initialized_witness :
  let cfg := mkConfig "node server.js" "2024-11-05" "3.4.0" in
  let st := run cfg [ EvMessage "1730000000000" "k3j9x0q2a" (request 1 "tools/list");
                      EvChildMessage
                        (result_for (JStr (auto_id "1730000000000" "k3j9x0q2a"))) ] in
  let evs := [ EvChildMessage (result_for (JNum 1));
               EvMessage "1730000000001" "aaaaaaaaa" (request 2 "tools/call");
               EvChildMessage (result_for (JNum 2)) ] in
  let st' := fold_left (step cfg) evs st in
  stdin st' = stdin st ++ client_messages evs /\
  sent st' = sent st ++ child_messages evs /\
  isInitialized st' = true.
Proof.
  apply (X7_transparent_once_initialized
           (mkConfig "node server.js" "2024-11-05" "3.4.0")
           (run (mkConfig "node server.js" "2024-11-05" "3.4.0")
              [ EvMessage "1730000000000" "k3j9x0q2a" (request 1 "tools/list");
                EvChildMessage
                  (result_for (JStr (auto_id "1730000000000" "k3j9x0q2a"))) ])
           [ EvChildMessage (result_for (JNum 1));
             EvMessage "1730000000001" "aaaaaaaaa" (request 2 "tools/call");
             EvChildMessage (result_for (JNum 2)) ]).
  - reflexivity.
  - reflexivity.
  - repeat constructor.
Defined.

(* ---- where written and forwarded messages come from ---- *)

Lemma written_ok_mono (cfg : Config) (evs : list Event) (ev : Event) (x : JSON) :
  written_ok cfg evs x -> written_ok cfg (evs ++ [ev]) x.
Proof.
  intros [(mi & ra & H) | [(mi & ra & msg & H & E) | E]].
  - left. exists mi, ra. apply in_or_app. auto.
  - right. left. exists mi, ra, msg. split; [apply in_or_app; auto|exact E].
  - right. right. exact E.
Qed.

Lemma from_client_mono (evs : list Event) (ev : Event) (x : JSON) :
  from_client evs x -> from_client (evs ++ [ev]) x.
Proof. intros (mi & ra & H). exists mi, ra. apply in_or_app. auto. Qed.

Lemma from_child_mono (evs : list Event) (ev : Event) (y : JSON) :
  from_child evs y -> from_child (evs ++ [ev]) y.
Proof. unfold from_child. intros H. apply in_or_app. auto. Qed.

Lemma provenance_step (cfg : Config) (evs : list Event) (st : State) (ev : Event) :
  Forall (written_ok cfg evs) (stdin st) ->
  Forall (from_child evs) (sent st) ->
  (forall m, pendingOriginalMessage st = Some m -> from_client evs m) ->
  Forall (written_ok cfg (evs ++ [ev])) (stdin (step cfg st ev)) /\
  Forall (from_child (evs ++ [ev])) (sent (step cfg st ev)) /\
  (forall m, pendingOriginalMessage (step cfg st ev) = Some m ->
     from_client (evs ++ [ev]) m).
Proof.
  intros Hin Hout Hpend.
  assert (Hin' : Forall (written_ok cfg (evs ++ [ev])) (stdin st)).
  { eapply List.Forall_impl; [|exact Hin]. intros x. apply written_ok_mono. }
  assert (Hout' : Forall (from_child (evs ++ [ev])) (sent st)).
  { eapply List.Forall_impl; [|exact Hout]. intros x. apply from_child_mono. }
  assert (Hpend' : forall m, pendingOriginalMessage st = Some m -> from_client (evs ++ [ev]) m).
  { intros m Hm. apply from_client_mono, Hpend, Hm. }
  destruct ev as [millis random msg|jsonMsg| | |]; cbn [step].
  - assert (Hmsg : from_client (evs ++ [EvMessage millis random msg]) msg).
    { exists millis, random. apply in_or_app. right. left. reflexivity. }
    unfold onmessage.
    destruct (negb (isInitialized st) && negb (isInitializeRequest msg)).
    + cbn. split; [|split; [exact Hout'|]].
      * apply Forall_app. split; [exact Hin'|]. constructor; [|constructor].
        right. left. exists millis, random, msg. split; [|reflexivity].
        apply in_or_app. right. left. reflexivity.
      * intros m E. injection E as <-. exact Hmsg.
    + destruct (isInitializeRequest msg && bool_decide (is_Some (prop "id" msg))); cbn;
        (split; [apply Forall_app; split; [exact Hin'|]; constructor; [left; exact Hmsg|constructor]
                |split; [exact Hout'|exact Hpend']]).
  - assert (Hy : from_child (evs ++ [EvChildMessage jsonMsg]) jsonMsg).
    { apply in_or_app. right. left. reflexivity. }
    assert (Hsend : forall s, Forall (from_child (evs ++ [EvChildMessage jsonMsg])) (sent s) ->
              Forall (from_child (evs ++ [EvChildMessage jsonMsg])) (sent (send jsonMsg s))).
    { intros s Hs. cbn. apply Forall_app. split; [exact Hs|]. constructor; [exact Hy|constructor]. }
    unfold child_message.
    destruct (truthy_json (initializeRequestId st)); [|cbn [send stdin pendingOriginalMessage]; auto].
    assert (Hbody :
      let s' := if strict_eq (prop "id" jsonMsg) (initializeRequestId st) then
                  if isAutoInitializing st then
                    mkState true None false
                      (if truthy_json (pendingOriginalMessage st) then None
                       else pendingOriginalMessage st)
                      (if truthy_json (pendingOriginalMessage st)
                       then match pendingOriginalMessage st with
                            | Some m => (stdin st ++ [createInitializedNotification]) ++ [m]
                            | None => stdin st ++ [createInitializedNotification]
                            end
                       else stdin st ++ [createInitializedNotification])
                      (sent st) (killed st)
                  else send jsonMsg
                         (mkState true None (isAutoInitializing st) (pendingOriginalMessage st)
                            (stdin st) (sent st) (killed st))
                else send jsonMsg st in
      Forall (written_ok cfg (evs ++ [EvChildMessage jsonMsg])) (stdin s') /\
      Forall (from_child (evs ++ [EvChildMessage jsonMsg])) (sent s') /\
      (forall m, pendingOriginalMessage s' = Some m ->
         from_client (evs ++ [EvChildMessage jsonMsg]) m)).
    { cbn zeta. destruct (strict_eq (prop "id" jsonMsg) (initializeRequestId st)).
      2:{ cbn [send stdin pendingOriginalMessage]. auto. }
      destruct (isAutoInitializing st).
      2:{ split; [exact Hin'|]. split; [apply (Hsend (mkState _ _ _ _ _ _ _)); exact Hout'|exact Hpend']. }
      cbn [stdin sent pendingOriginalMessage].
      assert (Hn : Forall (written_ok cfg (evs ++ [EvChildMessage jsonMsg]))
                     (stdin st ++ [createInitializedNotification])).
      { apply Forall_app. split; [exact Hin'|]. constructor; [|constructor].
        right. right. reflexivity. }
      destruct (truthy_json (pendingOriginalMessage st)).
      - split; [|split; [exact Hout'|discriminate]].
        destruct (pendingOriginalMessage st) as [m|] eqn:Em; [|exact Hn].
        apply Forall_app. split; [exact Hn|]. constructor; [|constructor].
        left. apply Hpend'. reflexivity.
      - split; [exact Hn|]. split; [exact Hout'|exact Hpend']. }
    cbn zeta in Hbody. destruct jsonMsg; try exact Hbody. auto.
  - cbn. auto.
  - cbn. auto.
  - cbn. auto.
Qed.

(** X8 - Nothing is made up.  Whatever happens during a POST, every line
    written to the child's stdin is a message the client sent, the
    initialize request the interposer builds for one of the client's
    messages, or the initialized notification; and every message passed
    on to the client is one the child wrote. *)
Theorem X8_nothing_made_up (cfg : Config) (evs : list Event) :
  Forall (written_ok cfg evs) (stdin (run cfg evs)) /\
  Forall (from_child evs) (sent (run cfg evs)).
Proof.
  enough (H : Forall (written_ok cfg evs) (stdin (run cfg evs)) /\
              Forall (from_child evs) (sent (run cfg evs)) /\
              (forall m, pendingOriginalMessage (run cfg evs) = Some m -> from_client evs m)).
  { destruct H as (H1 & H2 & _). auto. }
  induction evs as [|ev evs IH] using rev_ind.
  - cbn. repeat split; try constructor. discriminate.
  - rewrite run_app. cbn [fold_left]. destruct IH as (H1 & H2 & H3).
    apply provenance_step; assumption.
Qed.

End StatelessTraceFacts.

Section SseFanOutFacts.

Import Sse SseObs.

Lemma child_message_lookup (jsonMsg : JSON) (failing : gset string) (b : Binding)
    (id : string) :
  sessions (child_message jsonMsg failing b) !! id =
  match sessions b !! id with
  | Some s => if bool_decide (id ∈ failing) then None
              else Some (mkSession (delivered s ++ [jsonMsg]))
  | None => None
  end.
Proof.
  cbn [child_message sessions]. rewrite map_lookup_imap.
  destruct (sessions b !! id); reflexivity.
Qed.

Lemma sse_child_messages_cons (msg : JSON) (failing : gset string)
    (out : list (JSON * gset string)) (b : Binding) :
  child_messages ((msg, failing) :: out) b = child_messages out (child_message msg failing b).
Proof. reflexivity. Qed.

Lemma child_messages_gone (out : list (JSON * gset string)) (b : Binding) (id : string) :
  sessions b !! id = None -> sessions (child_messages out b) !! id = None.
Proof.
  revert b. induction out as [|[msg failing] out IH]; intros b Hb; [exact Hb|].
  rewrite sse_child_messages_cons. apply IH. rewrite child_message_lookup, Hb. reflexivity.
Qed.

(** X11 - Fan-out to SSE sessions.  A session that is in the table receives
    every parsed child message exactly once and in the child's order, for
    as long as no send to it throws; the first send that throws removes
    it, and child output never brings it back.  The child's stdin is not
    touched. *)
Theorem X11_sse_fan_out (out : list (JSON * gset string)) (b : Binding)
    (id : string) (s : SessionInfo) :
  sessions b !! id = Some s ->
  let b' := child_messages out b in
  (Forall (fun e => id ∉ snd e) out ->
     sessions b' !! id = Some (mkSession (delivered s ++ map fst out))) /\
  (Exists (fun e => id ∈ snd e) out -> sessions b' !! id = None) /\
  stdin b' = stdin b.
Proof.
  intros Hs. cbn zeta. split; [|split].
  - intros Hall. revert b s Hs. induction Hall as [|[msg failing] out Hok _ IH];
      intros b s Hs.
    + cbn. rewrite app_nil_r, Hs. destruct s; reflexivity.
    + rewrite sse_child_messages_cons.
      rewrite (IH (child_message msg failing b) (mkSession (delivered s ++ [msg]))).
      * cbn. rewrite <- app_assoc. reflexivity.
      * rewrite child_message_lookup, Hs. rewrite bool_decide_eq_false_2 by exact Hok.
        reflexivity.
  - intros Hex. revert b s Hs. induction out as [|[msg failing] out IH]; intros b s Hs.
    + inversion Hex.
    + rewrite sse_child_messages_cons.
      destruct (decide (id ∈ failing)) as [Hf|Hf].
      * apply child_messages_gone. rewrite child_message_lookup, Hs.
        rewrite bool_decide_eq_true_2 by exact Hf. reflexivity.
      * apply List.Exists_cons in Hex as [Hhere|Hlater]; [contradiction|].
        apply (IH Hlater _ (mkSession (delivered s ++ [msg]))).
        rewrite child_message_lookup, Hs. rewrite bool_decide_eq_false_2 by exact Hf.
        reflexivity.
  - clear Hs. revert b. induction out as [|[msg failing] out IH]; intros b; [reflexivity|].
    rewrite sse_child_messages_cons, IH. reflexivity.
Qed.

Lemma X11_sse_fan_out_witness :
  let b := get (Some "a") (get (Some "b") (mkBinding "/sse" "/message" "node server.js" ∅ [])) in
  let out := [ (JStr "one", ∅); (JStr "two", {["b"]}); (JStr "three", ∅) ] in
  let b' := child_messages out b in
  (Forall (fun e => "a" ∉ snd e) out ->
     sessions b' !! "a" = Some (mkSession ([] ++ map fst out))) /\
  (Exists (fun e => "a" ∈ snd e) out -> sessions b' !! "a" = None) /\
  stdin b' = stdin b.
Proof.
  apply (X11_sse_fan_out
           [ (JStr "one", ∅); (JStr "two", {["b"]}); (JStr "three", ∅) ]
           (get (Some "a") (get (Some "b") (mkBinding "/sse" "/message" "node server.js" ∅ [])))
           "a" (mkSession [])).
  vm_compute. reflexivity.
Defined.

(** X12 - Subscribe, post, disconnect.  After a GET has registered a
    non-empty session id, a POST with that id is handed to the session's
    transport; after the transport's close or error or the request's
    'close' has removed the session, the same POST is answered 503.
    Registering one id changes nothing for a POST that carries another. *)
Theorem X12_sse_session_round_trip (b : Binding) (id : string) :
  id <> "" ->
  post (Some id) (get (Some id) b) = HandlePostMessage id /\
  post (Some id) (drop_session (Some id) (get (Some id) b)) =
    Answered (mkResponse 503
      (BodyText (String.append "No active SSE connection for session " id))) /\
  forall other, other <> id -> post (Some other) (get (Some id) b) = post (Some other) b.
Proof.
  intros Hne. apply String.eqb_neq in Hne.
  unfold post, get, drop_session, truthy_str. rewrite Hne. cbn [negb sessions].
  split; [|split].
  - rewrite lookup_insert_eq. reflexivity.
  - rewrite lookup_delete_eq. reflexivity.
  - intros other Ho. destruct (negb (String.eqb other "")); [|reflexivity].
    rewrite lookup_insert_ne by congruence. reflexivity.
Qed.

Lemma X12_sse_session_round_trip_witness :
  let b := mkBinding "/sse" "/message" "node server.js" ∅ [] in
  post (Some "7c1d") (get (Some "7c1d") b) = HandlePostMessage "7c1d" /\
  post (Some "7c1d") (drop_session (Some "7c1d") (get (Some "7c1d") b)) =
    Answered (mkResponse 503
      (BodyText (String.append "No active SSE connection for session " "7c1d"))) /\
  forall other, other <> "7c1d" ->
    post (Some other) (get (Some "7c1d") b) = post (Some other) b.
Proof.
  apply (X12_sse_session_round_trip (mkBinding "/sse" "/message" "node server.js" ∅ []) "7c1d").
  discriminate.
Defined.

End SseFanOutFacts.

Section WsFacts.

Import Ws WsObs.



Lemma fresh_bindings_alive (messagePath : string) (servers : list MultiStdioServerConfig) :
  existsb killed
    (map (fun serverConfig =>
            mkBinding (PathRouter.fullPath serverConfig messagePath)
                      (Types.stdioCmd serverConfig) false [] []) servers) = false.
Proof. induction servers as [|s servers IH]; [reflexivity|exact IH]. Qed.

(** X16 - Health of the WebSocket gateway.  Once multiStdioToWs has set up
    its bindings, a health endpoint answers 200 "ok"; with the same
    bindings but before readiness is signalled it answers 500 "Server is
    not ready"; and after cleanup has killed the children it answers 500
    "Child process has been killed", provided there is at least one
    binding. *)
Theorem X16_ws_health (args : MultiStdioToWsArgs) :
  let app := snd (multiStdioToWs args) in
  health app = mkResponse 200 (BodyText "ok") /\
  health (mkApp (bindings app) false) = mkResponse 500 (BodyText "Server is not ready") /\
  (servers args <> [] ->
     health (cleanup app) = mkResponse 500 (BodyText "Child process has been killed")).
Proof.
  cbn zeta. unfold multiStdioToWs, health. cbn [snd bindings isReady].
  rewrite fresh_bindings_alive. cbn [negb]. split; [reflexivity|]. split; [reflexivity|].
  intros Hne. destruct (servers args) as [|s rest]; [contradiction|]. reflexivity.
Qed.

End WsFacts.

Section PathRouterMoreFacts.

Import PathRouter.
Local Open Scope string_scope.

Lemma snoc_not_root (q : string) (c : ascii) :
  Ascii.eqb c "/" = false -> String.eqb (String.append q (String c "")) "/" = false.
Proof.
  intros Hc. apply String.eqb_neq. intros E.
  destruct q as [|d q].
  - change (String c "" = "/") in E. injection E as ->. discriminate Hc.
  - change (String d (String.append q (String c "")) = "/") in E.
    injection E as _ E. destruct q; discriminate E.
Qed.

Lemma snoc_slash_not_root (q : string) (c : ascii) :
  String.eqb (String.append (String.append q (String c "")) "/") "/" = false.
Proof.
  apply String.eqb_neq. intros E.
  destruct q as [|d q].
  - change (String c "/" = "/") in E. discriminate E.
  - change (String d (String.append (String.append q (String c "")) "/") = "/") in E.
    injection E as _ E. destruct q; discriminate E.
Qed.

Lemma or_root_append_slash (p s : string) :
  or_root (String.append p (String "/" s)) = String.append p (String "/" s).
Proof. rewrite or_root_match. destruct p; reflexivity. Qed.

(** X17 - Optional slashes.  For a prefix that does not end in a slash and
    a suffix that does not begin with one, the endpoint is prefix, slash,
    suffix; writing the prefix with one trailing slash, the suffix with a
    leading slash, or both, gives the same endpoint.  (So the prefixes
    "/a" and "/a/" name the same endpoint.) *)
Theorem X17_optional_slashes (q : string) (c : ascii) (s : string) :
  Ascii.eqb c "/" = false -> startsWith_slash s = false ->
  let p := String.append q (String c "") in
  joinPath p s = String.append p (String "/" s) /\
  joinPath (String.append p "/") s = joinPath p s /\
  joinPath p (String "/" s) = joinPath p s /\
  joinPath (String.append p "/") (String "/" s) = joinPath p s.
Proof.
  intros Hc Hs p.
  assert (E1 : forall t, joinPath p t =
             or_root (String.append p (if startsWith_slash t then t else String "/" t))).
  { intros t. unfold joinPath, p. rewrite (snoc_not_root q c Hc).
    rewrite (replace_trailing_slash_snoc_other q c Hc). reflexivity. }
  assert (E2 : forall t, joinPath (String.append p "/") t =
             or_root (String.append p (if startsWith_slash t then t else String "/" t))).
  { intros t. unfold joinPath, p. rewrite (snoc_slash_not_root q c).
    rewrite replace_trailing_slash_snoc_slash. reflexivity. }
  rewrite !E1, !E2, Hs. cbn [startsWith_slash]. rewrite Ascii.eqb_refl.
  rewrite or_root_append_slash. auto.
Qed.

Lemma X17_optional_slashes_witness :
  let p := String.append "/gi" (String "t" "") in
  joinPath p "mcp" = String.append p (String "/" "mcp") /\
  joinPath (String.append p "/") "mcp" = joinPath p "mcp" /\
  joinPath p (String "/" "mcp") = joinPath p "mcp" /\
  joinPath (String.append p "/") (String "/" "mcp") = joinPath p "mcp".
Proof. apply (X17_optional_slashes "/gi" "t" "mcp"); reflexivity. Defined.

Lemma joinPath_absolute (base suffix : string) :
  base = "" \/ startsWith_slash base = true ->
  startsWith_slash (joinPath base suffix) = true /\ joinPath base suffix <> "".
Proof.
  intros Hbase.
  assert (Hs : exists t, (if startsWith_slash suffix then suffix else String "/" suffix)
                         = String "/" t).
  { destruct suffix as [|d t]; [exists ""; reflexivity|]. cbn [startsWith_slash].
    destruct (Ascii.eqb d "/") eqn:E; [|eexists; reflexivity].
    apply Ascii.eqb_eq in E. subst d. eexists. reflexivity. }
  destruct Hs as [t Ht].
  assert (Hshape : exists r, joinPath base suffix = String "/" r).
  { unfold joinPath. rewrite Ht.
    destruct (String.eqb base "/") eqn:Eroot.
    { exists t. reflexivity. }
    destruct Hbase as [-> | Hb].
    { exists t. reflexivity. }
    destruct base as [|b0 rest]; [discriminate Hb|]. cbn [startsWith_slash] in Hb.
    apply Ascii.eqb_eq in Hb. subst b0.
    destruct rest as [|b1 rest]; [discriminate Eroot|].
    rewrite replace_trailing_slash_cons2.
    eexists. rewrite or_root_match. reflexivity. }
  destruct Hshape as [r ->]. split; [reflexivity|discriminate].
Qed.

(** X18 - Endpoints are absolute.  When the prefix of a server is empty or
    begins with a slash, each of its endpoints begins with a slash,
    whatever the suffix; so does the result of joining such a prefix
    directly, and it is never the empty string. *)
Theorem X18_endpoint_starts_with_slash (server : MultiStdioServerConfig) (suffix : string) :
  Types.path server = "" \/ startsWith_slash (Types.path server) = true ->
  startsWith_slash (fullPath server suffix) = true /\
  startsWith_slash (joinPath (Types.path server) suffix) = true /\
  joinPath (Types.path server) suffix <> "".
Proof.
  intros Hbase. split; [|exact (joinPath_absolute _ suffix Hbase)].
  unfold fullPath. apply joinPath_absolute. right.
  destruct Hbase as [-> | Hs]; [reflexivity|].
  rewrite or_root_match. destruct (Types.path server); [discriminate Hs|exact Hs].
Qed.

Lemma X18_endpoint_starts_with_slash_witness :
  startsWith_slash (fullPath (mkServer "/docker/" "node server.js") "mcp") = true /\
  startsWith_slash (joinPath "/docker/" "mcp") = true /\
  joinPath "/docker/" "mcp" <> "".
Proof.
  apply (X18_endpoint_starts_with_slash (mkServer "/docker/" "node server.js") "mcp").
  right. reflexivity.
Defined.

End PathRouterMoreFacts.

Section LineFramerMoreFacts.

Import LineFramer.

Lemma push_front_no_LF (c : Z) (frags : list (list Z)) :
  c <> LF -> Forall (Forall (fun x => x <> LF)) frags ->
  Forall (Forall (fun x => x <> LF)) (push_front c frags).
Proof.
  intros Hc H. destruct H as [|f rest Hf Hrest]; cbn.
  - repeat constructor. exact Hc.
  - constructor; [constructor; assumption|exact Hrest].
Qed.

(** No fragment of a split holds a line feed. *)
Lemma split_lines_fragments_no_LF (s : list Z) :
  Forall (Forall (fun x => x <> LF)) (split_lines s).
Proof.
  induction s as [|x|x y l IHl IHyl] using list_two_step_ind.
  - repeat constructor.
  - cbn. destruct (x =? LF) eqn:E; cbn.
    + repeat constructor.
    + repeat constructor. intros ->. discriminate E.
  - rewrite split_lines_cons2. destruct (x =? LF) eqn:E.
    { constructor; [constructor|exact IHyl]. }
    destruct ((x =? CR) && (y =? LF)).
    { constructor; [constructor|exact IHl]. }
    apply push_front_no_LF; [|exact IHyl]. intros ->. discriminate E.
Qed.

Lemma Forall_removelast {A : Type} (P : A -> Prop) (l : list A) :
  Forall P l -> Forall P (removelast l).
Proof.
  induction 1 as [|x l Hx Hl IH]; [constructor|].
  cbn. destruct l; [constructor|]. constructor; assumption.
Qed.

(** X19 - What the framer hands on and what it keeps.  Starting from a
    buffer without a line feed, after any sequence of chunks every line
    handed to JSON.parse is free of line feeds and not blank, and the
    buffer kept for the next chunk again holds no line feed: a complete
    line never stays behind. *)
Theorem X19_framer_lines_and_buffer (chunks : list (list Z)) (buffer : list Z) :
  Forall (fun c => c <> LF) buffer ->
  Forall (fun c => c <> LF) (fst (run buffer chunks)) /\
  Forall (fun line => Forall (fun c => c <> LF) line /\ blank line = false)
         (snd (run buffer chunks)).
Proof.
  intros Hb. rewrite (run_whole chunks buffer Hb). cbn zeta. cbn [fst snd].
  split; [apply last_split_lines_no_LF|].
  apply List.Forall_forall. intros line Hin.
  apply List.filter_In in Hin as [Hin Hnb]. split.
  - pose proof (Forall_removelast _ _ (split_lines_fragments_no_LF
                  (buffer ++ concat (map toString_utf8 chunks)))) as H.
    exact (proj1 (List.Forall_forall _ _) H line Hin).
  - destruct (blank line); [discriminate Hnb|reflexivity].
Qed.

Lemma X19_framer_lines_and_buffer_witness :
  Forall (fun c => c <> LF) (fst (run [123] [[125; 13]; [10; 32; 10; 123]])) /\
  Forall (fun line => Forall (fun c => c <> LF) line /\ blank line = false)
         (snd (run [123] [[125; 13]; [10; 32; 10; 123]])).
Proof.
  apply (X19_framer_lines_and_buffer [[125; 13]; [10; 32; 10; 123]] [123]).
  repeat constructor. discriminate.
Defined.

Lemma decode_ascii_chunks (chunks : list (list Z)) :
  Forall (Forall (fun b => 0 <= b <= 127)) chunks ->
  concat (map toString_utf8 chunks) = concat chunks.
Proof.
  induction 1 as [|chunk more Hc _ IH]; [reflexivity|].
  cbn [map concat]. rewrite (toString_utf8_ascii _ Hc), IH. reflexivity.
Qed.

(** X20 - Chunk boundaries do not matter for ASCII output.  Two ways of
    cutting the same stream of bytes below 0x80 into chunks give the
    framer the same lines, in the same order, and leave it with the same
    buffer. *)
Theorem X20_ascii_chunking_is_invisible (chunks chunks' : list (list Z)) :
  Forall (Forall (fun b => 0 <= b <= 127)) chunks ->
  Forall (Forall (fun b => 0 <= b <= 127)) chunks' ->
  concat chunks = concat chunks' ->
  run [] chunks = run [] chunks'.
Proof.
  intros Ha Ha' E.
  rewrite (run_whole chunks []), (run_whole chunks' []) by constructor. cbn zeta.
  rewrite (decode_ascii_chunks _ Ha), (decode_ascii_chunks _ Ha'), E. reflexivity.
Qed.

Lemma X20_ascii_chunking_is_invisible_witness :
  run [] [[123; 125; 13]; [10; 123]; [125; 10]] = run [] [[123]; [125; 13; 10; 123; 125; 10]].
Proof.
  apply (X20_ascii_chunking_is_invisible
           [[123; 125; 13]; [10; 123]; [125; 10]] [[123]; [125; 13; 10; 123; 125; 10]]).
  - repeat constructor; lia.
  - repeat constructor; lia.
  - reflexivity.
Defined.

(** X21 - Round trip for ASCII output.  Let a child write messages, each
    serialised as one non-blank line without CR or LF that JSON.parse
    reads back, each followed by LF or CR LF, and then an unfinished
    fragment; let all bytes be below 0x80.  However the byte stream is cut
    into chunks, the framer hands on exactly the serialised messages in
    order, they parse to the messages sent, and the fragment is what the
    buffer holds. *)
Theorem X21_framer_ascii_round_trip {Msg : Type}
    (serialize : Msg -> list Z) (JSON_parse : list Z -> option Msg)
    (out : list (Msg * Sep)) (fragment : list Z) (chunks : list (list Z)) :
  (forall m, JSON_parse (serialize m) = Some m) ->
  (forall m, Forall (fun c => c <> LF /\ c <> CR) (serialize m)) ->
  (forall m, blank (serialize m) = false) ->
  Forall (Forall (fun b => 0 <= b <= 127)) chunks ->
  Forall (fun c => c <> LF) fragment ->
  concat chunks = stream serialize out ++ fragment ->
  run [] chunks = (fragment, map (fun e => serialize (fst e)) out) /\
  parsed JSON_parse (snd (run [] chunks)) = map fst out.
Proof.
  intros Hps Hline Hnb Hascii Hfrag Hbytes.
  assert (E : run [] chunks = (fragment, map (fun e => serialize (fst e)) out)).
  { rewrite (run_whole chunks []) by constructor. cbn zeta. cbn [app].
    rewrite (decode_ascii_chunks _ Hascii), Hbytes.
    rewrite (split_lines_stream serialize Hline), (split_lines_no_LF _ Hfrag).
    rewrite last_app_nonempty by discriminate.
    rewrite List.removelast_app by discriminate. cbn [removelast List.last].
    rewrite app_nil_r, (filter_serialized serialize Hnb). reflexivity. }
  rewrite E. split; [reflexivity|]. cbn [snd].
  apply (parsed_serialized serialize JSON_parse Hps).
Qed.

Lemma X21_framer_ascii_round_trip_witness :
  run [] [[123]; [125; 13]; [10; 123; 125; 10; 123]] =
    ([123], map (fun e : unit * Sep => [123; 125]) [(tt, SepCRLF); (tt, SepLF)]) /\
  parsed (fun line => if decide (line = [123; 125]) then Some tt else None)
         (snd (run [] [[123]; [125; 13]; [10; 123; 125; 10; 123]])) =
    map fst [(tt, SepCRLF); (tt, SepLF)].
Proof.
  apply (X21_framer_ascii_round_trip (fun _ : unit => [123; 125])
           (fun line => if decide (line = [123; 125]) then Some tt else None)
           [(tt, SepCRLF); (tt, SepLF)] [123]
           [[123]; [125; 13]; [10; 123; 125; 10; 123]]).
  - intros m. destruct m. reflexivity.
  - intros _. repeat constructor; discriminate.
  - intros _. reflexivity.
  - repeat constructor; lia.
  - repeat constructor. discriminate.
  - reflexivity.
Defined.

End LineFramerMoreFacts.

Section CliMoreFacts.

Import Cli CliObs.

Lemma is_transport_true (argv : Argv) (name : string) :
  is_transport argv name = true -> outputTransport argv = Some name.
Proof.
  unfold is_transport. destruct (outputTransport argv) as [t|]; [|discriminate].
  intros E. apply String.eqb_eq in E. subst t. reflexivity.
Qed.

(** What a started multi-server gateway says about the options. *)
Lemma start_multi_started (version : string) (argv : Argv)
    (servers : list MultiStdioServerConfig) :
  start_multi version argv servers <> Exit 1 ->
  outputTransport argv = transport_of (start_multi version argv servers) /\
  match start_multi version argv servers with
  | StartedStateful _ => stateful argv = true
  | StartedSse _ | StartedWs _ | StartedStateless _ => stateful argv = false
  | _ => False
  end.
Proof.
  unfold start_multi.
  destruct (is_transport argv "streamableHttp") eqn:Eh.
  { apply is_transport_true in Eh. destruct (stateful argv); cbn; auto. }
  destruct (is_transport argv "sse") eqn:Es.
  { apply is_transport_true in Es. destruct (stateful argv); cbn; [congruence|auto]. }
  destruct (is_transport argv "ws") eqn:Ew.
  { apply is_transport_true in Ew. destruct (stateful argv); cbn; [congruence|auto]. }
  congruence.
Qed.

Lemma start_single_started (version : string) (argv : Argv) (stdioArg : string) :
  start_single version argv stdioArg <> Exit 1 ->
  outputTransport argv = transport_of (start_single version argv stdioArg) /\
  match start_single version argv stdioArg with
  | StartedStateful _ => stateful argv = true
  | StartedStateless _ => stateful argv = false
  | StartedSse _ | StartedWs _ => True
  | _ => False
  end.
Proof.
  unfold start_single.
  destruct (is_transport argv "sse") eqn:Es.
  { apply is_transport_true in Es. cbn. auto. }
  destruct (is_transport argv "ws") eqn:Ew.
  { apply is_transport_true in Ew. cbn. auto. }
  destruct (is_transport argv "streamableHttp") eqn:Eh; [|congruence].
  apply is_transport_true in Eh.
  destruct (stateful argv); [|cbn; auto].
  destruct (sessionTimeout argv) as [t|]; [|cbn; auto].
  destruct (t <=? 0)%Z; [congruence|cbn; auto].
Qed.

Lemma map_or_exit_Some {A B : Type} (f : A -> option B) (xs : list A) (ys : list B) :
  map_or_exit f xs = Some ys -> Forall2 (fun x y => f x = Some y) xs ys.
Proof.
  revert ys. induction xs as [|x xs IH]; intros ys; cbn.
  - intros [= <-]. constructor.
  - destruct (f x) as [y|] eqn:Ef; [|discriminate].
    destruct (map_or_exit f xs) as [ys'|]; [|discriminate].
    intros [= <-]. constructor; [exact Ef|apply IH; reflexivity].
Qed.

Lemma map_or_exit_None {A B : Type} (f : A -> option B) (xs : list A) (x : A) :
  In x xs -> f x = None -> map_or_exit f xs = None.
Proof.
  induction xs as [|x0 xs IH]; [intros []|].
  intros [-> | Hin] Hx; cbn.
  - rewrite Hx. reflexivity.
  - destruct (f x0); [|reflexivity]. rewrite (IH Hin Hx). reflexivity.
Qed.

Lemma with_leading_slash_absolute (p : string) :
  PathRouter.startsWith_slash (with_leading_slash p) = true.
Proof.
  unfold with_leading_slash. destruct (PathRouter.startsWith_slash p) eqn:E; [exact E|].
  reflexivity.
Qed.

Lemma config_server_ok (s : JSON) (srv : MultiStdioServerConfig) :
  config_server s = Some srv ->
  Types.path srv = with_leading_slash (string_field "path" s) /\
  Types.stdioCmd srv = string_field "stdio" s /\
  string_field "path" s <> EmptyString /\ string_field "stdio" s <> EmptyString.
Proof.
  unfold config_server.
  assert (H : (if String.eqb (string_field "path" s) "" || String.eqb (string_field "stdio" s) ""
               then None
               else Some (mkServer (with_leading_slash (string_field "path" s))
                                   (string_field "stdio" s))) = Some srv ->
              Types.path srv = with_leading_slash (string_field "path" s) /\
              Types.stdioCmd srv = string_field "stdio" s /\
              string_field "path" s <> EmptyString /\ string_field "stdio" s <> EmptyString).
  { destruct (String.eqb (string_field "path" s) "") eqn:Ep; [discriminate|].
    destruct (String.eqb (string_field "stdio" s) "") eqn:Ec; [discriminate|].
    cbn. intros [= <-]. apply String.eqb_neq in Ep, Ec. auto. }
  destruct s; try discriminate; exact H.
Qed.

Lemma stdio_server_ok (value : string) (srv : MultiStdioServerConfig) :
  stdio_server value = Some srv ->
  PathRouter.startsWith_slash (Types.path srv) = true /\ Types.stdioCmd srv <> EmptyString.
Proof.
  unfold stdio_server. destruct (cut_at_equals value) as [[before after]|]; [|discriminate].
  cbv zeta.
  destruct (String.eqb (trim before) "") eqn:Ep; [discriminate|].
  destruct (String.eqb (trim after) "") eqn:Ec; [discriminate|].
  cbn. intros [= <-]. apply String.eqb_neq in Ec. cbn.
  split; [apply with_leading_slash_absolute|exact Ec].
Qed.

Lemma servers_from_entries {A : Type} (f : A -> option MultiStdioServerConfig)
    (xs : list A) (servers : list MultiStdioServerConfig) :
  (forall x srv, f x = Some srv ->
     PathRouter.startsWith_slash (Types.path srv) = true /\ Types.stdioCmd srv <> EmptyString) ->
  map_or_exit f xs = Some servers ->
  length servers = length xs /\
  Forall (fun s => PathRouter.startsWith_slash (Types.path s) = true /\
                   Types.stdioCmd s <> EmptyString) servers.
Proof.
  intros Hf H. apply map_or_exit_Some in H.
  induction H as [|x y xs ys Hxy _ [IHlen IH]]; [split; [reflexivity|constructor]|].
  split; [cbn; rewrite IHlen; reflexivity|].
  constructor; [exact (Hf x y Hxy)|exact IH].
Qed.

(** How [main] can start a gateway at all. *)
Lemma main_started (version : string) (file : ConfigFile) (argv : Argv) :
  main version file argv <> Exit 1 ->
  active_inputs argv = 1%nat /\
  ((exists servers, well_formed servers /\
      main version file argv = start_multi version argv servers) \/
   (exists stdioArg, stdioArg <> EmptyString /\
      main version file argv = start_single version argv stdioArg) \/
   (exists url, sse argv = Some url /\ outputTransport argv = Some "stdio" /\
      main version file argv = StartedSseToStdio url (headers argv)) \/
   (exists url, streamableHttp argv = Some url /\ outputTransport argv = Some "stdio" /\
      main version file argv = StartedStreamableHttpToStdio url (headers argv))).
Proof.
  unfold main, active_inputs. cbv zeta.
  set (hasStdio := bool_decide (is_Some (stdio argv))).
  set (hasSse := truthy_str (sse argv)).
  set (hasHttp := truthy_str (streamableHttp argv)).
  set (hasMulti := truthy_str (multiServerConfig argv)).
  destruct hasMulti eqn:EM; destruct hasStdio eqn:ES; destruct hasSse eqn:EE;
    destruct hasHttp eqn:EH; cbn [List.filter length Nat.eqb Nat.ltb Nat.leb orb];
    try (intros Hne; exfalso; apply Hne; reflexivity).
  - (* the config file alone *)
    intros Hne. split; [reflexivity|]. left.
    destruct file as [| |configJson]; try (exfalso; apply Hne; reflexivity).
    destruct (prop "servers" configJson) as [[| | | |entries|]|];
      try (exfalso; apply Hne; reflexivity).
    destruct (map_or_exit config_server entries) as [servers|] eqn:Emap;
      [|exfalso; apply Hne; reflexivity].
    destruct servers as [|srv more]; [exfalso; apply Hne; reflexivity|].
    exists (srv :: more). split; [|reflexivity].
    split; [discriminate|].
    apply (servers_from_entries config_server entries); [|exact Emap].
    intros x y Hxy. destruct (config_server_ok x y Hxy) as (-> & -> & _ & Hc).
    split; [apply with_leading_slash_absolute|exact Hc].
  - (* --stdio alone *)
    intros Hne. split; [reflexivity|].
    destruct (negb (length (default [] (stdio argv)) =? 0)%nat
              && forallb includes_equals (default [] (stdio argv))) eqn:Emapcli.
    + left.
      destruct (map_or_exit stdio_server (default [] (stdio argv))) as [servers|] eqn:Emap;
        [|exfalso; apply Hne; reflexivity].
      exists servers. split; [|reflexivity].
      destruct (servers_from_entries stdio_server _ servers stdio_server_ok Emap)
        as [Hlen Hall].
      split; [|exact Hall].
      intros ->. cbn in Hlen. rewrite <- Hlen in Emapcli. discriminate Emapcli.
    + right. left.
      destruct (default [] (stdio argv)) as [|stdioArg more];
        [exfalso; apply Hne; reflexivity|].
      destruct (String.eqb stdioArg "") eqn:Eempty; [exfalso; apply Hne; reflexivity|].
      exists stdioArg. split; [apply String.eqb_neq; exact Eempty|reflexivity].
  - (* --sse alone *)
    intros Hne. split; [reflexivity|]. right. right. left.
    assert (Emapcli : negb (length (default [] (stdio argv)) =? 0)%nat
                      && forallb includes_equals (default [] (stdio argv)) = false).
    { unfold hasStdio in ES. apply bool_decide_eq_false in ES.
      destruct (stdio argv) as [vs|]; [exfalso; apply ES; eexists; reflexivity|].
      reflexivity. }
    rewrite Emapcli in Hne |- *.
    destruct (is_transport argv "stdio") eqn:Et; [|exfalso; apply Hne; reflexivity].
    unfold hasSse, truthy_str in EE. destruct (sse argv) as [url|]; [|discriminate EE].
    exists url. split; [reflexivity|]. split; [apply is_transport_true; exact Et|reflexivity].
  - (* --streamableHttp alone *)
    intros Hne. split; [reflexivity|]. right. right. right.
    assert (Emapcli : negb (length (default [] (stdio argv)) =? 0)%nat
                      && forallb includes_equals (default [] (stdio argv)) = false).
    { unfold hasStdio in ES. apply bool_decide_eq_false in ES.
      destruct (stdio argv) as [vs|]; [exfalso; apply ES; eexists; reflexivity|].
      reflexivity. }
    rewrite Emapcli in Hne |- *.
    destruct (is_transport argv "stdio") eqn:Et; [|exfalso; apply Hne; reflexivity].
    unfold hasHttp, truthy_str in EH. destruct (streamableHttp argv) as [url|]; [|discriminate EH].
    exists url. split; [reflexivity|]. split; [apply is_transport_true; exact Et|reflexivity].
Qed.

Lemma fullPath_absolute (server : MultiStdioServerConfig) (suffix : string) :
  PathRouter.startsWith_slash (Types.path server) = true ->
  PathRouter.startsWith_slash (PathRouter.fullPath server suffix) = true.
Proof.
  intros Hs. unfold PathRouter.fullPath. apply joinPath_absolute. right.
  rewrite or_root_match. destruct (Types.path server); [discriminate Hs|exact Hs].
Qed.

Lemma mounted_multi_streamable (servers : list MultiStdioServerConfig) (suffix : string) :
  Forall (fun s => PathRouter.startsWith_slash (Types.path s) = true /\
                   Types.stdioCmd s <> EmptyString) servers ->
  Forall endpoint_ok
    (map (fun s => (PathRouter.fullPath s suffix, Types.stdioCmd s)) servers).
Proof.
  induction 1 as [|s more [Hp Hc] _ IH]; cbn [map]; constructor; [|exact IH].
  split; [apply fullPath_absolute; exact Hp|exact Hc].
Qed.

Lemma mounted_multi_sse (servers : list MultiStdioServerConfig) (suffix suffix' : string) :
  Forall (fun s => PathRouter.startsWith_slash (Types.path s) = true /\
                   Types.stdioCmd s <> EmptyString) servers ->
  Forall endpoint_ok
    (flat_map (fun s => [ (PathRouter.fullPath s suffix, Types.stdioCmd s);
                          (PathRouter.fullPath s suffix', Types.stdioCmd s) ]) servers).
Proof.
  induction 1 as [|s more [Hp Hc] _ IH]; cbn [flat_map app]; [constructor|].
  constructor; [split; [apply fullPath_absolute; exact Hp|exact Hc]|].
  constructor; [split; [apply fullPath_absolute; exact Hp|exact Hc]|exact IH].
Qed.

Lemma flat_map_map {A B C : Type} (f : A -> B) (g : B -> list C) (l : list A) :
  flat_map g (map f l) = flat_map (fun x => g (f x)) l.
Proof. induction l as [|x l IH]; [reflexivity|]. cbn. rewrite IH. reflexivity. Qed.

Lemma mounted_start_multi (version : string) (argv : Argv)
    (servers : list MultiStdioServerConfig) :
  well_formed servers ->
  start_multi version argv servers <> Exit 1 ->
  mounted (start_multi version argv servers) <> [] /\
  Forall endpoint_ok (mounted (start_multi version argv servers)).
Proof.
  intros [Hne Hall] Hstarted. unfold start_multi in *.
  destruct servers as [|srv more]; [contradiction|].
  destruct (is_transport argv "streamableHttp").
  { destruct (stateful argv); cbn [mounted Stateful.multiStdioToStatefulStreamableHttp
                                   Stateless.multiStdioToStatelessStreamableHttp
                                   Stateful.servers Stateless.servers];
      (split; [discriminate|]); rewrite map_map; cbn;
      exact (mounted_multi_streamable _ _ Hall). }
  destruct (is_transport argv "sse").
  { destruct (stateful argv); [contradiction|].
    cbn [mounted Sse.multiStdioToSse Sse.servers Sse.bindings].
    split; [discriminate|]. rewrite flat_map_map. cbn.
    exact (mounted_multi_sse _ _ _ Hall). }
  destruct (is_transport argv "ws"); [|contradiction].
  destruct (stateful argv); [contradiction|].
  cbn [mounted Ws.multiStdioToWs Ws.servers Ws.bindings].
  split; [discriminate|]. rewrite map_map. cbn.
  exact (mounted_multi_streamable _ _ Hall).
Qed.

Lemma mounted_start_single (version : string) (argv : Argv) (stdioArg : string) :
  stdioArg <> EmptyString ->
  start_single version argv stdioArg <> Exit 1 ->
  mounted (start_single version argv stdioArg) <> [] /\
  Forall endpoint_ok (mounted (start_single version argv stdioArg)).
Proof.
  intros Hcmd Hstarted. unfold start_single in *.
  assert (Hok : forall suffix,
             endpoint_ok (PathRouter.fullPath (mkServer "/" stdioArg) suffix, stdioArg)).
  { intros suffix. split; [apply fullPath_absolute; reflexivity|exact Hcmd]. }
  destruct (is_transport argv "sse").
  { cbn. split; [discriminate|]. repeat constructor; apply Hok. }
  destruct (is_transport argv "ws").
  { cbn. split; [discriminate|]. repeat constructor; apply Hok. }
  destruct (is_transport argv "streamableHttp"); [|contradiction].
  destruct (stateful argv).
  - destruct (sessionTimeout argv) as [t|].
    + destruct (t <=? 0)%Z; [contradiction|].
      cbn. split; [discriminate|]. repeat constructor; apply Hok.
    + cbn. split; [discriminate|]. repeat constructor; apply Hok.
  - cbn. split; [discriminate|]. repeat constructor; apply Hok.
Qed.

(** X22 - A gateway is started only for exactly one input, and it is the
    gateway that was asked for.  Whenever [main] does not exit, exactly
    one of --stdio, --sse, --streamableHttp and --multiServerConfig was
    given; the gateway started serves the output transport named by
    --outputTransport; the stateful Streamable-HTTP gateway is started
    only with --stateful and the stateless one only without; and the
    reverse gateways connect to the URL that was given. *)
Theorem X22_started_gateway_matches_flags (version : string) (file : ConfigFile)
    (argv : Argv) :
  main version file argv <> Exit 1 ->
  active_inputs argv = 1%nat /\
  outputTransport argv = transport_of (main version file argv) /\
  match main version file argv with
  | StartedStateful _ => stateful argv = true
  | StartedStateless _ => stateful argv = false
  | StartedSseToStdio url _ => sse argv = Some url
  | StartedStreamableHttpToStdio url _ => streamableHttp argv = Some url
  | StartedSse _ | StartedWs _ => True
  | Exit _ => False
  end.
Proof.
  intros Hstarted.
  destruct (main_started version file argv Hstarted) as [Hone Hhow].
  split; [exact Hone|].
  destruct Hhow as [(servers & _ & E) | [(stdioArg & _ & E) | [(url & Hurl & Ht & E) |
                    (url & Hurl & Ht & E)]]]; rewrite E in Hstarted |- *.
  - destruct (start_multi_started version argv servers Hstarted) as [Ht Hflag].
    split; [exact Ht|].
    destruct (start_multi version argv servers); first [exact Hflag|contradiction|exact I].
  - destruct (start_single_started version argv stdioArg Hstarted) as [Ht Hflag].
    split; [exact Ht|].
    destruct (start_single version argv stdioArg); first [exact Hflag|contradiction|exact I].
  - split; [exact Ht|exact Hurl].
  - split; [exact Ht|exact Hurl].
Qed.

Lemma X22_started_gateway_matches_flags_witness :
  let argv := stateful_argv (Some ["node server.js"]) None 60000 in
  active_inputs argv = 1%nat /\
  outputTransport argv = transport_of (main "3.4.0" Unreadable argv) /\
  match main "3.4.0" Unreadable argv with
  | StartedStateful _ => stateful argv = true
  | StartedStateless _ => stateful argv = false
  | StartedSseToStdio url _ => sse argv = Some url
  | StartedStreamableHttpToStdio url _ => streamableHttp argv = Some url
  | StartedSse _ | StartedWs _ => True
  | Exit _ => False
  end.
Proof.
  apply (X22_started_gateway_matches_flags "3.4.0" Unreadable
           (stateful_argv (Some ["node server.js"]) None 60000)).
  vm_compute. discriminate.
Defined.

(** X23 - What a started server gateway serves.  Whenever [main] starts a
    gateway with an output transport other than stdio, the gateway has at
    least one endpoint, every endpoint path begins with a slash, and the
    command behind every endpoint is non-empty - for the config file, the
    name=command form and the single command alike. *)
Theorem X23_mounted_endpoints_well_formed (version : string) (file : ConfigFile)
    (argv : Argv) :
  main version file argv <> Exit 1 ->
  outputTransport argv <> Some "stdio" ->
  mounted (main version file argv) <> [] /\
  Forall endpoint_ok (mounted (main version file argv)).
Proof.
  intros Hstarted Hout.
  destruct (main_started version file argv Hstarted) as [_ Hhow].
  destruct Hhow as [(servers & Hwf & E) | [(stdioArg & Hcmd & E) | [(url & _ & Ht & _) |
                    (url & _ & Ht & _)]]]; try contradiction;
    rewrite E in Hstarted |- *.
  - exact (mounted_start_multi version argv servers Hwf Hstarted).
  - exact (mounted_start_single version argv stdioArg Hcmd Hstarted).
Qed.

Lemma X23_mounted_endpoints_well_formed_witness :
  let argv :=
    mkArgv (Some ["git = node git.js"; "/docker=node docker.js"]) None None None (Some "sse")
      8000 "" "/sse" "/message" "/mcp" None [] [] false None "2024-11-05" in
  mounted (main "3.4.0" Unreadable argv) <> [] /\
  Forall endpoint_ok (mounted (main "3.4.0" Unreadable argv)).
Proof.
  apply (X23_mounted_endpoints_well_formed "3.4.0" Unreadable
           (mkArgv (Some ["git = node git.js"; "/docker=node docker.js"]) None None None
              (Some "sse") 8000 "" "/sse" "/message" "/mcp" None [] [] false None
              "2024-11-05")).
  - vm_compute. discriminate.
  - vm_compute. discriminate.
Defined.

Lemma cut_at_first_equals (name cmd : string) :
  has_equals name = false ->
  cut_at_equals (String.append name (String "=" cmd)) = Some (name, cmd).
Proof.
  induction name as [|c name IH]; [reflexivity|].
  cbn [has_equals]. intros H. apply orb_false_iff in H as [Hc Hrest].
  change (String.append (String c name) (String "=" cmd))
    with (String c (String.append name (String "=" cmd))).
  cbn [cut_at_equals]. rewrite Hc, (IH Hrest). reflexivity.
Qed.

Lemma cut_at_equals_None (v : string) :
  has_equals v = false -> cut_at_equals v = None.
Proof.
  induction v as [|c v IH]; [reflexivity|].
  cbn [has_equals]. intros H. apply orb_false_iff in H as [Hc Hrest].
  cbn [cut_at_equals]. rewrite Hc, (IH Hrest). reflexivity.
Qed.

Lemma cut_at_equals_Some (v name cmd : string) :
  cut_at_equals v = Some (name, cmd) ->
  v = String.append name (String "=" cmd) /\ has_equals name = false.
Proof.
  revert name. induction v as [|c v IH]; intros name; [discriminate|].
  cbn [cut_at_equals]. destruct (Ascii.eqb c "=") eqn:Ec.
  - apply Ascii.eqb_eq in Ec. subst c. intros [= <- <-]. split; reflexivity.
  - destruct (cut_at_equals v) as [[n' c']|]; [|discriminate].
    intros [= <- <-]. destruct (IH n' eq_refl) as [-> Hn].
    split; [reflexivity|]. cbn [has_equals]. rewrite Ec, Hn. reflexivity.
Qed.

Lemma includes_equals_has_equals (v : string) : includes_equals v = has_equals v.
Proof.
  unfold includes_equals. destruct (has_equals v) eqn:E.
  - destruct (cut_at_equals v) as [p|] eqn:Ecut; [reflexivity|].
    exfalso. revert E Ecut. induction v as [|c v IH]; [discriminate|].
    cbn [has_equals cut_at_equals]. destruct (Ascii.eqb c "="); [discriminate|].
    cbn [orb]. intros E. destruct (cut_at_equals v) as [[n' c']|]; [discriminate|].
    intros _. exact (IH E eq_refl).
  - rewrite (cut_at_equals_None v E). reflexivity.
Qed.

(** X24 - A name=command value is cut at its first equals sign.  Of a
    value, the name is what stands before the first equals sign and the
    command is all that follows it, further equals signs included; both
    are trimmed, the value is refused when either is then empty, and the
    name gets a leading slash if it has none.  Every value that yields a
    server has this form, and a value without an equals sign yields
    none. *)
Theorem X24_name_is_cut_at_first_equals (value : string) :
  (forall name cmd, has_equals name = false ->
     value = String.append name (String "=" cmd) ->
     stdio_server value =
       if String.eqb (trim name) "" || String.eqb (trim cmd) "" then None
       else Some (mkServer (with_leading_slash (trim name)) (trim cmd))) /\
  (forall srv, stdio_server value = Some srv ->
     exists name cmd,
       value = String.append name (String "=" cmd) /\ has_equals name = false /\
       Types.path srv = with_leading_slash (trim name) /\ Types.stdioCmd srv = trim cmd /\
       trim name <> EmptyString /\ trim cmd <> EmptyString) /\
  (has_equals value = false -> stdio_server value = None).
Proof.
  split; [|split].
  - intros name cmd Hn ->. unfold stdio_server. rewrite (cut_at_first_equals name cmd Hn).
    reflexivity.
  - intros srv. unfold stdio_server.
    destruct (cut_at_equals value) as [[name cmd]|] eqn:Ecut; [|discriminate].
    destruct (cut_at_equals_Some value name cmd Ecut) as [-> Hn]. cbv zeta.
    destruct (String.eqb (trim name) "") eqn:En; [discriminate|].
    destruct (String.eqb (trim cmd) "") eqn:Ec; [discriminate|].
    cbn [orb]. intros [= <-]. apply String.eqb_neq in En, Ec.
    exists name, cmd. repeat (split; [reflexivity || assumption|]). exact Ec.
  - intros H. unfold stdio_server. rewrite (cut_at_equals_None value H). reflexivity.
Qed.

(** X25 - One bad entry of the config file stops the start.  With
    --multiServerConfig as the only input and a file that parses to an
    object with a [servers] array, an entry whose [path] or [stdio] is
    missing, not a string or empty makes [main] exit with code 1, whatever
    the other entries and options are; no gateway is started for the
    entries that are in order. *)
Theorem X25_one_bad_config_entry_aborts (version : string) (argv : Argv)
    (configJson : JSON) (entries : list JSON) (s : JSON) :
  prop "servers" configJson = Some (JArr entries) ->
  In s entries ->
  string_field "path" s = EmptyString \/ string_field "stdio" s = EmptyString ->
  truthy_str (multiServerConfig argv) = true ->
  main version (Parsed configJson) argv = Exit 1.
Proof.
  intros Hservers Hin Hbad Hmulti.
  assert (Hnone : config_server s = None).
  { destruct (config_server s) as [srv|] eqn:E; [|reflexivity].
    destruct (config_server_ok s srv E) as (_ & _ & Hp & Hc).
    destruct Hbad; contradiction. }
  unfold main. cbv zeta. rewrite Hmulti.
  destruct (bool_decide (is_Some (stdio argv))); destruct (truthy_str (sse argv));
    destruct (truthy_str (streamableHttp argv)); cbn; try reflexivity.
  rewrite Hservers, (map_or_exit_None config_server entries s Hin Hnone). reflexivity.
Qed.

Lemma X25_one_bad_config_entry_aborts_witness :
  main "3.4.0"
    (Parsed (JObj [ ("servers",
                     JArr [ JObj [ ("path", JStr "/git"); ("stdio", JStr "node git.js") ];
                            JObj [ ("path", JStr "/docker"); ("stdio", JNum 7) ] ]) ]))
    (mkArgv None None None (Some "servers.json") (Some "sse")
       8000 "" "/sse" "/message" "/mcp" None [] [] false None "2024-11-05") = Exit 1.
Proof.
  apply (X25_one_bad_config_entry_aborts "3.4.0"
           (mkArgv None None None (Some "servers.json") (Some "sse")
              8000 "" "/sse" "/message" "/mcp" None [] [] false None "2024-11-05")
           (JObj [ ("servers",
                    JArr [ JObj [ ("path", JStr "/git"); ("stdio", JStr "node git.js") ];
                           JObj [ ("path", JStr "/docker"); ("stdio", JNum 7) ] ]) ])
           [ JObj [ ("path", JStr "/git"); ("stdio", JStr "node git.js") ];
             JObj [ ("path", JStr "/docker"); ("stdio", JNum 7) ] ]
           (JObj [ ("path", JStr "/docker"); ("stdio", JNum 7) ])).
  - reflexivity.
  - right. left. reflexivity.
  - right. reflexivity.
  - reflexivity.
Defined.

(** X26 - Mixed --stdio values.  The name=command form is used only when
    every --stdio value holds an equals sign.  With --stdio as the only
    input and one value without an equals sign among several, [main]
    takes the single-command path: the first value, whole, is the command
    (even if it reads name=command), and the other values are not used. *)
Theorem X26_mixed_stdio_values_run_the_first (version : string) (file : ConfigFile)
    (argv : Argv) (first : string) (more : list string) (plain : string) :
  stdio argv = Some (first :: more) ->
  active_inputs argv = 1%nat ->
  In plain (first :: more) -> has_equals plain = false ->
  main version file argv =
    if String.eqb first "" then Exit 1 else start_single version argv first.
Proof.
  intros Hstdio Hone Hin Hplain.
  assert (Hall : forallb includes_equals (first :: more) = false).
  { destruct (forallb includes_equals (first :: more)) eqn:E; [|reflexivity].
    rewrite forallb_forall in E. specialize (E plain Hin).
    rewrite includes_equals_has_equals, Hplain in E. discriminate E. }
  unfold active_inputs in Hone. unfold main. cbv zeta.
  rewrite Hstdio in Hone |- *.
  change (default [] (Some (first :: more))) with (first :: more). rewrite Hall.
  assert (Hs : bool_decide (is_Some (Some (first :: more))) = true).
  { apply bool_decide_eq_true. eexists. reflexivity. }
  rewrite Hs in Hone |- *.
  destruct (truthy_str (sse argv)); destruct (truthy_str (streamableHttp argv));
    destruct (truthy_str (multiServerConfig argv)); cbn in Hone; try discriminate Hone.
  cbn. reflexivity.
Qed.

Lemma X26_mixed_stdio_values_run_the_first_witness :
  let argv :=
    mkArgv (Some ["git=node git.js"; "node docker.js"]) None None None (Some "sse")
      8000 "" "/sse" "/message" "/mcp" None [] [] false None "2024-11-05" in
  main "3.4.0" Unreadable argv =
    if String.eqb "git=node git.js" "" then Exit 1
    else start_single "3.4.0" argv "git=node git.js".
Proof.
  apply (X26_mixed_stdio_values_run_the_first "3.4.0" Unreadable
           (mkArgv (Some ["git=node git.js"; "node docker.js"]) None None None (Some "sse")
              8000 "" "/sse" "/message" "/mcp" None [] [] false None "2024-11-05")
           "git=node git.js" ["node docker.js"] "node docker.js").
  - reflexivity.
  - reflexivity.
  - right. left. reflexivity.
  - reflexivity.
Defined.

End CliMoreFacts.
